(** * Office files to PDF: batch traversal, staging and packaging

    A shallow embedding of [Word_Powerpoint_TO_pdf.py].  The script stages
    uploaded files in a temporary directory, walks the staged tree, sends
    Word and PowerPoint documents to the installed Office application,
    copies PDF files through, and packs the output tree into a ZIP archive.

    What is modelled and how:
    - text is [string]; [lower]/[upper] act on the letters A-Z/a-z, which is
      what Python's [str.lower]/[str.upper] do on every character that can
      occur in the extensions the script compares against;
    - a [pathlib.Path] is the list of its components below the file-system
      root; parsing and rendering follow the POSIX flavour, separator [/]
      (the specification writes its paths that way); components [..] are
      kept as they are, exactly as [pathlib] does; a string that starts
      with the separator is anchored at the root, as in both flavours of
      [pathlib], while the drives and shares that the Windows flavour
      anchors likewise ([D:/a], [//host/share/a]) are outside the model: a
      name is taken to carry none;
    - the file system is a finite map from paths to nodes, the Streamlit
      calls are events appended to a log, and both live in a [world] that is
      threaded through a state-and-exception monad: a raised exception keeps
      the effects made before it, as in Python;
    - the two Office applications are a parameter [office] of the
      development: an arbitrary function that fails before anything is
      written, yields the bytes that [SaveAs] writes at the requested PDF
      path, or yields these bytes and then fails in [Close] or [Quit];
    - a ZIP archive is the list of its members (name and content), so that
      packing and unpacking are about entry names and the tree, not about
      compression;
    - [rglob] lists the tree as it is when the loop starts; the three
      pipelines of the page always walk a directory that the loop does not
      write to. *)

From Stdlib Require Import String Ascii List Arith Lia.
From stdpp Require Import base option list strings gmap.

Open Scope string_scope.
Open Scope list_scope.

(** ** Text *)

Module Str.

Definition slash : ascii := "/"%char.
Definition backslash : ascii := ascii_of_nat 92.
Definition dot : ascii := "."%char.

Definition lower_ascii (c : ascii) : ascii :=
  let n := nat_of_ascii c in
  if ((65 <=? n) && (n <=? 90))%nat then ascii_of_nat (n + 32) else c.

Definition upper_ascii (c : ascii) : ascii :=
  let n := nat_of_ascii c in
  if ((97 <=? n) && (n <=? 122))%nat then ascii_of_nat (n - 32) else c.

Fixpoint smap (f : ascii -> ascii) (s : string) : string :=
  match s with
  | EmptyString => EmptyString
  | String c s' => String (f c) (smap f s')
  end.

(** [s.lower()], [s.upper()] *)
Definition lower : string -> string := smap lower_ascii.
Definition upper : string -> string := smap upper_ascii.

(** [c in s] for a one-character [c] *)
Fixpoint contains (c : ascii) (s : string) : bool :=
  match s with
  | EmptyString => false
  | String a s' => Ascii.eqb a c || contains c s'
  end.

(** [s.replace(a, b)] for one-character [a] and [b] *)
Definition replace (a b : ascii) : string -> string :=
  smap (fun c => if Ascii.eqb c a then b else c).

(** [s.startswith(c)] *)
Definition startswith (c : ascii) (s : string) : bool :=
  match s with
  | String a _ => Ascii.eqb a c
  | EmptyString => false
  end.

(** [s.rfind(c)]: the index of the last [c]; Python's [-1] is [None] *)
Fixpoint rfind (c : ascii) (s : string) : option nat :=
  match s with
  | EmptyString => None
  | String a s' =>
      match rfind c s' with
      | Some i => Some (S i)
      | None => if Ascii.eqb a c then Some 0 else None
      end
  end.

(** the slices [s[:i]] and [s[i:]] *)
Fixpoint stake (i : nat) (s : string) : string :=
  match i, s with
  | S i', String a s' => String a (stake i' s')
  | _, _ => EmptyString
  end.

Fixpoint sdrop (i : nat) (s : string) : string :=
  match i, s with
  | S i', String _ s' => sdrop i' s'
  | _, _ => s
  end.

(** [s.split(c)] *)
Fixpoint split (c : ascii) (s : string) : list string :=
  match s with
  | EmptyString => [EmptyString]
  | String a s' =>
      if Ascii.eqb a c then EmptyString :: split c s'
      else match split c s' with
           | x :: xs => String a x :: xs
           | [] => [String a EmptyString]
           end
  end.

(** [c.join(l)] *)
Fixpoint join (c : ascii) (l : list string) : string :=
  match l with
  | [] => EmptyString
  | [x] => x
  | x :: l' => x +:+ String c (join c l')
  end.

(** [s in l] *)
Definition mem (s : string) (l : list string) : bool :=
  existsb (String.eqb s) l.

End Str.

(** ** Paths, after [pathlib] *)

Definition path : Type := list string.

Module Path.

(** [p.name]: the last component, empty when there is none *)
Definition name (p : path) : string := default EmptyString (last p).

(** [p.parent] *)
Definition parent (p : path) : path := removelast p.

(** [PurePath.suffix] and [PurePath.stem] on the final component:
    [i = name.rfind('.')], and the suffix is [name[i:]] when
    [0 < i < len(name) - 1]. *)
Definition has_suffix_at (n : string) (i : nat) : bool :=
  ((0 <? i) && (i <? String.length n - 1))%nat.

Definition suffix_of (n : string) : string :=
  match Str.rfind Str.dot n with
  | Some i => if has_suffix_at n i then Str.sdrop i n else EmptyString
  | None => EmptyString
  end.

Definition stem_of (n : string) : string :=
  match Str.rfind Str.dot n with
  | Some i => if has_suffix_at n i then Str.stake i n else n
  | None => n
  end.

Definition suffix (p : path) : string := suffix_of (name p).
Definition stem (p : path) : string := stem_of (name p).

(** The components that [Path(s)] keeps of a string: the pieces between
    separators, without the empty ones and the [.] ones. *)
Definition keep_part (x : string) : bool :=
  negb (String.eqb x EmptyString) && negb (String.eqb x ".").

Definition parts (s : string) : path :=
  List.filter keep_part (Str.split Str.slash s).

(** [base / s] for a string [s]: a string that starts with the separator
    is anchored at the root and discards [base].  (A drive or a share in
    [s], which the Windows flavour anchors in the same way, is not
    modelled.) *)
Definition joinpath (base : path) (s : string) : path :=
  if Str.startswith Str.slash s then parts s else base ++ parts s.

(** [p.relative_to(other)]; [None] where Python raises [ValueError] *)
Fixpoint relative_to (p other : path) {struct other} : option path :=
  match other with
  | [] => Some p
  | o :: other' =>
      match p with
      | x :: p' => if String.eqb o x then relative_to p' other' else None
      | [] => None
      end
  end.

(** [str(p)] for a relative path ([Path('.')] renders as a dot) and for
    an absolute one *)
Definition rel_str (p : path) : string :=
  match p with
  | [] => "."
  | _ => Str.join Str.slash p
  end.

Definition abs_str (p : path) : string :=
  String Str.slash (Str.join Str.slash p).

End Path.

(** ** The file system and the user interface *)

(** A file holds opaque bytes or a well-formed ZIP archive, which is given
    by its members in order (entry name and content); compression is not
    modelled.  A member whose name ends with the separator is a directory
    entry. *)
#[warnings="-register-all"]
Inductive data :=
| Raw (b : list Byte.byte)
| Zip (members : list (string * data)).

Definition archive : Type := list (string * data).

Inductive node :=
| File (content : data)
| Dir.

(** Python exceptions that the script meets. *)
Inductive exn :=
| ValueError (msg : string)
| FileExistsError (p : path)
| FileNotFoundError (p : path)
| NotADirectoryError (p : path)
| IsADirectoryError (p : path)
| SameFileError (p : path)
| BadZipFile
| com_error (msg : string).

Definition os_error_str (what : string) (p : path) : string :=
  what +:+ ": '" +:+ Path.abs_str p +:+ "'".

(** [str(e)] *)
Definition exn_str (e : exn) : string :=
  match e with
  | ValueError msg => msg
  | FileExistsError p => os_error_str "[Errno 17] File exists" p
  | FileNotFoundError p => os_error_str "[Errno 2] No such file or directory" p
  | NotADirectoryError p => os_error_str "[Errno 20] Not a directory" p
  | IsADirectoryError p => os_error_str "[Errno 21] Is a directory" p
  | SameFileError p =>
      "'" +:+ Path.abs_str p +:+ "' and '" +:+ Path.abs_str p
          +:+ "' are the same file"
  | BadZipFile => "File is not a zip file"
  | com_error msg => msg
  end.

(** The Streamlit calls that report on a batch.  Each constructor stands
    for one call and carries the values interpolated into its message; the
    calls that only lay out the page ([st.markdown], [st.subheader], the
    summary lines written with [st.write]) leave no event. *)
Inductive notice :=
| Converted (original pdf_name : string)
    (* st.success: "Converted: {original} -> {pdf_path.name}" *)
| ConvertFailed (original : string) (e : exn)
    (* st.warning: "Failed to convert '{original}': {e}" *)
| CopiedPdf (original : string)
    (* st.info: "Copied PDF: {original}" *)
| CopyFailed (original : string) (e : exn)
    (* st.warning: "Failed to copy PDF '{original}': {e}" *)
| NotAZip
    (* st.error: "The uploaded file is not a valid ZIP file." *)
| Extracted
    (* st.info: "Files extracted. Converting to PDFs..." *)
| Complete (n : nat)
    (* st.success: "Conversion complete! {n} files were processed." *)
| NothingConverted
    (* st.warning: "No files were converted. ..." *)
| ProcessingError (e : exn)
    (* st.error: "An error occurred during processing: {e}" *)
| Download (key : string) (zip_data : data).
    (* st.download_button(..., "converted_files.zip", "application/zip") *)

Inductive level := success | warning | info | error | download_button.

Definition level_of (n : notice) : level :=
  match n with
  | Converted _ _ | Complete _ => success
  | ConvertFailed _ _ | CopyFailed _ _ | NothingConverted => warning
  | CopiedPdf _ | Extracted => info
  | NotAZip | ProcessingError _ => error
  | Download _ _ => download_button
  end.

Record world := World {
  files : gmap path node;
  ui : list notice
}.

(** ** State and exceptions *)

Inductive result (A : Type) :=
| Ok (a : A)
| Raise (e : exn).
Arguments Ok {A} a.
Arguments Raise {A} e.

Definition M (A : Type) : Type := world -> result A * world.

Definition ret {A} (a : A) : M A := fun w => (Ok a, w).

Definition bind {A B} (m : M A) (k : A -> M B) : M B :=
  fun w =>
    match m w with
    | (Ok a, w') => k a w'
    | (Raise e, w') => (Raise e, w')
    end.

Definition raise {A} (e : exn) : M A := fun w => (Raise e, w).

(** [try: m / except Exception as e: handler e] *)
Definition try_except {A} (m : M A) (handler : exn -> M A) : M A :=
  fun w =>
    match m w with
    | (Ok a, w') => (Ok a, w')
    | (Raise e, w') => handler e w'
    end.

(** [try: m / finally: cleanup] *)
Definition try_finally {A} (m : M A) (cleanup : M unit) : M A :=
  fun w =>
    match m w with
    | (r, w') =>
        match cleanup w' with
        | (Ok _, w'') => (r, w'')
        | (Raise e, w'') => (Raise e, w'')
        end
    end.

Notation "'let*' x ':=' m 'in' k" := (bind m (fun x => k))
  (at level 10, x pattern, m at level 100, k at level 200).
Notation "m '>>' k" := (bind m (fun _ => k))
  (at level 90, right associativity).

Definition get_files : M (gmap path node) := fun w => (Ok (files w), w).

Definition put_files (m : gmap path node) : M unit :=
  fun w => (Ok tt, World m (ui w)).

Definition emit (n : notice) : M unit :=
  fun w => (Ok tt, World (files w) (ui w ++ [n])).

(** [for x in l: acc = body x acc] *)
Fixpoint for_fold {A S} (body : A -> S -> M S) (l : list A) (acc : S) : M S :=
  match l with
  | [] => ret acc
  | x :: l' => let* acc' := body x acc in for_fold body l' acc'
  end.

Definition for_each {A} (body : A -> M unit) (l : list A) : M unit :=
  for_fold (fun x _ => body x) l tt.

(** ** File-system operations *)

Module Fs.

(** The root always exists and is a directory. *)
Definition stat (m : gmap path node) (p : path) : option node :=
  match p with
  | [] => Some Dir
  | _ => m !! p
  end.

Definition isdir (m : gmap path node) (p : path) : bool :=
  match stat m p with Some Dir => true | _ => false end.

Definition isfile (m : gmap path node) (p : path) : bool :=
  match stat m p with Some (File _) => true | _ => false end.

Definition is_dir (p : path) : M bool :=
  let* m := get_files in ret (isdir m p).

Definition is_file (p : path) : M bool :=
  let* m := get_files in ret (isfile m p).

(** [os.mkdir(p)] *)
Definition os_mkdir (p : path) : M unit :=
  let* m := get_files in
  match stat m p with
  | Some _ => raise (FileExistsError p)
  | None =>
      match stat m (Path.parent p) with
      | Some Dir => put_files (<[p := Dir]> m)
      | Some (File _) => raise (NotADirectoryError p)
      | None => raise (FileNotFoundError p)
      end
  end.

(** [p.mkdir(parents=True, exist_ok=True)], for [p = base / rest]:
    the chain is walked from [base] downwards, a missing directory is
    created, an existing one is kept, and a file in the way is an error
    ([FileExistsError] at the last component, [NotADirectoryError]
    above it). *)
Fixpoint mkdir_chain (base rest : path) : M unit :=
  match rest with
  | [] => ret tt
  | d :: rest' =>
      let p := base ++ [d] in
      let* m := get_files in
      match stat m p with
      | Some Dir => mkdir_chain p rest'
      | Some (File _) =>
          match rest' with
          | [] => raise (FileExistsError p)
          | _ => raise (NotADirectoryError (p ++ rest'))
          end
      | None => put_files (<[p := Dir]> m) >> mkdir_chain p rest'
      end
  end.

Definition mkdir_parents (p : path) : M unit := mkdir_chain [] p.

(** [with open(p, "wb") as f: f.write(content)] *)
Definition write_file (p : path) (content : data) : M unit :=
  let* m := get_files in
  match stat m p with
  | Some Dir => raise (IsADirectoryError p)
  | _ =>
      match stat m (Path.parent p) with
      | Some Dir => put_files (<[p := File content]> m)
      | Some (File _) => raise (NotADirectoryError p)
      | None => raise (FileNotFoundError p)
      end
  end.

Definition read_file (p : path) : M data :=
  let* m := get_files in
  match stat m p with
  | Some (File content) => ret content
  | Some Dir => raise (IsADirectoryError p)
  | None => raise (FileNotFoundError p)
  end.

(** [shutil.copy2(src, dst)]: a destination that is a directory receives
    the file under the source's base name; copying a file onto itself is
    an error. *)
Definition copy2 (src dst : path) : M unit :=
  let* d := is_dir dst in
  let dst' := if d then dst ++ [Path.name src] else dst in
  let* m := get_files in
  if bool_decide (src = dst') && bool_decide (is_Some (stat m src))
  then raise (SameFileError src)
  else let* content := read_file src in write_file dst' content.

(** The paths strictly below [folder], as [folder.rglob('*')] yields
    them; a folder that is not a directory yields nothing.  The walk is
    taken on the tree as it is when the loop starts. *)
Definition below (folder : path) (k : path) : bool :=
  match Path.relative_to k folder with
  | Some (_ :: _) => true
  | _ => false
  end.

Definition rglob (m : gmap path node) (folder : path) : list path :=
  if isdir m folder
  then List.filter (below folder) (map_to_list m).*1
  else [].

(** [shutil.rmtree(p)] *)
Definition inside (p : path) (k : path) : bool :=
  match Path.relative_to k p with
  | Some _ => true
  | None => false
  end.

Definition rmtree (p : path) : M unit :=
  let* m := get_files in
  put_files (filter (fun kv => inside p kv.1 = false) m).

End Fs.

(** [with tempfile.TemporaryDirectory() as temp_dir: body]: the directory
    [temp_dir] is the fresh name the operating system hands out; it is
    created on entry and removed with everything below it on exit, also
    when the body raises. *)
Definition TemporaryDirectory {A} (temp_dir : path) (body : M A) : M A :=
  Fs.os_mkdir temp_dir >> try_finally body (Fs.rmtree temp_dir).

(** ** The program *)

(** [{'original': ..., 'pdf': ..., 'type': ...}] *)
Record ConversionRecord := {
  original : string;
  pdf : string;
  type : string
}.

(** What Streamlit hands over for an uploaded file. *)
Record UploadedFile := {
  name : string;
  getvalue : data
}.

Inductive office_app := Word | PowerPoint.

(** What driving an Office application on a document comes to:
    [Dispatch] raises (no application); [Open] or [SaveAs] raises;
    [SaveAs] has the rendered PDF to write and all that follows goes well;
    [SaveAs] has the PDF to write and [Close] raises after it; or [SaveAs]
    has the PDF to write and [Quit], in the [finally] clause, raises. *)
Inductive automation :=
| NoApplication (e : string)
| Refused (e : string)
| Rendered (pdf_content : data)
| CloseFailed (pdf_content : data) (e : string)
| QuitFailed (pdf_content : data) (e : string).

(** [p.relative_to(other)] as a statement that may raise *)
Definition not_in_subpath (p other : path) : exn :=
  ValueError ("'" +:+ Path.abs_str p +:+ "' is not in the subpath of '"
                  +:+ Path.abs_str other +:+ "'").

Definition relative_to (p other : path) : M path :=
  match Path.relative_to p other with
  | Some r => ret r
  | None => raise (not_in_subpath p other)
  end.

(** The staging-internal name that the walk never touches. *)
Definition reserved (file_path : path) : bool :=
  String.eqb (Path.name file_path) "uploaded.zip".

Section Program.

Variable office : office_app -> path -> gmap path node -> automation.

Definition could_not_convert (doc_path : path) (e : string) : exn :=
  ValueError ("Could not convert " +:+ Path.abs_str doc_path +:+ ": " +:+ e).

Definition automate (app : office_app) (doc_path pdf_path : path) : M unit :=
  let* m := get_files in
  match office app doc_path m with
  | NoApplication e => raise (com_error e)
  | Refused e => raise (could_not_convert doc_path e)
  | Rendered pdf_content =>
      try_except (Fs.write_file pdf_path pdf_content)
                 (fun e => raise (could_not_convert doc_path (exn_str e)))
  | CloseFailed pdf_content e =>
      try_except (Fs.write_file pdf_path pdf_content >> raise (com_error e))
                 (fun e => raise (could_not_convert doc_path (exn_str e)))
  | QuitFailed pdf_content e =>
      try_finally
        (try_except (Fs.write_file pdf_path pdf_content)
                    (fun e => raise (could_not_convert doc_path (exn_str e))))
        (raise (com_error e))
  end.

Definition convert_doc_to_pdf (doc_path pdf_path : path) : M unit :=
  automate Word doc_path pdf_path.

Definition convert_pptx_to_pdf (pptx_path pdf_path : path) : M unit :=
  automate PowerPoint pptx_path pdf_path.

Definition is_valid_office_file (file_path : path) : bool :=
  Str.mem (Str.lower (Path.suffix file_path)) [".doc"; ".docx"; ".ppt"; ".pptx"].

Definition convert_file_to_pdf (file_path output_dir : path) : M path :=
  Fs.mkdir_parents output_dir >>
  let pdf_path := Path.joinpath output_dir (Path.stem file_path +:+ ".pdf") in
  try_except
    ((if Str.mem (Str.lower (Path.suffix file_path)) [".doc"; ".docx"]
      then convert_doc_to_pdf file_path pdf_path
      else if Str.mem (Str.lower (Path.suffix file_path)) [".ppt"; ".pptx"]
      then convert_pptx_to_pdf file_path pdf_path
      else raise (ValueError ("Unsupported file type: " +:+ Path.suffix file_path))) >>
     ret pdf_path)
    (fun e =>
       raise (ValueError ("Failed to convert " +:+ Path.name file_path
                              +:+ ": " +:+ exn_str e))).

(** The output directory of a file: the mirror of its directory under
    the output base, or the output base itself. *)
Definition output_dir_of (folder_path output_base_dir : path)
    (preserve_structure : bool) (file_path : path) : M path :=
  if preserve_structure then
    let* relative_path := relative_to (Path.parent file_path) folder_path in
    ret (output_base_dir ++ relative_path)
  else ret output_base_dir.

(** The body of the loop of [process_folder_recursive]; the two lists
    are threaded through it. *)
Definition visit (folder_path output_base_dir : path) (preserve_structure : bool)
    (file_path : path) (acc : list ConversionRecord * list string)
    : M (list ConversionRecord * list string) :=
  let converted_files := acc.1 in
  let skipped_files := acc.2 in
  let* f := Fs.is_file file_path in
  if f && negb (String.eqb (Path.name file_path) "uploaded.zip") then
    if is_valid_office_file file_path then
      try_except
        (let* output_dir :=
           output_dir_of folder_path output_base_dir preserve_structure file_path in
         let* pdf_path := convert_file_to_pdf file_path output_dir in
         let* rel := relative_to file_path folder_path in
         let* pdf_rel := relative_to pdf_path output_base_dir in
         emit (Converted (Path.rel_str rel) (Path.name pdf_path)) >>
         ret (converted_files ++
                [{| original := Path.rel_str rel;
                    pdf := Path.rel_str pdf_rel;
                    type := Str.upper (Path.suffix file_path) |}],
              skipped_files))
        (fun e =>
           let* rel := relative_to file_path folder_path in
           emit (ConvertFailed (Path.rel_str rel) e) >>
           ret (converted_files, skipped_files ++ [Path.rel_str rel]))
    else if String.eqb (Str.lower (Path.suffix file_path)) ".pdf" then
      try_except
        (let* output_dir :=
           output_dir_of folder_path output_base_dir preserve_structure file_path in
         Fs.mkdir_parents output_dir >>
         let pdf_copy_path := Path.joinpath output_dir (Path.name file_path) in
         Fs.copy2 file_path pdf_copy_path >>
         let* rel := relative_to file_path folder_path in
         let* pdf_rel := relative_to pdf_copy_path output_base_dir in
         emit (CopiedPdf (Path.rel_str rel)) >>
         ret (converted_files ++
                [{| original := Path.rel_str rel;
                    pdf := Path.rel_str pdf_rel;
                    type := "PDF (copied)" |}],
              skipped_files))
        (fun e =>
           let* rel := relative_to file_path folder_path in
           emit (CopyFailed (Path.rel_str rel) e) >>
           ret (converted_files, skipped_files ++ [Path.rel_str rel]))
    else
      if negb (Str.startswith Str.dot (Path.name file_path))
         && negb (Str.mem (Str.lower (Path.suffix file_path)) [".txt"; ".md"; ".log"])
      then
        let* rel := relative_to file_path folder_path in
        ret (converted_files, skipped_files ++ [Path.rel_str rel])
      else ret acc
  else ret acc.

Definition process_folder_recursive (folder_path output_base_dir : path)
    (preserve_structure : bool) : M (list ConversionRecord * list string) :=
  let* d := Fs.is_dir folder_path in
  if negb d then raise (ValueError "The provided path is not a folder.")
  else
    let* m := get_files in
    for_fold (visit folder_path output_base_dir preserve_structure)
             (Fs.rglob m folder_path) ([], []).

(** The body of the loop that stages the uploaded files. *)
Definition save_upload (input_dir : path) (uploaded_file : UploadedFile) : M unit :=
  let file_name := name uploaded_file in
  let* file_path :=
    if Str.contains Str.backslash file_name || Str.contains Str.slash file_name then
      let normalized_path := Str.replace Str.backslash Str.slash file_name in
      let file_path := Path.joinpath input_dir normalized_path in
      Fs.mkdir_parents (Path.parent file_path) >> ret file_path
    else ret (Path.joinpath input_dir file_name) in
  Fs.write_file file_path (getvalue uploaded_file).

Definition process_uploaded_files_with_structure (temp_dir : path)
    (uploaded_files : list UploadedFile) (preserve_structure : bool)
    : M (list ConversionRecord * list string * path) :=
  TemporaryDirectory temp_dir
    (let input_dir := Path.joinpath temp_dir "input" in
     let output_dir := Path.joinpath temp_dir "output" in
     Fs.os_mkdir input_dir >>
     Fs.os_mkdir output_dir >>
     for_each (save_upload input_dir) uploaded_files >>
     let* r := process_folder_recursive input_dir output_dir preserve_structure in
     ret (r.1, r.2, output_dir)).

(** [zipf.write(file_path, arcname)] for every regular file below the
    folder, the entry named by the file's path relative to the folder. *)
Definition add_to_zip (folder_path file_path : path) (members : archive) : M archive :=
  let* f := Fs.is_file file_path in
  if f then
    let* arcname := relative_to file_path folder_path in
    let* content := Fs.read_file file_path in
    ret (members ++ [(Path.rel_str arcname, content)])
  else ret members.

Definition create_zip_from_folder (folder_path : path) : M data :=
  let* m := get_files in
  let* members := for_fold (add_to_zip folder_path) (Fs.rglob m folder_path) [] in
  ret (Zip members).

(** [zipfile.is_zipfile] *)
Definition is_zipfile (d : data) : bool :=
  match d with
  | Zip _ => true
  | Raw _ => false
  end.

(** [ZipFile._extract_member]: the entry name is split at the separator,
    the empty, [.] and [..] pieces are dropped, the directories above the
    target are created when missing, and the entry is written (or, for a
    directory entry, created). *)
Definition ends_with_slash (s : string) : bool :=
  match last (Str.split Str.slash s) with
  | Some EmptyString => negb (String.eqb s EmptyString)
  | _ => false
  end.

Definition valid_part (x : string) : bool :=
  negb (String.eqb x EmptyString) && negb (String.eqb x ".")
  && negb (String.eqb x "..").

Definition extract_member (target : path) (member : string * data) : M unit :=
  let arcname := List.filter valid_part (Str.split Str.slash member.1) in
  let is_dir_entry := ends_with_slash member.1 in
  match arcname, is_dir_entry with
  | [], false => raise (ValueError "Empty filename.")
  | _, _ =>
      let targetpath := target ++ arcname in
      let upperdirs := Path.parent targetpath in
      let* m := get_files in
      (if bool_decide (is_Some (Fs.stat m upperdirs)) then ret tt
       else Fs.mkdir_parents upperdirs) >>
      if is_dir_entry then
        let* d := Fs.is_dir targetpath in
        if d then ret tt else Fs.os_mkdir targetpath
      else Fs.write_file targetpath member.2
  end.

(** [with zipfile.ZipFile(zip_path, "r") as zip_ref:
     zip_ref.extractall(extract_dir)] *)
Definition extractall (zip_path extract_dir : path) : M unit :=
  let* content := Fs.read_file zip_path in
  match content with
  | Zip members => for_each (extract_member extract_dir) members
  | Raw _ => raise BadZipFile
  end.

Definition handle_uploaded_zip (temp_dir : path) (uploaded_zip : UploadedFile)
    (preserve_structure : bool) : M (list ConversionRecord * list string) :=
  if negb (is_zipfile (getvalue uploaded_zip)) then
    emit NotAZip >> ret ([], [])
  else
    TemporaryDirectory temp_dir
      (let extract_dir := Path.joinpath temp_dir "extracted" in
       Fs.os_mkdir extract_dir >>
       let zip_path := Path.joinpath temp_dir "uploaded.zip" in
       Fs.write_file zip_path (getvalue uploaded_zip) >>
       extractall zip_path extract_dir >>
       let output_dir := Path.joinpath temp_dir "converted" in
       emit Extracted >>
       let* r := process_folder_recursive extract_dir output_dir preserve_structure in
       (match r.1 with
        | [] => ret tt
        | _ =>
            let* result_zip_data := create_zip_from_folder output_dir in
            emit (Download "download_zip" result_zip_data)
        end) >>
       ret r).

(** The three blocks of the page script, one per upload widget. *)
Definition zip_upload_block (temp_dir : path) (uploaded_zip : UploadedFile)
    (preserve_structure : bool) : M unit :=
  try_except
    (let* r := handle_uploaded_zip temp_dir uploaded_zip preserve_structure in
     match r.1 with
     | [] => emit NothingConverted
     | _ => emit (Complete (length r.1))
     end)
    (fun e => emit (ProcessingError e)).

Definition folder_upload_block (temp_dir : path) (folder_files : list UploadedFile)
    (preserve_structure : bool) : M unit :=
  match folder_files with
  | [] => ret tt
  | _ =>
      try_except
        (let* r :=
           process_uploaded_files_with_structure temp_dir folder_files
                                                 preserve_structure in
         let converted_files := r.1.1 in
         let output_dir := r.2 in
         match converted_files with
         | [] => emit NothingConverted
         | _ =>
             emit (Complete (length converted_files)) >>
             let* result_zip_data := create_zip_from_folder output_dir in
             emit (Download "download_folder" result_zip_data)
         end)
        (fun e => emit (ProcessingError e))
  end.

Definition individual_upload_block (temp_dir : path)
    (uploaded_files : list UploadedFile) : M unit :=
  match uploaded_files with
  | [] => ret tt
  | _ =>
      TemporaryDirectory temp_dir
        (let input_dir := Path.joinpath temp_dir "input" in
         let output_dir := Path.joinpath temp_dir "output" in
         Fs.os_mkdir input_dir >>
         Fs.os_mkdir output_dir >>
         for_each (fun uploaded_file =>
                     Fs.write_file (Path.joinpath input_dir (name uploaded_file))
                                   (getvalue uploaded_file))
                  uploaded_files >>
         let* r := process_folder_recursive input_dir output_dir false in
         match r.1 with
         | [] => ret tt
         | _ =>
             emit (Complete (length r.1)) >>
             let* result_zip_data := create_zip_from_folder output_dir in
             emit (Download "download_individual" result_zip_data)
         end)
  end.

End Program.

(** ** Vocabulary of the statements *)

(** The directory of an output below the output base: the directory chain
    of the input below the traversal root, or nothing when flattening. *)
Definition mirror (preserve_structure : bool) (rel : path) : path :=
  if preserve_structure then Path.parent rel else [].

(** What the visit of one file adds to the two lists. *)
Inductive outcome :=
| Ignored
| Skipped (s : string)
| Recorded (r : ConversionRecord).

Definition add_outcome (o : outcome) (acc : list ConversionRecord * list string)
    : list ConversionRecord * list string :=
  match o with
  | Ignored => acc
  | Skipped s => (acc.1, acc.2 ++ [s])
  | Recorded r => (acc.1 ++ [r], acc.2)
  end.

(** Files stay files and directories stay directories. *)
Definition keeps (m m' : gmap path node) : Prop :=
  forall p, (Fs.isfile m p = true -> Fs.isfile m' p = true)
            /\ (Fs.isdir m p = true -> Fs.isdir m' p = true).

(** No component of the path contains the separator. *)
Definition slash_free (p : path) : Prop :=
  Forall (fun s => Str.contains Str.slash s = false) p.

Definition is_pdf (file_path : path) : bool :=
  String.eqb (Str.lower (Path.suffix file_path)) ".pdf".

Definition benign (file_path : path) : bool :=
  Str.startswith Str.dot (Path.name file_path)
  || Str.mem (Str.lower (Path.suffix file_path)) [".txt"; ".md"; ".log"].

(** The output path, below the output base, of an input at [rel] below
    the traversal root: in the mirrored directory, under the PDF name for
    a document and under its own name for a PDF. *)
Definition pdf_name (file_path : path) : string :=
  Path.stem file_path +:+ ".pdf".

Definition converted_record (rel pdf_rel : path) (ty : string) : ConversionRecord :=
  {| original := Path.rel_str rel; pdf := Path.rel_str pdf_rel; type := ty |}.

Definition say (n : notice) (w : world) : world :=
  World (files w) (ui w ++ [n]).

Definition records (os : list outcome) : list ConversionRecord :=
  omap (fun o => match o with Recorded r => Some r | _ => None end) os.

Definition skips (os : list outcome) : list string :=
  omap (fun o => match o with Skipped s => Some s | _ => None end) os.

Definition add_outcomes (os : list outcome) (acc : list ConversionRecord * list string)
    : list ConversionRecord * list string :=
  foldl (fun a o => add_outcome o a) acc os.

(** What can be said of the outcome of visiting [folder / rel] in a walk
    that started on the tree [m0]. *)
Definition outcome_spec (folder out : path) (pres : bool) (m0 : gmap path node)
    (rel : path) (o : outcome) : Prop :=
  let f := folder ++ rel in
  let dir := out ++ mirror pres rel in
  match o with
  | Ignored =>
      Fs.isfile m0 f = false \/ reserved f = true
      \/ (is_valid_office_file f = false /\ is_pdf f = false /\ benign f = true)
  | Skipped s =>
      s = Path.rel_str rel /\ reserved f = false
      /\ (is_valid_office_file f = false -> is_pdf f = false -> benign f = false)
  | Recorded r =>
      original r = Path.rel_str rel /\ reserved f = false
      /\ ((is_valid_office_file f = true
           /\ type r = Str.upper (Path.suffix f)
           /\ exists pdf_rel,
                Path.relative_to (Path.joinpath dir (pdf_name f)) out = Some pdf_rel
                /\ pdf r = Path.rel_str pdf_rel)
          \/ (is_valid_office_file f = false /\ is_pdf f = true
              /\ type r = "PDF (copied)"
              /\ exists pdf_rel,
                   Path.relative_to (Path.joinpath dir (Path.name f)) out = Some pdf_rel
                   /\ pdf r = Path.rel_str pdf_rel))
  end.

(** Whether an outcome names the path rendered as [s]. *)
Definition about (s : string) (o : outcome) : bool :=
  match o with
  | Ignored => false
  | Skipped s' => String.eqb s' s
  | Recorded r => String.eqb (original r) s
  end.

(** The records, and the skip entries, that name [s]. *)
Definition records_of (s : string) (converted_files : list ConversionRecord)
    : list ConversionRecord :=
  List.filter (fun r => String.eqb (original r) s) converted_files.

Definition skips_of (s : string) (skipped_files : list string) : list string :=
  List.filter (fun s' => String.eqb s' s) skipped_files.

(** Every name in the tree is free of the separator, as file names are. *)
Definition names_slash_free (m : gmap path node) : Prop :=
  forall k, is_Some (m !! k) -> slash_free k.

(** The staging path that the description of folder-structure inference
    gives an uploaded name: the name split on either separator, all pieces
    but the last a directory chain below the staging root, the last piece
    the file. *)
Definition segments (file_name : string) : list string :=
  Str.split Str.slash (Str.replace Str.backslash Str.slash file_name).

Definition staged_at (input_dir : path) (file_name : string) : path :=
  input_dir ++ segments file_name.

(** ** Sample inputs *)

(** An Office installation that renders every document it can open to the
    document's own bytes. *)
Definition sample_office (app : office_app) (doc : path) (m : gmap path node)
    : automation :=
  match Fs.stat m doc with
  | Some (File c) => Rendered c
  | _ => Refused "cannot open"
  end.

(** An Office installation that is missing. *)
Definition no_office (app : office_app) (doc : path) (m : gmap path node)
    : automation :=
  NoApplication "Invalid class string".

Definition sample_bytes : data := Raw [Byte.x25; Byte.x50; Byte.x44; Byte.x46].
Definition other_bytes : data := Raw [Byte.x50; Byte.x4b].

Definition bare_world : world := World {[ ["tmp"] := Dir ]} [].

Definition staging_world : world :=
  World (<[ ["tmp"; "input"] := Dir ]> {[ ["tmp"] := Dir ]}) [].

Definition sample_tree : gmap path node :=
  list_to_map
    [ (["in"], Dir);
      (["in"; "reports"], Dir);
      (["in"; "reports"; "q1.docx"], File other_bytes);
      (["in"; "a.pdf"], File sample_bytes);
      (["in"; "n.csv"], File other_bytes);
      (["in"; "l.log"], File other_bytes);
      (["in"; "uploaded.zip"], File other_bytes) ].

Definition sample_world : world := World sample_tree [].

Definition sample_upload (file_name : string) : UploadedFile :=
  {| name := file_name; getvalue := sample_bytes |}.

(** A check of [names_slash_free] that computes. *)
Definition names_slash_free_check (m : gmap path node) : bool :=
  forallb (forallb (fun s => negb (Str.contains Str.slash s))) (map_to_list m).*1.

(** All the prefixes of a path, and a check that no file sits on a chain. *)
Fixpoint inits (p : path) : list path :=
  match p with
  | [] => [[]]
  | x :: p' => [] :: map (cons x) (inits p')
  end.

Definition chain_free_check (m : gmap path node) (p : path) : bool :=
  forallb (fun q => negb (Fs.isfile m q)) (inits p).

(** The two lists of a finished run (empty when the run raised). *)
Definition converted_of (r : result (list ConversionRecord * list string))
    : list ConversionRecord :=
  match r with Ok (c, _) => c | Raise _ => [] end.

Definition skipped_of (r : result (list ConversionRecord * list string))
    : list string :=
  match r with Ok (_, k) => k | Raise _ => [] end.

Definition raised {A} (r : result A) : exn :=
  match r with Raise e => e | Ok _ => BadZipFile end.

(** The regular files among the entries [rels] below a folder, with their
    contents, and the archive member that stands for one. *)
Definition file_entries (m : gmap path node) (folder : path) (rels : list path)
    : list (path * data) :=
  flat_map (fun rel => match Fs.stat m (folder ++ rel) with
                       | Some (File c) => [(rel, c)]
                       | _ => []
                       end) rels.

Definition member_of (e : path * data) : string * data :=
  (Path.rel_str e.1, e.2).

(** Extraction of a regular-file member whose name parses to [rel]. *)
Definition extract_file (target rel : path) (c : data) : M unit :=
  let* m := get_files in
  (if bool_decide (is_Some (Fs.stat m (Path.parent (target ++ rel)))) then ret tt
   else Fs.mkdir_parents (Path.parent (target ++ rel))) >>
  Fs.write_file (target ++ rel) c.

(** Every name in the tree is a proper file name: free of the separator,
    not empty, and neither [.] nor [..]. *)
Definition proper (x : string) : Prop :=
  Str.contains Str.slash x = false /\ valid_part x = true.

Definition names_proper (m : gmap path node) : Prop :=
  forall k, is_Some (m !! k) -> Forall proper k.

(** Nothing lies below a regular file. *)
Definition files_are_leaves (m : gmap path node) : Prop :=
  forall p q, Fs.isfile m p = true -> q <> [] -> m !! (p ++ q) = None.

(** The directory holds nothing yet and can be reached. *)
Definition empty_dir (m : gmap path node) (d : path) : Prop :=
  Fs.isdir m d = true
  /\ (forall q, q <> [] -> m !! (d ++ q) = None)
  /\ (forall q, q `prefix_of` d -> Fs.isfile m q = false).

Definition names_proper_check (m : gmap path node) : bool :=
  forallb (forallb (fun x => negb (Str.contains Str.slash x) && valid_part x))
          (map_to_list m).*1.

Definition files_are_leaves_check (m : gmap path node) : bool :=
  forallb (fun k => forallb (fun q => negb (Fs.isfile m q) || bool_decide (q = k))
                            (inits k))
          (map_to_list m).*1.

(** The state of an extraction into [d] after the entries [done]: [d] is
    a reachable directory, the files below it are the entries, and every
    directory below it lies on the way to an entry. *)
Definition extracted (d : path) (m : gmap path node) (done : list (path * data))
    : Prop :=
  Fs.isdir m d = true
  /\ (forall q, q `prefix_of` d -> Fs.isfile m q = false)
  /\ (forall rel c, Fs.stat m (d ++ rel) = Some (File c) <-> In (rel, c) done)
  /\ (forall rel, Fs.isdir m (d ++ rel) = true ->
        rel = [] \/ exists rel' c q, In (rel', c) done /\ rel' = rel ++ q /\ q <> []).

(** Two entries of which neither lies at or below the other. *)
Definition apart (rel rel' : path) : Prop :=
  ~ rel `prefix_of` rel' /\ ~ rel' `prefix_of` rel.

(** The destination that [copy2] settles on. *)
Definition copy_target (m : gmap path node) (src dst : path) : path :=
  if Fs.isdir m dst then dst ++ [Path.name src] else dst.

Definition empty_dir_check (m : gmap path node) (d : path) : bool :=
  Fs.isdir m d
  && forallb (fun k => negb (Fs.below d k)) (map_to_list m).*1
  && chain_free_check m d.

(** A packed output tree, its archive, and a place to unpack it. *)
Definition packed_tree : gmap path node :=
  list_to_map
    [ (["out"], Dir);
      (["out"; "reports"], Dir);
      (["out"; "reports"; "q1.pdf"], File other_bytes);
      (["out"; "a.pdf"], File sample_bytes) ].

Definition packed_archive : data :=
  match (create_zip_from_folder ["out"] (World packed_tree [])).1 with
  | Ok z => z
  | Raise _ => Zip []
  end.

Definition unpack_world : world :=
  World (list_to_map [ (["x"], Dir); (["up.zip"], File packed_archive) ]) [].

(** The value of a finished computation, or a default when it raised. *)
Definition value_or {A} (d : A) (r : result A) : A :=
  match r with Ok a => a | Raise _ => d end.

(** The produced path of a record is there: a regular file, or, for a
    copied PDF only, a directory that was in the way and received the copy
    under the name [n] of its source. *)
Definition produced_exists (out : path) (m : gmap path node) (r : ConversionRecord)
    : Prop :=
  exists pr,
    pdf r = Path.rel_str pr
    /\ (Fs.isfile m (out ++ pr) = true
        \/ (type r = "PDF (copied)" /\ Fs.isdir m (out ++ pr) = true
            /\ exists n, Fs.isfile m (out ++ pr ++ [n]) = true)).

(** A record is in an archive: a member bears the produced path as its
    name, or, for a copied PDF only, lies directly below that path. *)
Definition packed (members : archive) (r : ConversionRecord) : Prop :=
  (exists c, In (pdf r, c) members)
  \/ (type r = "PDF (copied)"
      /\ exists pr n c,
           pdf r = Path.rel_str pr /\ In (Path.rel_str (pr ++ [n]), c) members).

(** An Office installation that never renders anything. *)
Definition never_renders (office : office_app -> path -> gmap path node -> automation)
    : Prop :=
  forall app doc m, match office app doc m with Rendered _ => False | _ => True end.

(** The paths that a walk with output base [out] leaves alone: those not
    below [out], provided they exist already or are no ancestor of [out]. *)
Definition left_alone (out : path) (m : gmap path node) (p : path) : Prop :=
  ~ out `prefix_of` p /\ (is_Some (Fs.stat m p) \/ ~ p `prefix_of` out).

(** The inputs named by the notices of success, and by the warnings. *)
Definition announced (n : notice) : option string :=
  match n with
  | Converted o _ | CopiedPdf o => Some o
  | _ => None
  end.

Definition warned (n : notice) : option string :=
  match n with
  | ConvertFailed o _ | CopyFailed o _ => Some o
  | _ => None
  end.

(** An upload under its normalized name: every backslash a slash. *)
Definition normalized (up : UploadedFile) : UploadedFile :=
  {| name := Str.replace Str.backslash Str.slash (name up);
     getvalue := getvalue up |}.

(** What the walk does with an entry is decided by these three tests. *)
Definition handled (m : gmap path node) (f : path) : bool :=
  Fs.isfile m f && negb (reserved f)
  && (is_valid_office_file f || is_pdf f || negb (benign f)).

(** ** The detected folder structure *)

(** The values of the dictionary that [create_folder_structure_info]
    builds: the list of file names kept under the key [_files], or the
    dictionary of a folder.  A dictionary keeps its keys in the order of
    insertion, and an assignment to a key it has keeps the key's place. *)
#[warnings="-register-all"]
Inductive structure :=
| Names (file_names : list string)
| Folder (items : list (string * structure)).

(** The two exceptions that indexing the structure can raise. *)
Inductive structure_error :=
| TypeError
    (* list indices must be integers or slices, not str *)
| AttributeError.
    (* 'dict' object has no attribute 'append';
       'list' object has no attribute 'items' *)

(** The lines that [st.write] puts on the page. *)
Inductive line :=
| Heading
    (* "**Detected folder structure:**" *)
| FileLine (prefix file_name : string)
    (* f"{prefix}(page) {file_name}" *)
| FolderLine (prefix key : string).
    (* f"{prefix}(folder) {key}/" *)

Definition is_file_line (l : line) : bool :=
  match l with FileLine _ _ => true | _ => false end.

(** [d.get(k)] and [d[k] = v] *)
Fixpoint dict_get (k : string) (d : list (string * structure)) : option structure :=
  match d with
  | [] => None
  | (k', v) :: d' => if String.eqb k' k then Some v else dict_get k d'
  end.

Fixpoint dict_set (k : string) (v : structure) (d : list (string * structure))
    : list (string * structure) :=
  match d with
  | [] => [(k, v)]
  | (k', v') :: d' =>
      if String.eqb k' k then (k, v) :: d' else (k', v') :: dict_set k v d'
  end.

(** [if '_files' not in current_level: current_level['_files'] = []]
    and [current_level['_files'].append(file_name)].  On a list the test
    is a search among its elements, and either way the list is then
    indexed by a string. *)
Definition append_file (file_name : string) (current_level : structure)
    : structure_error + structure :=
  match current_level with
  | Folder d =>
      match dict_get "_files" d with
      | None => inr (Folder (dict_set "_files" (Names [file_name]) d))
      | Some (Names l) =>
          inr (Folder (dict_set "_files" (Names (l ++ [file_name])) d))
      | Some (Folder _) => inl AttributeError
      end
  | Names l =>
      if Str.mem "_files" l then inl TypeError else inl TypeError
  end.

(** The descent [for part in parts[:-1]], followed by the addition of the
    file; the dictionaries on the way are updated in place. *)
Fixpoint add_below (dirs : list string) (file_name : string)
    (current_level : structure) : structure_error + structure :=
  match dirs with
  | [] => append_file file_name current_level
  | part :: dirs' =>
      match current_level with
      | Folder d =>
          let child := match dict_get part d with
                       | Some c => c
                       | None => Folder []
                       end in
          match add_below dirs' file_name child with
          | inr child' => inr (Folder (dict_set part child' d))
          | inl e => inl e
          end
      | Names l =>
          if Str.mem part l then inl TypeError else inl TypeError
      end
  end.

(** The body of the loop over the uploaded files. *)
Definition note_file (folder_structure : structure) (file : UploadedFile)
    : structure_error + structure :=
  let file_name := name file in
  if Str.contains Str.backslash file_name || Str.contains Str.slash file_name then
    let normalized_path := Str.replace Str.backslash Str.slash file_name in
    let parts := Str.split Str.slash normalized_path in
    add_below (removelast parts) (List.last parts EmptyString) folder_structure
  else append_file file_name folder_structure.

Fixpoint note_files (uploaded_files : list UploadedFile)
    (folder_structure : structure) : structure_error + structure :=
  match uploaded_files with
  | [] => inr folder_structure
  | file :: rest =>
      match note_file folder_structure file with
      | inr s => note_files rest s
      | inl e => inl e
      end
  end.

(** [display_folder_structure(structure, prefix)]: the lines written, and
    the exception that ended the writing, if any.  Under the key [_files]
    the value is iterated: a list gives its elements, a dictionary its
    keys. *)
Fixpoint display_folder_structure (structure0 : structure) (prefix : string)
    : list line * option structure_error :=
  match structure0 with
  | Names _ => ([], Some AttributeError)
  | Folder items =>
      (fix each (items : list (string * structure))
         : list line * option structure_error :=
         match items with
         | [] => ([], None)
         | (key, value) :: rest =>
             let here :=
               if String.eqb key "_files" then
                 (map (FileLine prefix)
                      (match value with
                       | Names l => l
                       | Folder d => map fst d
                       end), None)
               else
                 let sub := display_folder_structure value (prefix +:+ "  ") in
                 (FolderLine prefix key :: sub.1, sub.2) in
             match here.2 with
             | Some e => (here.1, Some e)
             | None => let r := each rest in (here.1 ++ r.1, r.2)
             end
         end) items
  end.

Definition create_folder_structure_info (uploaded_files : list UploadedFile)
    : list line * option structure_error :=
  match uploaded_files with
  | [] => ([], None)
  | _ =>
      match note_files uploaded_files (Folder []) with
      | inl e => ([], Some e)
      | inr (Folder []) => ([], None)
      | inr folder_structure =>
          let shown := display_folder_structure folder_structure EmptyString in
          (Heading :: shown.1, shown.2)
      end
  end.

(** The folders that an uploaded name puts its file in, and the file. *)
Definition folders_of (up : UploadedFile) : list string :=
  removelast (segments (name up)).

Definition file_of (up : UploadedFile) : string :=
  List.last (segments (name up)) EmptyString.

(** A structure as uploads without a folder named [_files] build it: the
    key [_files] holds a list of names, every other key a structure of the
    same kind. *)
Fixpoint tidy (s : structure) : bool :=
  match s with
  | Names _ => false
  | Folder items =>
      (fix each (items : list (string * structure)) : bool :=
         match items with
         | [] => true
         | (key, value) :: rest =>
             (if String.eqb key "_files"
              then match value with Names _ => true | Folder _ => false end
              else tidy value)
             && each rest
         end) items
  end.

(** The number of files that a structure holds. *)
Fixpoint count_files (s : structure) : nat :=
  match s with
  | Names l => length l
  | Folder items =>
      (fix each (items : list (string * structure)) : nat :=
         match items with
         | [] => 0
         | (_, value) :: rest => count_files value + each rest
         end) items
  end.

(** ** A temporary directory and the rest of the file system *)

(** Outside [temp], the second tree is the first. *)
Definition same_outside (temp : path) (m m' : gmap path node) : Prop :=
  forall p, ~ temp `prefix_of` p -> Fs.stat m' p = Fs.stat m p.

(** Every directory above [d] is there. *)
Definition reachable (m : gmap path node) (d : path) : Prop :=
  forall q, q `prefix_of` d -> q <> d -> is_Some (Fs.stat m q).

(** Nothing is at [d] or below it. *)
Definition fresh (m : gmap path node) (d : path) : Prop :=
  forall p, d `prefix_of` p -> Fs.stat m p = None.

(** At and below [d], no name contains the separator. *)
Definition slash_free_below (m : gmap path node) (d : path) : Prop :=
  forall k, d `prefix_of` k -> is_Some (m !! k) -> slash_free k.

(** A computation that stays at and below [temp], and puts only names
    without separator there; one that stays at and below [temp]. *)
Definition confined (temp : path) {A} (c : M A) : Prop :=
  forall w r w',
    reachable (files w) temp -> slash_free_below (files w) temp ->
    c w = (r, w') ->
    same_outside temp (files w) (files w') /\ slash_free_below (files w') temp.

Definition harmless (temp : path) {A} (c : M A) : Prop :=
  forall w r w',
    reachable (files w) temp -> slash_free_below (files w) temp ->
    c w = (r, w') ->
    same_outside temp (files w) (files w').

Definition fresh_check (m : gmap path node) (d : path) : bool :=
  negb (bool_decide (d = []))
  && forallb (fun k => negb (Fs.inside d k)) (map_to_list m).*1.

Definition reachable_check (m : gmap path node) (d : path) : bool :=
  forallb (fun q => bool_decide (q = d)
                    || match Fs.stat m q with Some _ => true | None => false end)
          (inits d).

(** ** How an automation fails *)

(** What a failed automation has raised and what it has left: [cause] is
    the exception, [w'] the world after it. *)
Definition failure_of (doc pdf_path : path) (a : automation) (w w' : world)
    (cause : exn) : Prop :=
  match a with
  | NoApplication msg => cause = com_error msg /\ w' = w
  | Refused msg => cause = could_not_convert doc msg /\ w' = w
  | Rendered c =>
      exists e0, Fs.write_file pdf_path c w = (Raise e0, w')
                 /\ cause = could_not_convert doc (exn_str e0)
  | CloseFailed c msg =>
      (Fs.write_file pdf_path c w = (Ok tt, w')
       /\ cause = could_not_convert doc msg)
      \/ (exists e0, Fs.write_file pdf_path c w = (Raise e0, w')
                     /\ cause = could_not_convert doc (exn_str e0))
  | QuitFailed c msg =>
      cause = com_error msg /\ exists r, Fs.write_file pdf_path c w = (r, w')
  end.

(** An Office installation that renders every document it can open and
    then fails to close it. *)
Definition closing_office (app : office_app) (doc : path) (m : gmap path node)
    : automation :=
  match Fs.stat m doc with
  | Some (File c) => CloseFailed c "The RPC server is unavailable."
  | _ => Refused "cannot open"
  end.

(** ** The output location of an input *)

(** The path, below the output base, where the walk puts the output of
    the input at [rel]: in the mirrored directory, under the PDF name for
    a document and under the file's own name otherwise. *)
Definition output_rel (folder : path) (pres : bool) (rel : path) : path :=
  mirror pres rel
  ++ [if is_valid_office_file (folder ++ rel) then pdf_name (folder ++ rel)
      else Path.name (folder ++ rel)].

(** No other document or PDF of the tree has its output location at the
    output location of the input at [rel], or on the way to it. *)
Definition sole_claimant (m : gmap path node) (folder : path) (pres : bool)
    (rel : path) : Prop :=
  forall rel',
    rel' <> [] -> rel' <> rel ->
    Fs.isfile m (folder ++ rel') = true ->
    is_valid_office_file (folder ++ rel') || is_pdf (folder ++ rel') = true ->
    ~ output_rel folder pres rel' `prefix_of` output_rel folder pres rel.

Definition sole_claimant_check (m : gmap path node) (folder : path) (pres : bool)
    (rel : path) : bool :=
  forallb (fun k =>
             match Path.relative_to k folder with
             | Some rel' =>
                 bool_decide (rel' = []) || bool_decide (rel' = rel)
                 || negb (Fs.isfile m k)
                 || negb (is_valid_office_file k || is_pdf k)
                 || negb (bool_decide (output_rel folder pres rel'
                                       `prefix_of` output_rel folder pres rel))
             | None => true
             end)
          (map_to_list m).*1.

(** What the walk keeps of the copy of a PDF whose output directory is
    [d], whose output location is [t] and whose relative path renders as
    [s]: the tree outside the output base is as in [m0], no file is on the
    way to [d], nothing makes [t] a directory, the PDF is not among the
    skipped, and once the copy is recorded, [t] holds the bytes [c]. *)
Definition copy_kept (out : path) (m0 : gmap path node) (d t : path) (s : string)
    (c : data) (acc : list ConversionRecord * list string) (w0 : world) : Prop :=
  (forall p, left_alone out m0 p -> Fs.stat (files w0) p = Fs.stat m0 p)
  /\ (forall q, q `prefix_of` d -> Fs.isfile (files w0) q = false)
  /\ Fs.isdir (files w0) t = false
  /\ ~ In s acc.2
  /\ ((exists r, In r acc.1 /\ original r = s) ->
      Fs.stat (files w0) t = Some (File c)).

(** A document and a PDF of one name in one folder. *)
Definition collision_tree : gmap path node :=
  list_to_map
    [ (["in"], Dir);
      (["in"; "a.pdf"], File sample_bytes);
      (["in"; "a.doc"], File other_bytes) ].

Definition collision_world : world := World collision_tree [].

(** A PDF whose output base is a regular file, and one whose output
    location is a directory. *)
Definition blocked_world : world :=
  World (list_to_map [ (["in"], Dir);
                       (["in"; "a.pdf"], File sample_bytes);
                       (["out"], File other_bytes) ]) [].

Definition occupied_world : world :=
  World (list_to_map [ (["in"], Dir);
                       (["in"; "a.pdf"], File sample_bytes);
                       (["out"], Dir);
                       (["out"; "a.pdf"], Dir) ]) [].

(** The first statements of the block for individual files: the
    temporary directory, its two subdirectories, and the uploads written
    into the first under their names. *)
Definition stage_individual (temp_dir : path) (uploaded_files : list UploadedFile)
    : M unit :=
  Fs.os_mkdir temp_dir >>
  Fs.os_mkdir (Path.joinpath temp_dir "input") >>
  Fs.os_mkdir (Path.joinpath temp_dir "output") >>
  for_each (fun uploaded_file =>
              Fs.write_file
                (Path.joinpath (Path.joinpath temp_dir "input") (name uploaded_file))
                (getvalue uploaded_file))
           uploaded_files.

(** * Properties *)

(** ** Text and paths *)

Lemma eqb_refl_true (s : string) : String.eqb s s = true.
Proof. apply String.eqb_refl. Qed.

Lemma relative_to_app (folder rel : path) :
  Path.relative_to (folder ++ rel) folder = Some rel.
Proof.
  induction folder as [|x folder IH]; simpl; [reflexivity|].
  now rewrite String.eqb_refl.
Qed.

Lemma relative_to_Some (p folder rel : path) :
  Path.relative_to p folder = Some rel -> p = folder ++ rel.
Proof.
  revert p; induction folder as [|x folder IH]; intros p; simpl.
  - now intros [= ->].
  - destruct p as [|y p]; [discriminate|].
    destruct (String.eqb x y) eqn:E; [|discriminate].
    apply String.eqb_eq in E as ->. intros H. f_equal. now apply IH.
Qed.

Lemma name_snoc (p : path) (n : string) : Path.name (p ++ [n]) = n.
Proof. unfold Path.name. now rewrite last_snoc. Qed.

Lemma parent_snoc (p : path) (n : string) : Path.parent (p ++ [n]) = p.
Proof. unfold Path.parent. apply removelast_last. Qed.

Lemma append_cons (a : ascii) (s t : string) :
  String a s +:+ t = String a (s +:+ t).
Proof. reflexivity. Qed.

Lemma append_nil_l (t : string) : EmptyString +:+ t = t.
Proof. reflexivity. Qed.

Lemma startswith_contains (c : ascii) (s : string) :
  Str.contains c s = false -> Str.startswith c s = false.
Proof.
  destruct s as [|a s]; simpl; [reflexivity|].
  now intros [H _]%orb_false_iff.
Qed.

Lemma contains_append (c : ascii) (s t : string) :
  Str.contains c (s +:+ t) = Str.contains c s || Str.contains c t.
Proof.
  induction s as [|a s IH]; [reflexivity|].
  rewrite append_cons. simpl. rewrite IH. apply orb_assoc.
Qed.

Lemma contains_stake (c : ascii) (i : nat) (s : string) :
  Str.contains c s = false -> Str.contains c (Str.stake i s) = false.
Proof.
  revert i; induction s as [|a s IH]; intros [|i]; simpl; try reflexivity.
  intros [H1 H2]%orb_false_iff. rewrite H1. simpl. now apply IH.
Qed.

(** Splitting and joining *)

Lemma split_free (c : ascii) (s : string) :
  Str.contains c s = false -> Str.split c s = [s].
Proof.
  induction s as [|a s IH]; simpl; [reflexivity|].
  intros [H1 H2]%orb_false_iff. rewrite H1. now rewrite IH.
Qed.

Lemma split_append (c : ascii) (s t : string) :
  Str.contains c s = false ->
  Str.split c (s +:+ String c t) = s :: Str.split c t.
Proof.
  induction s as [|a s IH]; intros H.
  - rewrite append_nil_l. simpl. now rewrite Ascii.eqb_refl.
  - simpl in H. apply orb_false_iff in H as [H1 H2]. rewrite append_cons. simpl.
    rewrite H1. now rewrite IH.
Qed.

Lemma split_join (c : ascii) (l : list string) :
  l <> [] -> Forall (fun s => Str.contains c s = false) l ->
  Str.split c (Str.join c l) = l.
Proof.
  induction l as [|x l IH]; [congruence|]. intros _ H.
  apply Forall_cons in H as [Hx Hl]. destruct l as [|y l].
  - simpl. now apply split_free.
  - change (Str.join c (x :: y :: l)) with (x +:+ String c (Str.join c (y :: l))).
    rewrite split_append by assumption. f_equal. now apply IH.
Qed.

Lemma rel_str_inj (p q : path) :
  p <> [] -> q <> [] -> slash_free p -> slash_free q ->
  Path.rel_str p = Path.rel_str q -> p = q.
Proof.
  intros Hp Hq Fp Fq H.
  destruct p as [|x p]; [congruence|]. destruct q as [|y q]; [congruence|].
  unfold Path.rel_str in H.
  rewrite <- (split_join Str.slash (x :: p)), <- (split_join Str.slash (y :: q));
    try assumption.
  now rewrite H.
Qed.

(** A single file name is a single component. *)
Lemma parts_single (n : string) :
  Str.contains Str.slash n = false -> n <> EmptyString -> n <> "." ->
  Path.parts n = [n].
Proof.
  intros H N1 N2. unfold Path.parts. rewrite split_free by assumption. simpl.
  unfold Path.keep_part.
  apply String.eqb_neq in N1, N2. now rewrite N1, N2.
Qed.

Lemma joinpath_single (base : path) (n : string) :
  Str.contains Str.slash n = false -> n <> EmptyString -> n <> "." ->
  Path.joinpath base n = base ++ [n].
Proof.
  intros H N1 N2. unfold Path.joinpath.
  rewrite startswith_contains by assumption. now rewrite parts_single.
Qed.

(** The last dot *)

Lemma rfind_append_last (c : ascii) (s t : string) :
  Str.rfind c t = None -> Str.rfind c (s +:+ String c t) = Some (String.length s).
Proof.
  intros H. induction s as [|a s IH].
  - rewrite append_nil_l. simpl. rewrite H. now rewrite Ascii.eqb_refl.
  - rewrite append_cons. simpl. now rewrite IH.
Qed.

Lemma length_append (s t : string) :
  String.length (s +:+ t) = String.length s + String.length t.
Proof. induction s as [|a s IH]; [reflexivity|]. rewrite append_cons. simpl. lia. Qed.

Lemma stake_append (s t : string) : Str.stake (String.length s) (s +:+ t) = s.
Proof.
  induction s as [|a s IH]; [now destruct t|]. rewrite append_cons. simpl. now rewrite IH.
Qed.

Lemma sdrop_append (s t : string) : Str.sdrop (String.length s) (s +:+ t) = t.
Proof. induction s as [|a s IH]; [now destruct t|]. rewrite append_cons. simpl. apply IH. Qed.

Lemma length_stake (i : nat) (s : string) :
  i <= String.length s -> String.length (Str.stake i s) = i.
Proof.
  revert i; induction s as [|a s IH]; intros [|i]; simpl; try lia.
  intros H. rewrite IH; lia.
Qed.

Lemma rfind_lt (c : ascii) (s : string) (i : nat) :
  Str.rfind c s = Some i -> i < String.length s.
Proof.
  revert i; induction s as [|a s IH]; intros i; simpl; [discriminate|].
  destruct (Str.rfind c s) as [j|].
  - intros [= <-]. specialize (IH j eq_refl). lia.
  - destruct (Ascii.eqb a c); [|discriminate]. intros [= <-]. lia.
Qed.

(** A name with an extension has a stem, and the stem followed by [.pdf]
    is a name with extension [.pdf] and that same stem. *)
Lemma stem_nonempty (n : string) :
  Path.suffix_of n <> EmptyString -> Path.stem_of n <> EmptyString.
Proof.
  unfold Path.suffix_of, Path.stem_of.
  destruct (Str.rfind Str.dot n) as [i|] eqn:E; [|congruence].
  destruct (Path.has_suffix_at n i) eqn:H; [|congruence]. intros _.
  unfold Path.has_suffix_at in H. apply andb_true_iff in H as [H1 H2].
  apply Nat.ltb_lt in H1, H2. apply rfind_lt in E.
  intros Hs. apply (f_equal String.length) in Hs.
  rewrite length_stake in Hs by lia. simpl in Hs. lia.
Qed.

Lemma nonempty_length (s : string) : s <> EmptyString -> 0 < String.length s.
Proof. destruct s; [congruence|simpl; lia]. Qed.

Lemma has_suffix_at_append (st ext : string) :
  st <> EmptyString -> ext <> EmptyString ->
  Path.has_suffix_at (st +:+ String Str.dot ext) (String.length st) = true.
Proof.
  intros H1 H2. apply nonempty_length in H1, H2.
  unfold Path.has_suffix_at. rewrite length_append. simpl String.length.
  apply andb_true_iff. split; apply Nat.ltb_lt; lia.
Qed.

Lemma suffix_of_append (st ext : string) :
  st <> EmptyString -> ext <> EmptyString -> Str.rfind Str.dot ext = None ->
  Path.suffix_of (st +:+ String Str.dot ext) = String Str.dot ext.
Proof.
  intros H1 H2 H3. unfold Path.suffix_of.
  rewrite rfind_append_last by assumption.
  rewrite has_suffix_at_append by assumption. apply sdrop_append.
Qed.

Lemma stem_of_append (st ext : string) :
  st <> EmptyString -> ext <> EmptyString -> Str.rfind Str.dot ext = None ->
  Path.stem_of (st +:+ String Str.dot ext) = st.
Proof.
  intros H1 H2 H3. unfold Path.stem_of.
  rewrite rfind_append_last by assumption.
  rewrite has_suffix_at_append by assumption. apply stake_append.
Qed.

Lemma suffix_of_pdf (st : string) :
  st <> EmptyString -> Path.suffix_of (st +:+ ".pdf") = ".pdf".
Proof. intros H. now apply (suffix_of_append st "pdf"). Qed.

Lemma stem_of_pdf (st : string) :
  st <> EmptyString -> Path.stem_of (st +:+ ".pdf") = st.
Proof. intros H. now apply (stem_of_append st "pdf"). Qed.

Lemma stem_slash_free (n : string) :
  Str.contains Str.slash n = false -> Str.contains Str.slash (Path.stem_of n) = false.
Proof.
  intros H. unfold Path.stem_of.
  destruct (Str.rfind Str.dot n) as [i|]; [|assumption].
  destruct (Path.has_suffix_at n i); [|assumption]. now apply contains_stake.
Qed.

Lemma pdf_name_single (base : path) (st : string) :
  Str.contains Str.slash st = false ->
  Path.joinpath base (st +:+ ".pdf") = base ++ [st +:+ ".pdf"].
Proof.
  intros H. apply joinpath_single.
  - rewrite contains_append, H. reflexivity.
  - intros E. apply (f_equal String.length) in E. rewrite length_append in E.
    simpl in E. lia.
  - intros E. apply (f_equal String.length) in E. rewrite length_append in E.
    simpl in E. lia.
Qed.

Lemma mem_lower_nonempty (n : string) (l : list string) :
  Str.mem (Str.lower n) l = true -> ~ In EmptyString l -> n <> EmptyString.
Proof.
  intros H Hl ->. unfold Str.mem in H. apply existsb_exists in H as (x & Hx & E).
  apply String.eqb_eq in E. simpl in E. subst x. contradiction.
Qed.

(** ** Running a computation *)

Lemma world_eta (w : world) : World (files w) (ui w) = w.
Proof. now destruct w. Qed.

Lemma relative_to_run (folder rel : path) (w : world) :
  relative_to (folder ++ rel) folder w = (Ok rel, w).
Proof. unfold relative_to. now rewrite relative_to_app. Qed.

Lemma for_fold_app {A S} (body : A -> S -> M S) (l1 l2 : list A) (acc : S) (w : world) :
  for_fold body (l1 ++ l2) acc w =
  match for_fold body l1 acc w with
  | (Ok acc', w') => for_fold body l2 acc' w'
  | (Raise e, w') => (Raise e, w')
  end.
Proof.
  revert acc w; induction l1 as [|x l1 IH]; intros acc w; simpl; [reflexivity|].
  unfold bind. destruct (body x acc w) as [[acc'|e] w']; [apply IH|reflexivity].
Qed.

Lemma bind_ok {A B} (m : M A) (k : A -> M B) (w w1 : world) (a : A) :
  m w = (Ok a, w1) -> bind m k w = k a w1.
Proof. unfold bind. now intros ->. Qed.

Lemma bind_raise {A B} (m : M A) (k : A -> M B) (w w1 : world) (e : exn) :
  m w = (Raise e, w1) -> bind m k w = (Raise e, w1).
Proof. unfold bind. now intros ->. Qed.

Lemma try_ok {A} (m : M A) (h : exn -> M A) (w w1 : world) (a : A) :
  m w = (Ok a, w1) -> try_except m h w = (Ok a, w1).
Proof. unfold try_except. now intros ->. Qed.

Lemma try_raise {A} (m : M A) (h : exn -> M A) (w w1 : world) (e : exn) :
  m w = (Raise e, w1) -> try_except m h w = h e w1.
Proof. unfold try_except. now intros ->. Qed.

Lemma is_file_run (p : path) (w : world) :
  Fs.is_file p w = (Ok (Fs.isfile (files w) p), w).
Proof. reflexivity. Qed.

Lemma is_dir_run (p : path) (w : world) :
  Fs.is_dir p w = (Ok (Fs.isdir (files w) p), w).
Proof. reflexivity. Qed.

Lemma emit_run (n : notice) (w : world) :
  emit n w = (Ok tt, World (files w) (ui w ++ [n])).
Proof. reflexivity. Qed.

Lemma keeps_refl (m : gmap path node) : keeps m m.
Proof. intros p. split; auto. Qed.

Lemma keeps_trans (m1 m2 m3 : gmap path node) :
  keeps m1 m2 -> keeps m2 m3 -> keeps m1 m3.
Proof. intros H1 H2 p. split; intros H; [apply H2, H1, H|apply H2, H1, H]. Qed.

(** ** File-system lemmas *)

Lemma stat_insert_ne (m : gmap path node) (p q : path) (n : node) :
  p <> q -> Fs.stat (<[p := n]> m) q = Fs.stat m q.
Proof.
  intros H. destruct q as [|x q]; [reflexivity|]. simpl.
  now apply lookup_insert_ne.
Qed.

Lemma stat_insert_eq (m : gmap path node) (p : path) (n : node) :
  p <> [] -> Fs.stat (<[p := n]> m) p = Some n.
Proof.
  intros H. destruct p as [|x p]; [congruence|]. simpl.
  apply lookup_insert_eq.
Qed.

Lemma isdir_stat (m : gmap path node) (p : path) :
  Fs.isdir m p = true <-> Fs.stat m p = Some Dir.
Proof.
  unfold Fs.isdir. destruct (Fs.stat m p) as [[c|]|]; split; congruence.
Qed.

Lemma isfile_stat (m : gmap path node) (p : path) :
  Fs.isfile m p = true <-> exists c, Fs.stat m p = Some (File c).
Proof.
  unfold Fs.isfile. destruct (Fs.stat m p) as [[c|]|]; split;
    try congruence; try (intros [c' H]; congruence). eauto.
Qed.

Lemma snoc_not_nil {A} (l : list A) (x : A) : l ++ [x] <> [].
Proof. destruct l; discriminate. Qed.

(** What a write leaves behind. *)
Lemma write_file_ok (p : path) (c : data) (w w' : world) :
  Fs.write_file p c w = (Ok tt, w') ->
  files w' = <[p := File c]> (files w) /\ ui w' = ui w /\ p <> []
  /\ Fs.isdir (files w) (Path.parent p) = true
  /\ Fs.isdir (files w) p = false.
Proof.
  unfold Fs.write_file, bind, get_files, put_files, raise. simpl.
  destruct p as [|x p]; [simpl; congruence|].
  unfold Fs.isdir.
  destruct (Fs.stat (files w) (x :: p)) as [[c0|]|];
    destruct (Fs.stat (files w) (Path.parent (x :: p))) as [[c1|]|];
    intros [= <-]; simpl; repeat split; congruence.
Qed.

Lemma write_file_raise (p : path) (c : data) (w w' : world) (e : exn) :
  Fs.write_file p c w = (Raise e, w') -> w' = w.
Proof.
  unfold Fs.write_file, bind, get_files, put_files, raise. simpl.
  destruct (Fs.stat (files w) p) as [[c0|]|];
    destruct (Fs.stat (files w) (Path.parent p)) as [[c1|]|];
    now intros [= <-].
Qed.

Lemma write_file_total (p : path) (c : data) (w : world) :
  Fs.isdir (files w) (Path.parent p) = true ->
  Fs.isdir (files w) p = false ->
  Fs.write_file p c w = (Ok tt, World (<[p := File c]> (files w)) (ui w)).
Proof.
  unfold Fs.write_file, bind, get_files, put_files, raise, Fs.isdir. simpl.
  destruct (Fs.stat (files w) p) as [[c0|]|];
    destruct (Fs.stat (files w) (Path.parent p)) as [[c1|]|];
    congruence.
Qed.

(** Directory creation never touches a file and never removes anything. *)
Lemma mkdir_chain_ui (rest base : path) (w w' : world) (r : result unit) :
  Fs.mkdir_chain base rest w = (r, w') -> ui w' = ui w.
Proof.
  revert base w; induction rest as [|d rest IH]; intros base w; simpl.
  - unfold ret. now intros [= _ <-].
  - unfold bind, get_files, put_files, raise. simpl.
    destruct (Fs.stat (files w) (base ++ [d])) as [[c|]|].
    + destruct rest; now intros [= _ <-].
    + apply IH.
    + intros H. now apply IH in H.
Qed.

Lemma mkdir_chain_files (rest base : path) (w w' : world) (r : result unit) :
  Fs.mkdir_chain base rest w = (r, w') ->
  forall p c, Fs.stat (files w') p = Some (File c) <-> Fs.stat (files w) p = Some (File c).
Proof.
  revert base w; induction rest as [|d rest IH]; intros base w; simpl.
  - unfold ret. now intros [= _ <-].
  - unfold bind, get_files, put_files, raise. simpl.
    destruct (Fs.stat (files w) (base ++ [d])) as [[c|]|] eqn:E.
    + destruct rest; now intros [= _ <-].
    + apply IH.
    + intros H p c. apply IH with (p := p) (c := c) in H. simpl in H. rewrite H.
      destruct (decide (base ++ [d] = p)) as [<-|N].
      * rewrite stat_insert_eq by apply snoc_not_nil. rewrite E. split; congruence.
      * now rewrite stat_insert_ne.
Qed.

Lemma mkdir_chain_dirs (rest base : path) (w w' : world) (r : result unit) :
  Fs.mkdir_chain base rest w = (r, w') ->
  forall p, Fs.isdir (files w) p = true -> Fs.isdir (files w') p = true.
Proof.
  revert base w; induction rest as [|d rest IH]; intros base w; simpl.
  - unfold ret. now intros [= _ <-].
  - unfold bind, get_files, put_files, raise. simpl.
    destruct (Fs.stat (files w) (base ++ [d])) as [[c|]|] eqn:E.
    + destruct rest; now intros [= _ <-].
    + apply IH.
    + intros H p Hp. apply (IH _ _ H). simpl.
      apply isdir_stat. apply isdir_stat in Hp.
      destruct (decide (base ++ [d] = p)) as [<-|N].
      * now apply stat_insert_eq, snoc_not_nil.
      * now rewrite stat_insert_ne.
Qed.

(** Every directory found afterwards was there before or lies on the chain. *)
Lemma mkdir_chain_new_dirs (rest base : path) (w w' : world) (r : result unit) :
  Fs.mkdir_chain base rest w = (r, w') ->
  forall p, Fs.isdir (files w') p = true ->
    Fs.isdir (files w) p = true
    \/ exists q, q <> [] /\ q `prefix_of` rest /\ p = base ++ q.
Proof.
  revert base w; induction rest as [|d rest IH]; intros base w; simpl.
  - unfold ret. intros [= _ <-] p Hp. now left.
  - unfold bind, get_files, put_files, raise. simpl.
    assert (Hshift : forall p,
      (exists q, q <> [] /\ q `prefix_of` rest /\ p = (base ++ [d]) ++ q) ->
      exists q, q <> [] /\ q `prefix_of` (d :: rest) /\ p = base ++ q).
    { intros p (q & Hq & Hpre & ->). exists (d :: q). split; [discriminate|].
      split; [now apply prefix_cons|]. now rewrite <- app_assoc. }
    destruct (Fs.stat (files w) (base ++ [d])) as [[c|]|] eqn:E.
    + destruct rest; intros [= _ <-] p Hp; now left.
    + intros H p Hp. destruct (IH _ _ H p Hp) as [?|?]; [now left|right; auto].
    + intros H p Hp. destruct (IH _ _ H p Hp) as [Hd|?]; [|right; auto].
      simpl in Hd. apply isdir_stat in Hd.
      destruct (decide (base ++ [d] = p)) as [<-|N].
      * right. exists [d]. split; [discriminate|]. split; [|reflexivity].
        apply prefix_cons, prefix_nil.
      * rewrite stat_insert_ne in Hd by assumption. left. now apply isdir_stat.
Qed.

(** On success the whole chain is there. *)
Lemma mkdir_chain_ok (rest base : path) (w w' : world) :
  Fs.mkdir_chain base rest w = (Ok tt, w') ->
  forall q, q <> [] -> q `prefix_of` rest -> Fs.isdir (files w') (base ++ q) = true.
Proof.
  revert base w; induction rest as [|d rest IH]; intros base w; simpl.
  - intros _ q Hq Hpre. apply prefix_nil_inv in Hpre. congruence.
  - unfold bind, get_files, put_files, raise. simpl.
    assert (Hcase : forall w1, Fs.mkdir_chain (base ++ [d]) rest w1 = (Ok tt, w') ->
      Fs.isdir (files w1) (base ++ [d]) = true ->
      forall q, q <> [] -> q `prefix_of` (d :: rest) ->
        Fs.isdir (files w') (base ++ q) = true).
    { intros w1 H Hd q Hq Hpre. destruct q as [|x q]; [congruence|].
      apply prefix_cons_inv_1 in Hpre as Hx. apply prefix_cons_inv_2 in Hpre.
      subst x. destruct q as [|y q].
      - eapply mkdir_chain_dirs; eauto.
      - replace (base ++ d :: y :: q) with ((base ++ [d]) ++ y :: q)
          by now rewrite <- app_assoc.
        eapply IH; eauto; discriminate. }
    destruct (Fs.stat (files w) (base ++ [d])) as [[c|]|] eqn:E.
    + destruct rest; discriminate.
    + intros H. apply (Hcase _ H). now apply isdir_stat.
    + intros H. apply (Hcase _ H). simpl. apply isdir_stat.
      now apply stat_insert_eq, snoc_not_nil.
Qed.

(** It succeeds unless a file is in the way. *)
Lemma mkdir_chain_total (rest base : path) (w : world) :
  (forall q, q <> [] -> q `prefix_of` rest -> Fs.isfile (files w) (base ++ q) = false) ->
  exists w', Fs.mkdir_chain base rest w = (Ok tt, w').
Proof.
  revert base w; induction rest as [|d rest IH]; intros base w Hfree; simpl.
  - eexists. reflexivity.
  - unfold bind, get_files, put_files, raise. simpl.
    assert (Hd : Fs.isfile (files w) (base ++ [d]) = false).
    { apply Hfree; [discriminate|]. apply prefix_cons, prefix_nil. }
    assert (Hnext : forall w1,
      (forall p, Fs.isfile (files w1) p = true -> Fs.isfile (files w) p = true) ->
      forall q, q <> [] -> q `prefix_of` rest ->
        Fs.isfile (files w1) ((base ++ [d]) ++ q) = false).
    { intros w1 Hsub q Hq Hpre.
      destruct (Fs.isfile (files w1) ((base ++ [d]) ++ q)) eqn:F; [|reflexivity].
      apply Hsub in F. rewrite <- app_assoc in F. simpl in F.
      assert (Fs.isfile (files w) (base ++ d :: q) = false) as G
        by (apply Hfree; [discriminate|now apply prefix_cons]).
      congruence. }
    unfold Fs.isfile in Hd.
    destruct (Fs.stat (files w) (base ++ [d])) as [[c|]|] eqn:E; [discriminate| |].
    + apply IH. apply Hnext. auto.
    + apply IH. apply Hnext. simpl. intros p Hp.
      apply isfile_stat in Hp as [c Hc]. apply isfile_stat. exists c.
      destruct (decide (base ++ [d] = p)) as [<-|N].
      * rewrite stat_insert_eq in Hc by apply snoc_not_nil. discriminate.
      * now rewrite stat_insert_ne in Hc.
Qed.

Lemma insert_file_keeps (m : gmap path node) (p : path) (c : data) :
  Fs.isdir m p = false -> keeps m (<[p := File c]> m).
Proof.
  intros Hd q. destruct (decide (p = q)) as [<-|N].
  - split; [|congruence]. intros Hf. apply isfile_stat in Hf as [c0 Hc0].
    apply isfile_stat. exists c. apply stat_insert_eq.
    intros ->. simpl in Hc0. congruence.
  - unfold Fs.isfile, Fs.isdir. now rewrite stat_insert_ne.
Qed.

Lemma write_file_keeps (p : path) (c : data) (w w' : world) (r : result unit) :
  Fs.write_file p c w = (r, w') -> keeps (files w) (files w') /\ ui w' = ui w.
Proof.
  destruct r as [[]|e]; intros H.
  - apply write_file_ok in H as (-> & Hu & _ & _ & Hd). split; [|assumption].
    now apply insert_file_keeps.
  - apply write_file_raise in H as ->. split; [apply keeps_refl|reflexivity].
Qed.

Lemma mkdir_chain_keeps (rest base : path) (w w' : world) (r : result unit) :
  Fs.mkdir_chain base rest w = (r, w') -> keeps (files w) (files w').
Proof.
  intros H q. split.
  - intros [c Hc]%isfile_stat. apply isfile_stat. exists c.
    now apply (mkdir_chain_files _ _ _ _ _ H).
  - now apply (mkdir_chain_dirs _ _ _ _ _ H).
Qed.

Lemma copy2_eq (src dst : path) (w : world) :
  Fs.copy2 src dst w =
  if bool_decide (src = copy_target (files w) src dst)
     && bool_decide (is_Some (Fs.stat (files w) src))
  then (Raise (SameFileError src), w)
  else match Fs.stat (files w) src with
       | Some (File c) => Fs.write_file (copy_target (files w) src dst) c w
       | Some Dir => (Raise (IsADirectoryError src), w)
       | None => (Raise (FileNotFoundError src), w)
       end.
Proof.
  unfold Fs.copy2, copy_target, Fs.is_dir, Fs.read_file, bind, get_files, ret, raise.
  destruct (_ && _); [reflexivity|].
  now destruct (Fs.stat (files w) src) as [[c|]|].
Qed.

Lemma copy2_ok (src dst : path) (w w' : world) :
  Fs.copy2 src dst w = (Ok tt, w') ->
  exists c, Fs.stat (files w) src = Some (File c)
    /\ files w' = <[copy_target (files w) src dst := File c]> (files w)
    /\ ui w' = ui w
    /\ src <> copy_target (files w) src dst
    /\ Fs.isdir (files w) (copy_target (files w) src dst) = false.
Proof.
  rewrite copy2_eq.
  destruct (bool_decide (src = _)) eqn:E1; simpl.
  - destruct (Fs.stat (files w) src) as [[c|]|] eqn:Es; simpl; try discriminate.
  - apply bool_decide_eq_false in E1.
    destruct (Fs.stat (files w) src) as [[c|]|] eqn:Es; simpl; try discriminate.
    intros H; apply write_file_ok in H as (Hf & Hu & _ & _ & Hd).
    exists c. auto.
Qed.

Lemma copy2_raise (src dst : path) (w w' : world) (e : exn) :
  Fs.copy2 src dst w = (Raise e, w') -> w' = w.
Proof.
  rewrite copy2_eq.
  destruct (_ && _); [now intros [= _ <-]|].
  destruct (Fs.stat (files w) src) as [[c|]|]; try now intros [= _ <-].
  apply write_file_raise.
Qed.

Lemma copy2_keeps (src dst : path) (w w' : world) (r : result unit) :
  Fs.copy2 src dst w = (r, w') -> keeps (files w) (files w') /\ ui w' = ui w.
Proof.
  destruct r as [[]|e]; intros H.
  - apply copy2_ok in H as (c & _ & -> & Hu & _ & Hd). split; [|assumption].
    now apply insert_file_keeps.
  - apply copy2_raise in H as ->. split; [apply keeps_refl|reflexivity].
Qed.

(** ** The walk *)

Lemma below_spec (folder k : path) :
  Fs.below folder k = true <-> exists rel, rel <> [] /\ k = folder ++ rel.
Proof.
  unfold Fs.below. split.
  - destruct (Path.relative_to k folder) as [[|x rel]|] eqn:E; try discriminate.
    intros _. exists (x :: rel). split; [discriminate|]. now apply relative_to_Some.
  - intros (rel & Hne & ->). rewrite relative_to_app.
    destruct rel; [congruence|reflexivity].
Qed.

Lemma in_keys (m : gmap path node) (k : path) :
  In k (map_to_list m).*1 <-> is_Some (m !! k).
Proof.
  rewrite <- list_elem_of_In, list_elem_of_fmap. split.
  - intros ([k' n] & -> & H). apply elem_of_map_to_list in H. simpl. eauto.
  - intros [n H]. exists (k, n). split; [reflexivity|]. now apply elem_of_map_to_list.
Qed.

Lemma in_rglob (m : gmap path node) (folder k : path) :
  In k (Fs.rglob m folder) <->
  Fs.isdir m folder = true /\ is_Some (m !! k)
  /\ exists rel, rel <> [] /\ k = folder ++ rel.
Proof.
  unfold Fs.rglob. destruct (Fs.isdir m folder).
  - rewrite filter_In, in_keys, below_spec. tauto.
  - simpl. split; [tauto|]. intros [? _]. discriminate.
Qed.

Lemma NoDup_rglob (m : gmap path node) (folder : path) : NoDup (Fs.rglob m folder).
Proof.
  unfold Fs.rglob. destruct (Fs.isdir m folder); [|constructor].
  apply NoDup_ListNoDup, List.NoDup_filter, NoDup_ListNoDup, NoDup_fst_map_to_list.
Qed.

Lemma strip_prefix_map (folder : path) (l : list path) :
  (forall k, In k l -> exists rel, k = folder ++ rel) ->
  map (app folder) (map (drop (length folder)) l) = l.
Proof.
  induction l as [|k l IH]; intros H; simpl; [reflexivity|].
  f_equal.
  - destruct (H k) as [rel ->]; [now left|]. now rewrite drop_app_length.
  - apply IH. intros k' Hk'. apply H. now right.
Qed.

(** The walk lists every entry below the folder once. *)
Lemma rglob_rels (m : gmap path node) (folder : path) :
  exists rels,
    Fs.rglob m folder = map (app folder) rels
    /\ NoDup rels
    /\ Forall (fun rel => rel <> []) rels
    /\ (forall rel, In rel rels <->
          Fs.isdir m folder = true /\ rel <> [] /\ is_Some (m !! (folder ++ rel))).
Proof.
  set (l := Fs.rglob m folder).
  assert (Hl : forall k, In k l -> exists rel, k = folder ++ rel).
  { intros k Hk. apply in_rglob in Hk as (_ & _ & rel & _ & ->). eauto. }
  exists (map (drop (length folder)) l).
  pose proof (strip_prefix_map folder l Hl) as Hmap.
  split; [now symmetry|]. split.
  { apply NoDup_ListNoDup, (NoDup_map_inv (app folder)). rewrite Hmap.
    apply NoDup_ListNoDup, NoDup_rglob. }
  assert (Hin : forall rel, In rel (map (drop (length folder)) l) <->
          Fs.isdir m folder = true /\ rel <> [] /\ is_Some (m !! (folder ++ rel))).
  { intros rel. rewrite in_map_iff. split.
    - intros (k & <- & Hk). apply in_rglob in Hk as (Hd & Hs & rel' & Hne & ->).
      rewrite drop_app_length. auto.
    - intros (Hd & Hne & Hs). exists (folder ++ rel). rewrite drop_app_length.
      split; [reflexivity|]. apply in_rglob. eauto. }
  split; [|assumption].
  apply Forall_forall. intros rel Hr. apply Hin. now apply list_elem_of_In.
Qed.

Section Properties.

Variable office : office_app -> path -> gmap path node -> automation.

(** ** The reserved name *)

Lemma visit_reserved folder out pres f acc w :
  reserved f = true -> visit office folder out pres f acc w = (Ok acc, w).
Proof.
  intros H. unfold visit, reserved in *.
  unfold bind, Fs.is_file, get_files, ret; simpl.
  rewrite H. now rewrite andb_false_r.
Qed.

Lemma visit_not_file folder out pres f acc w :
  Fs.isfile (files w) f = false -> visit office folder out pres f acc w = (Ok acc, w).
Proof.
  intros H. unfold visit.
  unfold bind, Fs.is_file, get_files, ret; simpl.
  now rewrite H.
Qed.

Lemma for_fold_visit_filter folder out pres l acc w :
  for_fold (visit office folder out pres) l acc w =
  for_fold (visit office folder out pres)
           (List.filter (fun f => negb (reserved f)) l) acc w.
Proof.
  revert acc w; induction l as [|f l IH]; intros acc w; simpl; [reflexivity|].
  destruct (reserved f) eqn:R; simpl.
  - unfold bind at 1. rewrite visit_reserved by assumption. apply IH.
  - unfold bind.
    destruct (visit office folder out pres f acc w) as [[acc'|e] w'];
      [apply IH|reflexivity].
Qed.

(** ** Batch-fatal errors *)

Lemma not_a_folder folder out pres w :
  Fs.isdir (files w) folder = false ->
  process_folder_recursive office folder out pres w =
    (Raise (ValueError "The provided path is not a folder."), w).
Proof.
  intros H. unfold process_folder_recursive.
  unfold bind, Fs.is_dir, get_files, ret; simpl. now rewrite H.
Qed.

Lemma not_a_zip tmp up pres w :
  is_zipfile (getvalue up) = false ->
  handle_uploaded_zip office tmp up pres w =
    (Ok ([], []), World (files w) (ui w ++ [NotAZip])).
Proof.
  intros H. unfold handle_uploaded_zip.
  now rewrite H.
Qed.

(** ** One conversion *)

Lemma automate_eq app doc pdf_path w :
  automate office app doc pdf_path w =
  match office app doc (files w) with
  | NoApplication e => (Raise (com_error e), w)
  | Refused e => (Raise (could_not_convert doc e), w)
  | Rendered c =>
      match Fs.write_file pdf_path c w with
      | (Ok a, w') => (Ok a, w')
      | (Raise e, w') => (Raise (could_not_convert doc (exn_str e)), w')
      end
  | CloseFailed c e =>
      match Fs.write_file pdf_path c w with
      | (Ok _, w') => (Raise (could_not_convert doc e), w')
      | (Raise e0, w') => (Raise (could_not_convert doc (exn_str e0)), w')
      end
  | QuitFailed c e =>
      match Fs.write_file pdf_path c w with
      | (_, w') => (Raise (com_error e), w')
      end
  end.
Proof.
  unfold automate, bind, get_files, try_except, try_finally, raise.
  destruct (office app doc (files w)) as [e|e|c|c e|c e]; try reflexivity.
  - now destruct (Fs.write_file pdf_path c w) as [[[]|e0] w1].
  - now destruct (Fs.write_file pdf_path c w) as [[[]|e0] w1].
Qed.

(** An automation changes nothing, or it is the PDF that has been
    written. *)
Lemma automate_cases app doc pdf_path w r w' :
  automate office app doc pdf_path w = (r, w') ->
  (exists e, r = Raise e /\ w' = w)
  \/ (exists c, Fs.write_file pdf_path c w = (Ok tt, w')).
Proof.
  rewrite automate_eq.
  destruct (office app doc (files w)) as [e|e|c|c e|c e].
  - intros [= <- <-]. left. eauto.
  - intros [= <- <-]. left. eauto.
  - destruct (Fs.write_file pdf_path c w) as [[[]|e0] w1] eqn:Hw;
      intros [= <- <-]; [right; eauto|].
    apply write_file_raise in Hw as ->. left. eauto.
  - destruct (Fs.write_file pdf_path c w) as [[[]|e0] w1] eqn:Hw;
      intros [= <- <-]; [right; eauto|].
    apply write_file_raise in Hw as ->. left. eauto.
  - destruct (Fs.write_file pdf_path c w) as [[[]|e0] w1] eqn:Hw;
      intros [= <- <-]; [right; eauto|].
    apply write_file_raise in Hw as ->. left. eauto.
Qed.

Lemma automate_spec app doc pdf_path w r w' :
  automate office app doc pdf_path w = (r, w') ->
  keeps (files w) (files w') /\ ui w' = ui w
  /\ (r = Ok tt -> Fs.isfile (files w') pdf_path = true).
Proof.
  intros [(e & -> & ->)|(c & Hw)]%automate_cases.
  - split; [apply keeps_refl|]. split; [reflexivity|discriminate].
  - destruct (write_file_keeps _ _ _ _ _ Hw) as [Hk Hu].
    split; [assumption|]. split; [assumption|]. intros _.
    apply write_file_ok in Hw as (-> & _ & Hne & _). apply isfile_stat.
    exists c. now apply stat_insert_eq.
Qed.

Lemma convert_file_to_pdf_spec f outdir w r w' :
  convert_file_to_pdf office f outdir w = (r, w') ->
  keeps (files w) (files w') /\ ui w' = ui w
  /\ (forall p, r = Ok p ->
        p = Path.joinpath outdir (Path.stem f +:+ ".pdf")
        /\ Fs.isfile (files w') p = true).
Proof.
  unfold convert_file_to_pdf. unfold bind at 1.
  destruct (Fs.mkdir_parents outdir w) as [[[]|e] w1] eqn:Hm.
  - pose proof (mkdir_chain_keeps _ _ _ _ _ Hm) as Hk1.
    pose proof (mkdir_chain_ui _ _ _ _ _ Hm) as Hu1.
    unfold try_except, convert_doc_to_pdf, convert_pptx_to_pdf.
    set (pdf_path := Path.joinpath outdir (Path.stem f +:+ ".pdf")).
    assert (Hauto : forall app r0 w0,
      automate office app f pdf_path w1 = (r0, w0) ->
      keeps (files w) (files w0) /\ ui w0 = ui w
      /\ (r0 = Ok tt -> Fs.isfile (files w0) pdf_path = true)).
    { intros app r0 w0 Ha. apply automate_spec in Ha as (Hk & Hu & Hf).
      split; [eapply keeps_trans; eauto|]. split; [congruence|assumption]. }
    assert (Hrun : forall app r0 w0,
      (let* _ := automate office app f pdf_path in ret pdf_path) w1 = (r0, w0) ->
      keeps (files w) (files w0) /\ ui w0 = ui w
      /\ (forall p, r0 = Ok p -> p = pdf_path /\ Fs.isfile (files w0) p = true)).
    { intros app r0 w0. unfold bind, ret.
      destruct (automate office app f pdf_path w1) as [[[]|e] w2] eqn:Ha;
        destruct (Hauto _ _ _ Ha) as (Hk & Hu & Hf); intros [= <- <-];
        (split; [assumption|]); (split; [assumption|]).
      - intros p [= <-]. auto.
      - discriminate. }
    assert (Hwrap : forall (m : M path) r0 w0,
      (forall r1 w2, m w1 = (r1, w2) ->
         keeps (files w) (files w2) /\ ui w2 = ui w
         /\ (forall p, r1 = Ok p -> p = pdf_path /\ Fs.isfile (files w2) p = true)) ->
      match m w1 with
      | (Ok a, w2) => (Ok a, w2)
      | (Raise e, w2) =>
          raise (ValueError ("Failed to convert " +:+ Path.name f +:+ ": "
                                 +:+ exn_str e)) w2
      end = (r0, w0) ->
      keeps (files w) (files w0) /\ ui w0 = ui w
      /\ (forall p, r0 = Ok p -> p = pdf_path /\ Fs.isfile (files w0) p = true)).
    { intros m r0 w0 Hm0. destruct (m w1) as [[a|e] w2] eqn:E;
        destruct (Hm0 _ _ eq_refl) as (Hk & Hu & Hf).
      - intros [= <- <-]. auto.
      - unfold raise. intros [= <- <-]. split; [assumption|].
        split; [assumption|discriminate]. }
    apply Hwrap.
    destruct (Str.mem (Str.lower (Path.suffix f)) [".doc"; ".docx"]);
      [apply Hrun|].
    destruct (Str.mem (Str.lower (Path.suffix f)) [".ppt"; ".pptx"]);
      [apply Hrun|].
    intros r1 w2. unfold bind, raise. intros [= <- <-].
    split; [assumption|]. split; [assumption|discriminate].
  - intros [= <- <-]. split; [eapply mkdir_chain_keeps; eauto|].
    split; [eapply mkdir_chain_ui; eauto|discriminate].
Qed.

Lemma parent_app (folder rel : path) :
  rel <> [] -> Path.parent (folder ++ rel) = folder ++ Path.parent rel.
Proof. intros H. unfold Path.parent. now apply removelast_app. Qed.

Lemma output_dir_of_run folder out pres rel w :
  rel <> [] ->
  output_dir_of folder out pres (folder ++ rel) w = (Ok (out ++ mirror pres rel), w).
Proof.
  intros H. unfold output_dir_of, mirror. destruct pres.
  - rewrite parent_app by assumption.
    now rewrite (bind_ok _ _ _ _ _ (relative_to_run folder (Path.parent rel) w)).
  - unfold ret. now rewrite app_nil_r.
Qed.

(** ** The three branches of the loop body *)

Lemma visit_office folder out pres rel acc w :
  let f := folder ++ rel in
  Fs.isfile (files w) f = true -> reserved f = false ->
  is_valid_office_file f = true -> rel <> [] ->
  visit office folder out pres f acc w =
  match convert_file_to_pdf office f (out ++ mirror pres rel) w with
  | (Ok pdf_path, w1) =>
      match Path.relative_to pdf_path out with
      | Some pdf_rel =>
          (Ok (acc.1 ++ [converted_record rel pdf_rel (Str.upper (Path.suffix f))],
               acc.2),
           say (Converted (Path.rel_str rel) (Path.name pdf_path)) w1)
      | None =>
          (Ok (acc.1, acc.2 ++ [Path.rel_str rel]),
           say (ConvertFailed (Path.rel_str rel) (not_in_subpath pdf_path out)) w1)
      end
  | (Raise e, w1) =>
      (Ok (acc.1, acc.2 ++ [Path.rel_str rel]),
       say (ConvertFailed (Path.rel_str rel) e) w1)
  end.
Proof.
  intros f Hf Hr Ho Hrel. unfold visit.
  rewrite (bind_ok _ _ _ _ _ (is_file_run f w)). fold (reserved f).
  rewrite Hf, Hr, Ho. cbn [andb negb]. cbv beta iota.
  unfold try_except. unfold bind at 1.
  subst f. rewrite output_dir_of_run by assumption.
  unfold bind.
  destruct (convert_file_to_pdf office (folder ++ rel) (out ++ mirror pres rel) w)
    as [[pdf_path|e] w1].
  - rewrite relative_to_run. unfold relative_to, ret, raise.
    destruct (Path.relative_to pdf_path out) as [pdf_rel|]; [reflexivity|].
    now rewrite relative_to_app.
  - now rewrite relative_to_run.
Qed.

Lemma visit_pdf folder out pres rel acc w :
  let f := folder ++ rel in
  let target := Path.joinpath (out ++ mirror pres rel) (Path.name f) in
  Fs.isfile (files w) f = true -> reserved f = false ->
  is_valid_office_file f = false -> is_pdf f = true -> rel <> [] ->
  visit office folder out pres f acc w =
  match (Fs.mkdir_parents (out ++ mirror pres rel) >> Fs.copy2 f target) w with
  | (Ok _, w1) =>
      match Path.relative_to target out with
      | Some pdf_rel =>
          (Ok (acc.1 ++ [converted_record rel pdf_rel "PDF (copied)"], acc.2),
           say (CopiedPdf (Path.rel_str rel)) w1)
      | None =>
          (Ok (acc.1, acc.2 ++ [Path.rel_str rel]),
           say (CopyFailed (Path.rel_str rel) (not_in_subpath target out)) w1)
      end
  | (Raise e, w1) =>
      (Ok (acc.1, acc.2 ++ [Path.rel_str rel]),
       say (CopyFailed (Path.rel_str rel) e) w1)
  end.
Proof.
  intros f target Hf Hr Ho Hp Hrel. unfold visit.
  rewrite (bind_ok _ _ _ _ _ (is_file_run f w)). fold (reserved f) (is_pdf f).
  rewrite Hf, Hr, Ho, Hp. cbn [andb negb]. cbv beta iota.
  unfold try_except. unfold bind at 1.
  subst f. rewrite output_dir_of_run by assumption.
  fold target. unfold bind.
  destruct (Fs.mkdir_parents (out ++ mirror pres rel) w) as [[[]|e] w1].
  - destruct (Fs.copy2 (folder ++ rel) target w1) as [[[]|e] w2].
    + rewrite relative_to_run. unfold relative_to, ret, raise.
      destruct (Path.relative_to target out) as [pdf_rel|]; [reflexivity|].
      now rewrite relative_to_app.
    + now rewrite relative_to_run.
  - now rewrite relative_to_run.
Qed.

Lemma visit_other folder out pres rel acc w :
  let f := folder ++ rel in
  Fs.isfile (files w) f = true -> reserved f = false ->
  is_valid_office_file f = false -> is_pdf f = false ->
  visit office folder out pres f acc w =
  (Ok (if benign f then acc else (acc.1, acc.2 ++ [Path.rel_str rel])), w).
Proof.
  intros f Hf Hr Ho Hp. unfold visit.
  rewrite (bind_ok _ _ _ _ _ (is_file_run f w)). fold (reserved f) (is_pdf f).
  rewrite Hf, Hr, Ho, Hp. cbn [andb negb]. cbv beta iota.
  rewrite <- negb_orb. fold (benign f).
  destruct (benign f); cbn [negb]; cbv beta iota; [reflexivity|].
  subst f. unfold bind. now rewrite relative_to_run.
Qed.

(** ** The outcome of one visit, and of a walk *)

Lemma keeps_isfile_false m0 m f :
  keeps m0 m -> Fs.isfile m f = false -> Fs.isfile m0 f = false.
Proof.
  intros Hk Hf. destruct (Fs.isfile m0 f) eqn:E; [|reflexivity].
  apply Hk in E. congruence.
Qed.

Lemma visit_outcome folder out pres m0 rel acc w :
  rel <> [] -> keeps m0 (files w) ->
  exists o w',
    visit office folder out pres (folder ++ rel) acc w = (Ok (add_outcome o acc), w')
    /\ keeps m0 (files w')
    /\ outcome_spec folder out pres m0 rel o.
Proof.
  intros Hrel Hk0. set (f := folder ++ rel).
  destruct (Fs.isfile (files w) f) eqn:Hf.
  2:{ exists Ignored, w. split; [now apply visit_not_file|]. split; [assumption|].
      left. eapply keeps_isfile_false; eauto. }
  destruct (reserved f) eqn:Hr.
  { exists Ignored, w. split; [now apply visit_reserved|]. split; [assumption|].
    right. now left. }
  destruct (is_valid_office_file f) eqn:Ho.
  { subst f. rewrite visit_office by assumption.
    destruct (convert_file_to_pdf office (folder ++ rel) (out ++ mirror pres rel) w)
      as [[pdf_path|e] w1] eqn:Hc;
      apply convert_file_to_pdf_spec in Hc as (Hk & Hu & Hp).
    - destruct (Hp _ eq_refl) as [-> _].
      destruct (Path.relative_to _ out) as [pdf_rel|] eqn:Hrt.
      + eexists (Recorded _), _. split; [reflexivity|].
        split; [simpl; eapply keeps_trans; eauto|].
        split; [reflexivity|]. split; [assumption|]. left.
        split; [assumption|]. split; [reflexivity|]. eauto.
      + eexists (Skipped _), _. split; [reflexivity|].
        split; [simpl; eapply keeps_trans; eauto|].
        split; [reflexivity|]. split; [assumption|congruence].
    - eexists (Skipped _), _. split; [reflexivity|].
      split; [simpl; eapply keeps_trans; eauto|].
      split; [reflexivity|]. split; [assumption|congruence]. }
  destruct (is_pdf f) eqn:Hp.
  { subst f. rewrite visit_pdf by assumption.
    assert (Hatt : forall r w1,
      (Fs.mkdir_parents (out ++ mirror pres rel) >>
       Fs.copy2 (folder ++ rel)
         (Path.joinpath (out ++ mirror pres rel) (Path.name (folder ++ rel)))) w
        = (r, w1) -> keeps m0 (files w1)).
    { intros r w1. unfold bind.
      destruct (Fs.mkdir_parents _ w) as [[[]|e] w2] eqn:Hm.
      - intros Hcp. apply copy2_keeps in Hcp as [Hk2 _].
        apply mkdir_chain_keeps in Hm.
        eapply keeps_trans; [|eassumption]. eapply keeps_trans; eauto.
      - intros [= _ <-]. apply mkdir_chain_keeps in Hm. eapply keeps_trans; eauto. }
    destruct ((Fs.mkdir_parents _ >> Fs.copy2 _ _) w) as [[[]|e] w1] eqn:Ha;
      specialize (Hatt _ _ eq_refl).
    - destruct (Path.relative_to _ out) as [pdf_rel|] eqn:Hrt.
      + eexists (Recorded _), _. split; [reflexivity|].
        split; [assumption|].
        split; [reflexivity|]. split; [assumption|]. right.
        split; [assumption|]. split; [assumption|]. split; [reflexivity|]. eauto.
      + eexists (Skipped _), _. split; [reflexivity|].
        split; [assumption|].
        split; [reflexivity|]. split; [assumption|congruence].
    - eexists (Skipped _), _. split; [reflexivity|].
      split; [assumption|].
      split; [reflexivity|]. split; [assumption|congruence]. }
  subst f. rewrite visit_other by assumption.
  destruct (benign (folder ++ rel)) eqn:Hb.
  - exists Ignored, w. split; [reflexivity|]. split; [assumption|].
    right. right. auto.
  - eexists (Skipped _), w. split; [reflexivity|]. split; [assumption|].
    split; [reflexivity|]. split; [assumption|auto].
Qed.

Lemma walk_outcomes folder out pres m0 rels acc w :
  Forall (fun rel => rel <> []) rels -> keeps m0 (files w) ->
  exists os w',
    for_fold (visit office folder out pres) (map (app folder) rels) acc w
      = (Ok (add_outcomes os acc), w')
    /\ keeps m0 (files w')
    /\ Forall2 (outcome_spec folder out pres m0) rels os.
Proof.
  intros Hne. revert acc w. induction Hne as [|rel rels Hrel _ IH]; intros acc w Hk.
  - exists [], w. split; [reflexivity|]. split; [assumption|constructor].
  - destruct (visit_outcome folder out pres m0 rel acc w Hrel Hk)
      as (o & w1 & Hv & Hk1 & Ho).
    destruct (IH (add_outcome o acc) w1 Hk1) as (os & w2 & Hf & Hk2 & Hos).
    exists (o :: os), w2. split; [|split; [assumption|now constructor]].
    simpl. now rewrite (bind_ok _ _ _ _ _ Hv).
Qed.

Lemma add_outcomes_lists os acc :
  add_outcomes os acc = (acc.1 ++ records os, acc.2 ++ skips os).
Proof.
  revert acc; induction os as [|o os IH]; intros [c k]; simpl.
  - now rewrite !app_nil_r.
  - unfold add_outcomes in *. simpl. rewrite IH.
    destruct o; simpl; unfold records, skips; simpl;
      now rewrite <- ?app_assoc.
Qed.

Lemma process_folder_recursive_run folder out pres w :
  Fs.isdir (files w) folder = true ->
  exists rels os w',
    process_folder_recursive office folder out pres w
      = (Ok (records os, skips os), w')
    /\ keeps (files w) (files w')
    /\ NoDup rels
    /\ (forall rel, In rel rels <->
          rel <> [] /\ is_Some (files w !! (folder ++ rel)))
    /\ Forall2 (outcome_spec folder out pres (files w)) rels os.
Proof.
  intros Hd. destruct (rglob_rels (files w) folder) as (rels & Hl & Hnd & Hne & Hin).
  destruct (walk_outcomes folder out pres (files w) rels ([], []) w Hne
              (keeps_refl _)) as (os & w' & Hrun & Hk & Hos).
  exists rels, os, w'. split.
  { unfold process_folder_recursive.
    rewrite (bind_ok _ _ _ _ _ (is_dir_run folder w)). rewrite Hd.
    cbn [negb]. cbv beta iota. unfold bind, get_files. cbn [files].
    rewrite Hl, Hrun.
    now rewrite add_outcomes_lists. }
  split; [assumption|]. split; [assumption|]. split; [|assumption].
  intros rel. rewrite Hin. tauto.
Qed.

(** ** Counting the entries that name a file *)

Lemma records_of_records s os :
  records_of s (records os) = records (List.filter (about s) os).
Proof.
  induction os as [|o os IH]; [reflexivity|].
  destruct o as [|s'|r]; simpl.
  - apply IH.
  - destruct (String.eqb s' s); apply IH.
  - unfold records_of, records in *. simpl.
    destruct (String.eqb (original r) s); simpl; now rewrite IH.
Qed.

Lemma skips_of_skips s os :
  skips_of s (skips os) = skips (List.filter (about s) os).
Proof.
  induction os as [|o os IH]; [reflexivity|].
  destruct o as [|s'|r]; simpl.
  - apply IH.
  - unfold skips_of, skips in *. simpl.
    destruct (String.eqb s' s); simpl; now rewrite IH.
  - destruct (String.eqb (original r) s); apply IH.
Qed.

Lemma about_other folder out pres m0 rel rel0 o :
  outcome_spec folder out pres m0 rel o ->
  rel <> [] -> rel0 <> [] -> slash_free rel -> slash_free rel0 -> rel <> rel0 ->
  about (Path.rel_str rel0) o = false.
Proof.
  intros Ho H1 H2 H3 H4 Hne.
  assert (Hs : Path.rel_str rel <> Path.rel_str rel0).
  { intros E. apply Hne. now apply rel_str_inj. }
  destruct o as [|s|r]; simpl in *; [reflexivity| |].
  - destruct Ho as [-> _]. now apply String.eqb_neq.
  - destruct Ho as [-> _]. now apply String.eqb_neq.
Qed.

Lemma about_self folder out pres m0 rel o :
  outcome_spec folder out pres m0 rel o -> o <> Ignored ->
  about (Path.rel_str rel) o = true.
Proof.
  destruct o as [|s|r]; simpl; [congruence| |];
    intros [-> _] _; apply String.eqb_refl.
Qed.

Lemma filter_about_absent folder out pres m0 rels os rel0 :
  Forall2 (outcome_spec folder out pres m0) rels os ->
  Forall (fun rel => rel <> [] /\ slash_free rel) rels ->
  rel0 <> [] -> slash_free rel0 -> ~ In rel0 rels ->
  List.filter (about (Path.rel_str rel0)) os = [].
Proof.
  intros Hos. induction Hos as [|rel o rels os Ho _ IH]; intros Hw H1 H2 Hni;
    [reflexivity|].
  apply Forall_cons in Hw as [[Hr1 Hr2] Hw]. simpl.
  rewrite (about_other _ _ _ _ _ _ _ Ho) by (auto; intros ->; apply Hni; now left).
  apply IH; auto. intros Hin. apply Hni. now right.
Qed.

Lemma filter_about_present folder out pres m0 rels os rel0 :
  Forall2 (outcome_spec folder out pres m0) rels os ->
  Forall (fun rel => rel <> [] /\ slash_free rel) rels ->
  NoDup rels -> In rel0 rels ->
  exists o, outcome_spec folder out pres m0 rel0 o
    /\ List.filter (about (Path.rel_str rel0)) os
       = match o with Ignored => [] | _ => [o] end.
Proof.
  intros Hos. induction Hos as [|rel o rels os Ho Hos IH]; intros Hw Hnd Hin;
    [destruct Hin|].
  apply Forall_cons in Hw as [[Hr1 Hr2] Hw].
  apply NoDup_cons in Hnd as [Hni Hnd]. rewrite list_elem_of_In in Hni.
  destruct (decide (rel = rel0)) as [->|Hne].
  - exists o. split; [assumption|]. simpl.
    rewrite (filter_about_absent _ _ _ _ _ _ _ Hos) by auto.
    destruct o as [|s|r]; [reflexivity| |];
      now rewrite (about_self _ _ _ _ _ _ Ho).
  - destruct Hin as [E|Hin]; [congruence|].
    destruct IH as (o0 & Ho0 & Hf); auto.
    exists o0. split; [assumption|]. simpl.
    assert (Hw0 : rel0 <> [] /\ slash_free rel0).
    { rewrite Forall_forall in Hw. apply Hw. now apply list_elem_of_In. }
    now rewrite (about_other _ _ _ _ _ _ _ Ho) by tauto.
Qed.

(** ** Names and extensions *)

Lemma suffix_of_nonempty (n : string) :
  Path.suffix_of n <> EmptyString -> n <> EmptyString /\ n <> ".".
Proof. intros H. split; intros ->; now apply H. Qed.

Lemma office_suffix f :
  is_valid_office_file f = true -> Path.suffix f <> EmptyString.
Proof.
  intros H. apply (mem_lower_nonempty _ _ H). simpl.
  intros [E|[E|[E|[E|[]]]]]; discriminate.
Qed.

Lemma pdf_suffix f : is_pdf f = true -> Path.suffix f <> EmptyString.
Proof.
  unfold is_pdf. intros H%String.eqb_eq E. rewrite E in H. discriminate.
Qed.

Lemma office_not_reserved f : is_valid_office_file f = true -> reserved f = false.
Proof.
  intros H. destruct (reserved f) eqn:R; [|reflexivity].
  apply String.eqb_eq in R. unfold is_valid_office_file, Path.suffix in H.
  rewrite R in H. discriminate.
Qed.

Lemma pdf_not_reserved f : is_pdf f = true -> reserved f = false.
Proof.
  intros H. destruct (reserved f) eqn:R; [|reflexivity].
  apply String.eqb_eq in R. unfold is_pdf, Path.suffix in H.
  rewrite R in H. discriminate.
Qed.

Lemma pdf_not_office f : is_pdf f = true -> is_valid_office_file f = false.
Proof.
  unfold is_pdf, is_valid_office_file. intros H%String.eqb_eq. now rewrite H.
Qed.

Lemma name_app (folder rel : path) :
  rel <> [] -> Path.name (folder ++ rel) = Path.name rel.
Proof.
  intros H. unfold Path.name. destruct (exists_last H) as (l & x & ->).
  now rewrite app_assoc, !last_snoc.
Qed.

Lemma name_slash_free (p : path) :
  slash_free p -> Str.contains Str.slash (Path.name p) = false.
Proof.
  intros H. unfold Path.name. destruct (last p) as [n|] eqn:E; [|reflexivity].
  simpl. apply last_Some in E as [l ->].
  unfold slash_free in H. apply Forall_app in H as [_ H].
  now inversion H.
Qed.

Lemma stat_nonempty (m : gmap path node) (p : path) :
  p <> [] -> Fs.stat m p = m !! p.
Proof. destruct p; [congruence|reflexivity]. Qed.

Lemma isfile_is_Some (m : gmap path node) (folder rel : path) :
  rel <> [] -> Fs.isfile m (folder ++ rel) = true -> is_Some (m !! (folder ++ rel)).
Proof.
  intros Hne [c Hc]%isfile_stat. rewrite stat_nonempty in Hc; [eauto|].
  destruct folder, rel; simpl; congruence.
Qed.

(** Where a document's PDF and a copied PDF land, below the output base. *)
Lemma produced_office (out dir f : path) :
  slash_free f ->
  Path.relative_to (Path.joinpath (out ++ dir) (pdf_name f)) out
    = Some (dir ++ [pdf_name f]).
Proof.
  intros H. unfold pdf_name, Path.stem.
  rewrite pdf_name_single by now apply stem_slash_free, name_slash_free.
  rewrite <- app_assoc. apply relative_to_app.
Qed.

Lemma produced_copy (out dir f : path) :
  slash_free f -> Path.suffix f <> EmptyString ->
  Path.relative_to (Path.joinpath (out ++ dir) (Path.name f)) out
    = Some (dir ++ [Path.name f]).
Proof.
  intros H Hs. apply suffix_of_nonempty in Hs as [N1 N2].
  rewrite joinpath_single by (auto using name_slash_free).
  rewrite <- app_assoc. apply relative_to_app.
Qed.

Lemma slash_free_rel (m : gmap path node) (folder rel : path) :
  names_slash_free m -> is_Some (m !! (folder ++ rel)) ->
  slash_free (folder ++ rel) /\ slash_free rel.
Proof.
  intros H Hs. pose proof (H _ Hs) as Hf. split; [assumption|].
  now apply Forall_app in Hf as [_ ?].
Qed.

(** The walk of a tree with proper names, with what it yields for each
    entry. *)
Lemma walk_accounts folder out pres w conv skip w' :
  names_slash_free (files w) ->
  process_folder_recursive office folder out pres w = (Ok (conv, skip), w') ->
  exists rels os,
    conv = records os /\ skip = skips os
    /\ Forall2 (outcome_spec folder out pres (files w)) rels os
    /\ (forall rel, In rel rels <->
          rel <> [] /\ is_Some (files w !! (folder ++ rel)))
    /\ forall rel, rel <> [] -> is_Some (files w !! (folder ++ rel)) ->
         exists o, outcome_spec folder out pres (files w) rel o
           /\ List.filter (about (Path.rel_str rel)) os
              = match o with Ignored => [] | _ => [o] end.
Proof.
  intros Hn Hrun.
  destruct (Fs.isdir (files w) folder) eqn:Hd;
    [|rewrite not_a_folder in Hrun by assumption; discriminate].
  destruct (process_folder_recursive_run folder out pres w Hd)
    as (rels & os & w2 & Hrun' & Hk & Hnd & Hin & Hos).
  rewrite Hrun' in Hrun. injection Hrun as <- <- <-.
  exists rels, os. split; [reflexivity|]. split; [reflexivity|].
  split; [assumption|]. split; [assumption|].
  intros rel Hne Hs. eapply filter_about_present; eauto.
  - apply Forall_forall. intros rel' Hr'%list_elem_of_In. apply Hin in Hr' as [? ?].
    split; [assumption|]. eapply slash_free_rel; eauto.
  - apply Hin. auto.
Qed.

(** * The claims *)

(** C1. For an input file with extension .doc, .docx, .ppt or .pptx
    (compared case-insensitively) whose conversion went through, that
    is, which the run did not skip, the run yields exactly one
    ConversionRecord; the produced path of that record has extension
    .pdf and the stem of the input. *)
Theorem office_file_recorded_once folder out pres w conv skip w' rel :
  names_slash_free (files w) ->
  process_folder_recursive office folder out pres w = (Ok (conv, skip), w') ->
  rel <> [] ->
  Fs.isfile (files w) (folder ++ rel) = true ->
  is_valid_office_file (folder ++ rel) = true ->
  ~ In (Path.rel_str rel) skip ->
  let produced := out ++ mirror pres rel ++ [pdf_name (folder ++ rel)] in
  exists r,
    records_of (Path.rel_str rel) conv = [r]
    /\ Path.relative_to produced out = Some (mirror pres rel ++ [pdf_name (folder ++ rel)])
    /\ pdf r = Path.rel_str (mirror pres rel ++ [pdf_name (folder ++ rel)])
    /\ Path.suffix produced = ".pdf"
    /\ Path.stem produced = Path.stem (folder ++ rel)
    /\ type r = Str.upper (Path.suffix (folder ++ rel)).
Proof.
  intros Hn Hrun Hne Hf Ho Hns produced.
  destruct (walk_accounts _ _ _ _ _ _ _ Hn Hrun) as (rels & os & -> & -> & _ & _ & Hacc).
  pose proof (isfile_is_Some _ _ _ Hne Hf) as Hs.
  destruct (Hacc rel Hne Hs) as (o & Hspec & Hfil).
  destruct (slash_free_rel _ _ _ Hn Hs) as [Hsf _].
  destruct o as [|s|r]; simpl in Hspec.
  - destruct Hspec as [E|[E|[E _]]]; [congruence| |congruence].
    rewrite office_not_reserved in E by assumption. discriminate.
  - destruct Hspec as [-> _]. exfalso. apply Hns.
    assert (E : skips_of (Path.rel_str rel) (skips os) = [Path.rel_str rel])
      by (rewrite skips_of_skips, Hfil; reflexivity).
    assert (Hin : In (Path.rel_str rel) (skips_of (Path.rel_str rel) (skips os)))
      by (rewrite E; now left).
    unfold skips_of in Hin. now apply filter_In in Hin as [? _].
  - destruct Hspec as (Horig & _ & [(_ & Hty & pdf_rel & Hrt & Hpdf)|(E & _)]);
      [|congruence].
    rewrite produced_office in Hrt by assumption. injection Hrt as <-.
    pose proof (stem_nonempty _ (office_suffix _ Ho)) as Hst.
    exists r. split; [rewrite records_of_records, Hfil; reflexivity|].
    split; [unfold produced; apply relative_to_app|].
    split; [assumption|].
    unfold produced, Path.suffix, Path.stem.
    rewrite !app_assoc, name_snoc. unfold pdf_name.
    split; [now apply suffix_of_pdf|]. split; [now apply stem_of_pdf|assumption].
Qed.

(** C3. Every ConversionRecord of a run belongs to an input [rel] below
    the traversal root, and its output path below the output root is
    [mirror pres rel] followed by a file name: the directory chain of
    the input when structure is preserved, nothing when flattening. *)
Theorem output_mirrors_or_flattens folder out pres w conv skip w' r :
  names_slash_free (files w) ->
  process_folder_recursive office folder out pres w = (Ok (conv, skip), w') ->
  In r conv ->
  exists rel n,
    rel <> [] /\ is_Some (files w !! (folder ++ rel))
    /\ original r = Path.rel_str rel
    /\ pdf r = Path.rel_str (mirror pres rel ++ [n])
    /\ n = (if is_valid_office_file (folder ++ rel)
            then pdf_name (folder ++ rel) else Path.name (folder ++ rel))
    /\ Path.parent (mirror pres rel ++ [n])
       = (if pres then Path.parent rel else []).
Proof.
  intros Hn Hrun Hin.
  destruct (walk_accounts _ _ _ _ _ _ _ Hn Hrun) as (rels & os & -> & -> & Hos & Hrels & _).
  assert (Hex : exists rel, In rel rels
                /\ outcome_spec folder out pres (files w) rel (Recorded r)).
  { clear Hrels Hrun. induction Hos as [|rel o rels os Ho _ IH]; [destruct Hin|].
    unfold records in Hin. simpl in Hin. destruct o as [|s|r0].
    - destruct (IH Hin) as (rel' & ? & ?). exists rel'. split; [now right|assumption].
    - destruct (IH Hin) as (rel' & ? & ?). exists rel'. split; [now right|assumption].
    - destruct Hin as [->|Hin].
      + exists rel. split; [now left|assumption].
      + destruct (IH Hin) as (rel' & ? & ?). exists rel'.
        split; [now right|assumption]. }
  destruct Hex as (rel & Hrel & Hspec). apply Hrels in Hrel as [Hne Hs].
  destruct (slash_free_rel _ _ _ Hn Hs) as [Hsf _].
  simpl in Hspec.
  destruct Hspec as (Horig & _ & [(Ho & _ & pdf_rel & Hrt & Hpdf)
                                 |(Ho & Hp & _ & pdf_rel & Hrt & Hpdf)]).
  - rewrite produced_office in Hrt by assumption. injection Hrt as <-.
    exists rel, (pdf_name (folder ++ rel)). rewrite Ho, parent_snoc.
    repeat (split; [assumption || reflexivity|]). now destruct pres.
  - rewrite produced_copy in Hrt by (auto using pdf_suffix). injection Hrt as <-.
    exists rel, (Path.name (folder ++ rel)). rewrite Ho, parent_snoc.
    repeat (split; [assumption || reflexivity|]). now destruct pres.
Qed.

(** C5. A failure on one file never aborts the batch: the walk of a
    directory always returns its two lists; and when the conversion of a
    document, or the copy of a PDF, raises, the loop records the file's
    relative path as skipped, issues one warning, and goes on with the
    remaining files. *)
Theorem per_file_failure_is_soft :
  (forall folder out pres w,
     Fs.isdir (files w) folder = true ->
     exists conv skip w',
       process_folder_recursive office folder out pres w = (Ok (conv, skip), w'))
  /\ (forall folder out pres rel l acc w e w1,
        rel <> [] ->
        Fs.isfile (files w) (folder ++ rel) = true ->
        is_valid_office_file (folder ++ rel) = true ->
        convert_file_to_pdf office (folder ++ rel) (out ++ mirror pres rel) w
          = (Raise e, w1) ->
        for_fold (visit office folder out pres) ((folder ++ rel) :: l) acc w
        = for_fold (visit office folder out pres) l
            (acc.1, acc.2 ++ [Path.rel_str rel])
            (say (ConvertFailed (Path.rel_str rel) e) w1))
  /\ (forall folder out pres rel l acc w e w1,
        rel <> [] ->
        Fs.isfile (files w) (folder ++ rel) = true ->
        is_pdf (folder ++ rel) = true ->
        (Fs.mkdir_parents (out ++ mirror pres rel) >>
         Fs.copy2 (folder ++ rel)
           (Path.joinpath (out ++ mirror pres rel) (Path.name (folder ++ rel)))) w
          = (Raise e, w1) ->
        for_fold (visit office folder out pres) ((folder ++ rel) :: l) acc w
        = for_fold (visit office folder out pres) l
            (acc.1, acc.2 ++ [Path.rel_str rel])
            (say (CopyFailed (Path.rel_str rel) e) w1)).
Proof.
  split; [|split].
  - intros folder out pres w Hd.
    destruct (process_folder_recursive_run folder out pres w Hd)
      as (rels & os & w' & Hrun & _). eauto.
  - intros folder out pres rel l acc w e w1 Hne Hf Ho Hc. simpl.
    unfold bind at 1.
    rewrite visit_office by (auto using office_not_reserved). now rewrite Hc.
  - intros folder out pres rel l acc w e w1 Hne Hf Hp Hc. simpl.
    unfold bind at 1.
    rewrite visit_pdf by (auto using pdf_not_reserved, pdf_not_office).
    now rewrite Hc.
Qed.

(** C6, as amended. A regular file that does not bear the reserved name
    and whose extension is none of .doc, .docx, .ppt, .pptx, .pdf leaves
    the tree and the page untouched; it is added to the skip list,
    unless its name begins with a dot or its extension is .txt, .md or
    .log, in which case nothing is recorded.  Over a whole run, such a
    file has no ConversionRecord, and it has exactly one skip entry when
    it is not benign and none when it is. *)
Theorem unsupported_skipped_or_ignored :
  (forall folder out pres rel acc w,
     Fs.isfile (files w) (folder ++ rel) = true ->
     reserved (folder ++ rel) = false ->
     is_valid_office_file (folder ++ rel) = false ->
     is_pdf (folder ++ rel) = false ->
     visit office folder out pres (folder ++ rel) acc w
     = (Ok (if benign (folder ++ rel) then acc
            else (acc.1, acc.2 ++ [Path.rel_str rel])), w))
  /\ (forall folder out pres w conv skip w' rel,
        names_slash_free (files w) ->
        process_folder_recursive office folder out pres w = (Ok (conv, skip), w') ->
        rel <> [] ->
        Fs.isfile (files w) (folder ++ rel) = true ->
        reserved (folder ++ rel) = false ->
        is_valid_office_file (folder ++ rel) = false ->
        is_pdf (folder ++ rel) = false ->
        records_of (Path.rel_str rel) conv = []
        /\ skips_of (Path.rel_str rel) skip
           = (if benign (folder ++ rel) then [] else [Path.rel_str rel])).
Proof.
  split; [intros; now apply visit_other|].
  intros folder out pres w conv skip w' rel Hn Hrun Hne Hf Hr Ho Hp.
  destruct (walk_accounts _ _ _ _ _ _ _ Hn Hrun) as (rels & os & -> & -> & _ & _ & Hacc).
  pose proof (isfile_is_Some _ _ _ Hne Hf) as Hs.
  destruct (Hacc rel Hne Hs) as (o & Hspec & Hfil).
  rewrite records_of_records, skips_of_skips, Hfil.
  destruct o as [|s|r]; simpl in Hspec.
  - destruct Hspec as [E|[E|(_ & _ & ->)]]; [congruence|congruence|]. now split.
  - destruct Hspec as (-> & _ & Hb). rewrite Hb by assumption. now split.
  - destruct Hspec as (_ & _ & [(E & _)|(_ & E & _)]); congruence.
Qed.

(** C7. A traversal root that is not a directory makes
    [process_folder_recursive] raise one [ValueError] and leave the tree
    and the page as they were; an upload that is not a ZIP archive makes
    [handle_uploaded_zip] report one error, touch nothing on disk and
    return two empty lists, and the page block around it shows that
    error and no result. *)
Theorem batch_fatal_errors :
  (forall folder out pres w,
     Fs.isdir (files w) folder = false ->
     process_folder_recursive office folder out pres w
     = (Raise (ValueError "The provided path is not a folder."), w))
  /\ (forall tmp up pres w,
        is_zipfile (getvalue up) = false ->
        handle_uploaded_zip office tmp up pres w = (Ok ([], []), say NotAZip w)
        /\ level_of NotAZip = error
        /\ zip_upload_block office tmp up pres w
           = (Ok tt, say NothingConverted (say NotAZip w))).
Proof.
  split; [apply not_a_folder|].
  intros tmp up pres w H. split; [now apply not_a_zip|]. split; [reflexivity|].
  unfold zip_upload_block, try_except, bind. now rewrite not_a_zip.
Qed.

(** C10. A file whose base name is [uploaded.zip], wherever it lies
    below the traversal root, is passed over: the visit changes neither
    the lists, nor the tree, nor the page; a walk is the walk of the
    listing without those files; and in the result of a run such a file
    has neither a ConversionRecord nor a skip entry. *)
Theorem reserved_name_excluded :
  (forall folder out pres f acc w,
     Path.name f = "uploaded.zip" ->
     visit office folder out pres f acc w = (Ok acc, w))
  /\ (forall folder out pres l acc w,
        for_fold (visit office folder out pres) l acc w
        = for_fold (visit office folder out pres)
            (List.filter (fun f => negb (reserved f)) l) acc w)
  /\ (forall folder out pres w conv skip w' rel,
        names_slash_free (files w) ->
        process_folder_recursive office folder out pres w = (Ok (conv, skip), w') ->
        rel <> [] -> is_Some (files w !! (folder ++ rel)) ->
        Path.name (folder ++ rel) = "uploaded.zip" ->
        records_of (Path.rel_str rel) conv = []
        /\ skips_of (Path.rel_str rel) skip = []).
Proof.
  split; [|split].
  - intros folder out pres f acc w H. apply visit_reserved.
    unfold reserved. rewrite H. reflexivity.
  - intros. apply for_fold_visit_filter.
  - intros folder out pres w conv skip w' rel Hn Hrun Hne Hs Hname.
    assert (Hr : reserved (folder ++ rel) = true)
      by (unfold reserved; now rewrite Hname).
    assert (Ho : is_valid_office_file (folder ++ rel) = false).
    { destruct (is_valid_office_file (folder ++ rel)) eqn:E; [|reflexivity].
      apply office_not_reserved in E. congruence. }
    assert (Hp : is_pdf (folder ++ rel) = false).
    { destruct (is_pdf (folder ++ rel)) eqn:E; [|reflexivity].
      apply pdf_not_reserved in E. congruence. }
    destruct (walk_accounts _ _ _ _ _ _ _ Hn Hrun)
      as (rels & os & -> & -> & _ & _ & Hacc).
    destruct (Hacc rel Hne Hs) as (o & Hspec & Hfil).
    rewrite records_of_records, skips_of_skips, Hfil.
    destruct o as [|s|r]; simpl in Hspec.
    + now split.
    + destruct Hspec as (_ & E & _). congruence.
    + destruct Hspec as (_ & E & _). congruence.
Qed.

End Properties.

(** ** Staging the uploads *)

Lemma split_nonempty (c : ascii) (s : string) : Str.split c s <> [].
Proof.
  destruct s as [|a s]; simpl; [discriminate|].
  destruct (Ascii.eqb a c); [discriminate|]. now destruct (Str.split c s).
Qed.

Lemma replace_absent (a b : ascii) (s : string) :
  Str.contains a s = false -> Str.replace a b s = s.
Proof.
  unfold Str.replace. induction s as [|x s IH]; simpl; [reflexivity|].
  intros [H1 H2]%orb_false_iff. rewrite H1. now rewrite IH.
Qed.

Lemma filter_all {A} (f : A -> bool) (l : list A) :
  Forall (fun x => f x = true) l -> List.filter f l = l.
Proof.
  induction 1 as [|x l Hx _ IH]; simpl; [reflexivity|]. now rewrite Hx, IH.
Qed.

(** ** The temporary directory *)

Lemma rmtree_run (p : path) (w : world) :
  Fs.rmtree p w
  = (Ok tt, World (filter (fun kv => Fs.inside p kv.1 = false) (files w)) (ui w)).
Proof. reflexivity. Qed.

(** Whatever ran inside, nothing is left of a temporary directory once the
    block is over. *)
Lemma temporary_directory_gone {A} (temp_dir : path) (body : M A)
    (w w' : world) (r : result A) :
  TemporaryDirectory temp_dir body w = (r, w') ->
  (exists e, r = Raise e /\ w' = w)
  \/ forall p, Fs.inside temp_dir p = true -> files w' !! p = None.
Proof.
  unfold TemporaryDirectory, bind.
  destruct (Fs.os_mkdir temp_dir w) as [[[]|e] w1] eqn:Hm.
  - unfold try_finally. destruct (body w1) as [r1 w2]. rewrite rmtree_run.
    intros [= <- <-]. right. intros p Hp. simpl.
    apply map_lookup_filter_None. right. intros x _. simpl. congruence.
  - intros [= <- <-]. left. exists e. split; [reflexivity|].
    revert Hm. unfold Fs.os_mkdir, bind, get_files, put_files, raise.
    destruct (Fs.stat (files w) temp_dir) as [n|]; [now intros [= _ <-]|].
    destruct (Fs.stat (files w) (Path.parent temp_dir)) as [[c|]|];
      now intros [= <-] || now intros [= _ <-].
Qed.

(** ** Checks that compute *)

Lemma names_slash_free_check_sound (m : gmap path node) :
  names_slash_free_check m = true -> names_slash_free m.
Proof.
  unfold names_slash_free_check, names_slash_free. intros H k Hk.
  rewrite forallb_forall in H. apply in_keys in Hk. specialize (H k Hk).
  rewrite forallb_forall in H. apply Forall_forall. intros s Hs%list_elem_of_In.
  apply H in Hs. now apply negb_true_iff in Hs.
Qed.

Lemma prefix_in_inits (q p : path) : q `prefix_of` p -> In q (inits p).
Proof.
  revert q; induction p as [|x p IH]; intros q Hq.
  - apply prefix_nil_inv in Hq. subst. now left.
  - destruct q as [|y q]; [now left|]. right.
    apply prefix_cons_inv_1 in Hq as Hx. apply prefix_cons_inv_2 in Hq. subst y.
    apply in_map. now apply IH.
Qed.

(** * The claims at concrete inputs *)

Lemma office_file_recorded_once_witness :
  let run := process_folder_recursive sample_office ["in"] ["out"] true sample_world in
  is_valid_office_file ["in"; "reports"; "q1.docx"] = true
  /\ exists r,
       records_of "reports/q1.docx" (converted_of run.1) = [r]
       /\ pdf r = "reports/q1.pdf"
       /\ Path.suffix ["out"; "reports"; "q1.pdf"] = ".pdf"
       /\ type r = ".DOCX".
Proof.
  intros run. split; [reflexivity|].
  destruct (office_file_recorded_once sample_office ["in"] ["out"] true sample_world
              (converted_of run.1) (skipped_of run.1) run.2 ["reports"; "q1.docx"])
    as (r & H1 & _ & H2 & H3 & _ & H4).
  - apply names_slash_free_check_sound. vm_compute. reflexivity.
  - vm_compute. reflexivity.
  - discriminate.
  - vm_compute. reflexivity.
  - reflexivity.
  - vm_compute. intros [H|[]]. discriminate.
  - exists r. split; [exact H1|]. split; [exact H2|]. split; [exact H3|exact H4].
Defined.

Lemma output_mirrors_or_flattens_witness :
  let preserved := process_folder_recursive sample_office ["in"] ["out"] true sample_world in
  let flattened := process_folder_recursive sample_office ["in"] ["out"] false sample_world in
  (exists rel n,
     original (converted_record ["reports"; "q1.docx"] ["reports"; "q1.pdf"] ".DOCX")
       = Path.rel_str rel
     /\ pdf (converted_record ["reports"; "q1.docx"] ["reports"; "q1.pdf"] ".DOCX")
        = Path.rel_str (mirror true rel ++ [n])
     /\ Path.parent (mirror true rel ++ [n]) = Path.parent rel)
  /\ (exists rel n,
        original (converted_record ["reports"; "q1.docx"] ["q1.pdf"] ".DOCX")
          = Path.rel_str rel
        /\ pdf (converted_record ["reports"; "q1.docx"] ["q1.pdf"] ".DOCX")
           = Path.rel_str (mirror false rel ++ [n])
        /\ Path.parent (mirror false rel ++ [n]) = []).
Proof.
  intros preserved flattened. split.
  - destruct (output_mirrors_or_flattens sample_office ["in"] ["out"] true sample_world
                (converted_of preserved.1) (skipped_of preserved.1) preserved.2
                (converted_record ["reports"; "q1.docx"] ["reports"; "q1.pdf"] ".DOCX"))
      as (rel & n & _ & _ & H1 & H2 & _ & H3).
    + apply names_slash_free_check_sound. vm_compute. reflexivity.
    + vm_compute. reflexivity.
    + vm_compute. tauto.
    + exists rel, n. auto.
  - destruct (output_mirrors_or_flattens sample_office ["in"] ["out"] false sample_world
                (converted_of flattened.1) (skipped_of flattened.1) flattened.2
                (converted_record ["reports"; "q1.docx"] ["q1.pdf"] ".DOCX"))
      as (rel & n & _ & _ & H1 & H2 & _ & H3).
    + apply names_slash_free_check_sound. vm_compute. reflexivity.
    + vm_compute. reflexivity.
    + vm_compute. tauto.
    + exists rel, n. auto.
Defined.

Lemma per_file_failure_is_soft_witness :
  let f := ["in"; "reports"; "q1.docx"] in
  let attempt := convert_file_to_pdf no_office f ["out"; "reports"] sample_world in
  (exists conv skip w',
     process_folder_recursive no_office ["in"] ["out"] true sample_world
     = (Ok (conv, skip), w'))
  /\ for_fold (visit no_office ["in"] ["out"] true) [f; ["in"; "a.pdf"]] ([], [])
       sample_world
     = for_fold (visit no_office ["in"] ["out"] true) [["in"; "a.pdf"]]
         ([], ["reports/q1.docx"])
         (say (ConvertFailed "reports/q1.docx" (raised attempt.1)) attempt.2).
Proof.
  intros f attempt. split.
  - apply (proj1 (per_file_failure_is_soft no_office)). reflexivity.
  - apply (proj1 (proj2 (per_file_failure_is_soft no_office))
             ["in"] ["out"] true ["reports"; "q1.docx"]).
    + discriminate.
    + vm_compute. reflexivity.
    + reflexivity.
    + vm_compute. reflexivity.
Defined.

Lemma unsupported_skipped_or_ignored_witness :
  let run := process_folder_recursive sample_office ["in"] ["out"] true sample_world in
  (records_of "n.csv" (converted_of run.1) = []
   /\ skips_of "n.csv" (skipped_of run.1) = ["n.csv"])
  /\ (records_of "l.log" (converted_of run.1) = []
      /\ skips_of "l.log" (skipped_of run.1) = []).
Proof.
  intros run. split.
  - apply (proj2 (unsupported_skipped_or_ignored sample_office)
             ["in"] ["out"] true sample_world (converted_of run.1) (skipped_of run.1)
             run.2 ["n.csv"]).
    + apply names_slash_free_check_sound. vm_compute. reflexivity.
    + vm_compute. reflexivity.
    + discriminate.
    + vm_compute. reflexivity.
    + reflexivity.
    + reflexivity.
    + reflexivity.
  - apply (proj2 (unsupported_skipped_or_ignored sample_office)
             ["in"] ["out"] true sample_world (converted_of run.1) (skipped_of run.1)
             run.2 ["l.log"]).
    + apply names_slash_free_check_sound. vm_compute. reflexivity.
    + vm_compute. reflexivity.
    + discriminate.
    + vm_compute. reflexivity.
    + reflexivity.
    + reflexivity.
    + reflexivity.
Defined.

Lemma batch_fatal_errors_witness :
  process_folder_recursive sample_office ["in"; "a.pdf"] ["out"] true sample_world
  = (Raise (ValueError "The provided path is not a folder."), sample_world)
  /\ handle_uploaded_zip sample_office ["tmp"; "t"] (sample_upload "files.zip") true
       bare_world
     = (Ok ([], []), say NotAZip bare_world).
Proof.
  split.
  - apply (proj1 (batch_fatal_errors sample_office)). vm_compute. reflexivity.
  - apply (proj2 (batch_fatal_errors sample_office)). reflexivity.
Defined.

Lemma reserved_name_excluded_witness :
  let run := process_folder_recursive sample_office ["in"] ["out"] true sample_world in
  visit sample_office ["in"] ["out"] true ["in"; "uploaded.zip"] ([], []) sample_world
  = (Ok ([], []), sample_world)
  /\ records_of "uploaded.zip" (converted_of run.1) = []
  /\ skips_of "uploaded.zip" (skipped_of run.1) = [].
Proof.
  intros run. split.
  - apply (proj1 (reserved_name_excluded sample_office)). reflexivity.
  - apply (proj2 (proj2 (reserved_name_excluded sample_office))
             ["in"] ["out"] true sample_world (converted_of run.1) (skipped_of run.1)
             run.2 ["uploaded.zip"]).
    + apply names_slash_free_check_sound. vm_compute. reflexivity.
    + vm_compute. reflexivity.
    + discriminate.
    + vm_compute. eauto.
    + reflexivity.
Defined.

(** ** Where the description and the program part *)

(** C4. An uploaded name that begins with a separator is not staged as
    the claim has it: the name is handed to the path join as it is, its
    first piece is empty, the join anchors the path at the root and drops
    the staging root.  The file is written outside the staging root (and
    outside the temporary directory, where it stays when that is removed),
    the walk of the staging root does not see it, and nothing is
    converted. *)
Theorem leading_separator_leaves_staging :
  let up := sample_upload "/a.docx" in
  let staged := save_upload ["tmp"; "input"] up staging_world in
  let run := process_uploaded_files_with_structure sample_office ["tmp"; "t"] [up]
               true bare_world in
  Str.contains Str.slash (name up) = true
  /\ segments (name up) = [EmptyString; "a.docx"]
  /\ staged.1 = Ok tt
  /\ Fs.stat (files staged.2) (staged_at ["tmp"; "input"] (name up)) = None
  /\ Fs.stat (files staged.2) ["tmp"; "input"; "a.docx"] = None
  /\ Fs.stat (files staged.2) ["a.docx"] = Some (File sample_bytes)
  /\ run.1 = Ok ([], [], ["tmp"; "t"; "output"])
  /\ ui run.2 = []
  /\ Fs.stat (files run.2) ["a.docx"] = Some (File sample_bytes).
Proof. vm_compute. repeat split. Qed.

(** C6, as stated, fails on the reserved name: a regular file named
    [uploaded.zip] has none of the five extensions, is not benign, and is
    not recorded as skipped. *)
Lemma reserved_name_is_not_skipped :
  let f := ["in"; "uploaded.zip"] in
  let run := process_folder_recursive sample_office ["in"] ["out"] true sample_world in
  Fs.isfile sample_tree f = true
  /\ Str.mem (Str.lower (Path.suffix f)) [".doc"; ".docx"; ".ppt"; ".pptx"; ".pdf"] = false
  /\ benign f = false
  /\ (exists conv skip, run.1 = Ok (conv, skip) /\ ~ In "uploaded.zip" skip).
Proof.
  vm_compute. repeat split.
  eexists _, _. split; [reflexivity|]. intros [H|[]]. discriminate.
Qed.

(** C9. The folder-upload path reports its records after the temporary
    directory is gone: [process_uploaded_files_with_structure] returns from
    inside the [with] block, so the output directory it hands back no
    longer exists, the reported PDF is not there, and the archive the page
    then builds from that directory is empty.  The individual-files block,
    which packs inside its [with] block, delivers the file. *)
Theorem folder_upload_reports_removed_output :
  let ups := [sample_upload "a.pdf"] in
  let run := process_uploaded_files_with_structure sample_office ["tmp"; "t"] ups true
               bare_world in
  run.1 = Ok ([converted_record ["a.pdf"] ["a.pdf"] "PDF (copied)"], [],
              ["tmp"; "t"; "output"])
  /\ Fs.stat (files run.2) ["tmp"; "t"; "output"; "a.pdf"] = None
  /\ Fs.isdir (files run.2) ["tmp"; "t"; "output"] = false
  /\ ui (folder_upload_block sample_office ["tmp"; "t"] ups true bare_world).2
     = [CopiedPdf "a.pdf"; Complete 1; Download "download_folder" (Zip [])]
  /\ ui (individual_upload_block sample_office ["tmp"; "t"] ups bare_world).2
     = [CopiedPdf "a.pdf"; Complete 1;
        Download "download_individual" (Zip [("a.pdf", sample_bytes)])].
Proof. vm_compute. repeat split. Qed.

(** ** Packing and unpacking *)

Lemma add_to_zip_run (folder rel : path) (members : archive) (w : world) :
  add_to_zip folder (folder ++ rel) members w
  = (Ok (members ++ map member_of (file_entries (files w) folder [rel])), w).
Proof.
  unfold add_to_zip, file_entries, flat_map.
  rewrite (bind_ok _ _ _ _ _ (is_file_run (folder ++ rel) w)).
  unfold Fs.isfile.
  destruct (Fs.stat (files w) (folder ++ rel)) as [[c|]|] eqn:E.
  - rewrite (bind_ok _ _ _ _ _ (relative_to_run folder rel w)).
    unfold Fs.read_file, bind, get_files, ret. cbn [files]. now rewrite E.
  - unfold ret. cbn [map app]. now rewrite app_nil_r.
  - unfold ret. cbn [map app]. now rewrite app_nil_r.
Qed.

Lemma file_entries_cons (m : gmap path node) (folder rel : path) (rels : list path) :
  file_entries m folder (rel :: rels)
  = file_entries m folder [rel] ++ file_entries m folder rels.
Proof. unfold file_entries. simpl. now rewrite app_nil_r. Qed.

Lemma pack_run (folder : path) (rels : list path) (members : archive) (w : world) :
  for_fold (add_to_zip folder) (map (app folder) rels) members w
  = (Ok (members ++ map member_of (file_entries (files w) folder rels)), w).
Proof.
  revert members; induction rels as [|rel rels IH]; intros members.
  - unfold ret, file_entries. simpl. now rewrite app_nil_r.
  - cbn [map for_fold].
    rewrite (bind_ok _ _ _ _ _ (add_to_zip_run folder rel members w)).
    rewrite IH. rewrite (file_entries_cons _ _ rel rels), map_app.
    now rewrite <- app_assoc.
Qed.

Lemma in_file_entries (m : gmap path node) (folder : path) (rels : list path)
    (rel : path) (c : data) :
  In (rel, c) (file_entries m folder rels)
  <-> In rel rels /\ Fs.stat m (folder ++ rel) = Some (File c).
Proof.
  unfold file_entries. rewrite in_flat_map. split.
  - intros (rel' & Hin & H).
    destruct (Fs.stat m (folder ++ rel')) as [[c'|]|] eqn:E;
      [|destruct H|destruct H].
    destruct H as [H|[]]. injection H as -> ->. auto.
  - intros [Hin E]. exists rel. split; [assumption|]. rewrite E. now left.
Qed.

(** The archive of a folder holds one member per regular file below it. *)
Lemma create_zip_run (folder : path) (w : world) :
  exists rels,
    create_zip_from_folder folder w
    = (Ok (Zip (map member_of (file_entries (files w) folder rels))), w)
    /\ NoDup rels
    /\ (forall rel, In rel rels <->
          Fs.isdir (files w) folder = true /\ rel <> []
          /\ is_Some (files w !! (folder ++ rel))).
Proof.
  destruct (rglob_rels (files w) folder) as (rels & Hl & Hnd & _ & Hin).
  exists rels. split; [|split; assumption].
  unfold create_zip_from_folder, bind at 1, get_files. cbn [files].
  rewrite Hl. unfold bind. rewrite pack_run. reflexivity.
Qed.

Lemma last_join_split (c : ascii) (s : string) :
  exists l x, Str.split c s = l ++ [x].
Proof.
  destruct (exists_last (split_nonempty c s)) as (l & x & H). eauto.
Qed.

Lemma extract_member_file (target rel : path) (c : data) (w : world) :
  rel <> [] -> Forall proper rel ->
  extract_member target (member_of (rel, c)) w = extract_file target rel c w.
Proof.
  intros Hne Hp. unfold extract_member, member_of. cbn [fst snd].
  assert (Hstr : Path.rel_str rel = Str.join Str.slash rel)
    by (destruct rel; [congruence|reflexivity]).
  assert (Hsplit : Str.split Str.slash (Path.rel_str rel) = rel).
  { rewrite Hstr. apply split_join; [assumption|].
    eapply Forall_impl; [eassumption|]. now intros x [? _]. }
  assert (Hfil : List.filter valid_part rel = rel).
  { apply filter_all. eapply Forall_impl; [eassumption|]. now intros x [_ ?]. }
  assert (Hend : ends_with_slash (Path.rel_str rel) = false).
  { unfold ends_with_slash. rewrite Hsplit.
    destruct (exists_last Hne) as (l & x & ->). rewrite last_snoc.
    apply Forall_app in Hp as [_ Hx]. inversion Hx as [|? ? [_ Hv] _]; subst.
    destruct x; [discriminate|reflexivity]. }
  rewrite Hsplit, Hfil, Hend. destruct rel as [|x rel]; [congruence|]. reflexivity.
Qed.

Lemma prefix_app_cases (d chain p : path) :
  p `prefix_of` (d ++ chain) ->
  p `prefix_of` d \/ exists q, p = d ++ q /\ q `prefix_of` chain.
Proof.
  revert p; induction d as [|x d IH]; intros p Hp; simpl in *.
  - right. exists p. auto.
  - destruct p as [|y p]; [left; apply prefix_nil|].
    apply prefix_cons_inv_1 in Hp as Hx. apply prefix_cons_inv_2 in Hp. subst y.
    destruct (IH p Hp) as [H|(q & -> & Hq)].
    + left. now apply prefix_cons.
    + right. exists q. auto.
Qed.

(** The directories above a member are made ready without touching a file. *)
Lemma prepare_parent (parent_dir : path) (w : world) :
  (forall q, q `prefix_of` parent_dir -> Fs.isfile (files w) q = false) ->
  exists w1,
    (let* m := get_files in
     if bool_decide (is_Some (Fs.stat m parent_dir)) then ret tt
     else Fs.mkdir_parents parent_dir) w = (Ok tt, w1)
    /\ ui w1 = ui w
    /\ Fs.isdir (files w1) parent_dir = true
    /\ (forall p c, Fs.stat (files w1) p = Some (File c)
                    <-> Fs.stat (files w) p = Some (File c))
    /\ (forall p, Fs.isdir (files w) p = true -> Fs.isdir (files w1) p = true)
    /\ (forall p, Fs.isdir (files w1) p = true ->
          Fs.isdir (files w) p = true \/ p `prefix_of` parent_dir).
Proof.
  intros Hfree. unfold bind at 1, get_files.
  destruct (bool_decide (is_Some (Fs.stat (files w) parent_dir))) eqn:E.
  - apply bool_decide_eq_true in E as [n Hn]. exists w. unfold ret.
    split; [reflexivity|]. split; [reflexivity|]. split.
    { specialize (Hfree parent_dir (reflexivity _)). unfold Fs.isfile in Hfree.
      unfold Fs.isdir. rewrite Hn in *. now destruct n. }
    split; [tauto|]. split; auto.
  - destruct (mkdir_chain_total parent_dir [] w) as [w1 Hm].
    { intros q _ Hq. now apply Hfree. }
    exists w1. split; [exact Hm|]. split; [eapply mkdir_chain_ui; eauto|]. split.
    { apply (mkdir_chain_ok _ _ _ _ Hm parent_dir); [|reflexivity].
      intros ->. apply bool_decide_eq_false in E. apply E. simpl. eauto. }
    split; [eapply mkdir_chain_files; eauto|].
    split; [eapply mkdir_chain_dirs; eauto|].
    intros p Hp. destruct (mkdir_chain_new_dirs _ _ _ _ _ Hm p Hp)
      as [?|(q & _ & Hq & ->)]; auto.
Qed.

Lemma extract_file_step (d rel : path) (c : data) (w : world)
    (done : list (path * data)) :
  extracted d (files w) done -> rel <> [] ->
  (forall rel' c', In (rel', c') done -> apart rel rel') ->
  exists w',
    extract_file d rel c w = (Ok tt, w')
    /\ ui w' = ui w
    /\ extracted d (files w') ((rel, c) :: done).
Proof.
  intros (Hd & Hpre & Hfiles & Hdirs) Hne Hapart.
  destruct (exists_last Hne) as (chain & leaf & Hcl).
  assert (Htarget : d ++ rel = (d ++ chain) ++ [leaf])
    by (rewrite Hcl; apply app_assoc).
  assert (Hpar : Path.parent (d ++ rel) = d ++ chain)
    by (rewrite Htarget; apply parent_snoc).
  assert (Hfresh : forall c', ~ In (rel, c') done).
  { intros c' Hin. destruct (Hapart _ _ Hin) as [H _]. now apply H. }
  assert (F1 : forall q, q `prefix_of` chain -> Fs.isfile (files w) (d ++ q) = false).
  { intros q [q' Hq]. destruct (Fs.isfile (files w) (d ++ q)) eqn:E; [|reflexivity].
    apply isfile_stat in E as [c0 Hc0]. apply Hfiles in Hc0.
    destruct (Hapart _ _ Hc0) as [_ H]. exfalso. apply H.
    exists (q' ++ [leaf]). now rewrite Hcl, Hq, app_assoc. }
  assert (F2 : forall p, p `prefix_of` (d ++ chain) -> Fs.isfile (files w) p = false).
  { intros p Hp. destruct (prefix_app_cases _ _ _ Hp) as [H|(q & -> & Hq)]; auto. }
  assert (F3 : Fs.isdir (files w) (d ++ rel) = false).
  { destruct (Fs.isdir (files w) (d ++ rel)) eqn:E; [|reflexivity].
    destruct (Hdirs _ E) as [?|(rel' & c' & q & Hin & Hq & _)]; [congruence|].
    destruct (Hapart _ _ Hin) as [H _]. exfalso. apply H. now exists q. }
  destruct (prepare_parent (d ++ chain) w F2)
    as (w1 & Hprep & Hu1 & Hd1 & Hf1 & Hk1 & Hn1).
  assert (Ht1 : Fs.isdir (files w1) (d ++ rel) = false).
  { destruct (Fs.isdir (files w1) (d ++ rel)) eqn:E; [|reflexivity].
    destruct (Hn1 _ E) as [?|Hp]; [congruence|].
    rewrite Htarget in Hp. now apply prefix_snoc_not in Hp. }
  exists (World (<[d ++ rel := File c]> (files w1)) (ui w1)).
  split; [|split; [assumption|]].
  { unfold extract_file. rewrite Hpar.
    unfold bind at 1. unfold bind at 1 in Hprep.
    unfold get_files in *. cbv beta iota in *.
    rewrite (bind_ok _ _ _ _ _ Hprep).
    apply write_file_total; [now rewrite Hpar|assumption]. }
  assert (Hnt : d ++ rel <> []) by (rewrite Htarget; apply snoc_not_nil).
  cbn [files]. split; [|split; [|split]].
  - apply (insert_file_keeps _ _ _ Ht1). auto.
  - intros q Hq. destruct (Fs.isfile _ q) eqn:E; [|reflexivity].
    apply isfile_stat in E as [c0 Hc0].
    rewrite stat_insert_ne in Hc0.
    + apply Hf1 in Hc0.
      assert (Fs.isfile (files w) q = true) by (apply isfile_stat; eauto).
      rewrite Hpre in H by assumption. discriminate.
    + intros <-. apply prefix_length in Hq. rewrite length_app in Hq.
      destruct rel; [congruence|simpl in Hq; lia].
  - intros rel0 c0. destruct (decide (rel0 = rel)) as [->|Hr].
    + rewrite stat_insert_eq by assumption. split.
      * intros [= <-]. now left.
      * intros [[= <-]|Hin]; [reflexivity|]. now apply Hfresh in Hin.
    + rewrite stat_insert_ne by (intros E; apply app_inv_head in E; congruence).
      rewrite Hf1, Hfiles. split; [now right|].
      intros [[= -> _]|Hin]; [congruence|assumption].
  - intros rel0 Hdir. apply isdir_stat in Hdir.
    destruct (decide (rel0 = rel)) as [->|Hr].
    { rewrite stat_insert_eq in Hdir by assumption. discriminate. }
    rewrite stat_insert_ne in Hdir
      by (intros E; apply app_inv_head in E; congruence).
    apply isdir_stat in Hdir. destruct (Hn1 _ Hdir) as [H|H].
    + destruct (Hdirs _ H) as [?|(rel' & c' & q & Hin & Hq & Hqn)]; [now left|].
      right. exists rel', c', q. split; [now right|auto].
    + apply prefix_app_inv in H as [q Hq].
      destruct (decide (rel0 = [])) as [?|Hn0]; [now left|]. right.
      exists rel, c, (q ++ [leaf]). split; [now left|]. split.
      * now rewrite Hcl, Hq, app_assoc.
      * destruct q; discriminate.
Qed.

Lemma extract_entries (d : path) (entries : list (path * data)) :
  forall (w : world) (done : list (path * data)),
    extracted d (files w) done ->
    Forall (fun e => e.1 <> [] /\ Forall proper e.1) entries ->
    NoDup (map fst entries) ->
    (forall e e', In e entries -> In e' entries -> e.1 <> e'.1 -> apart e.1 e'.1) ->
    (forall e e', In e entries -> In e' done -> apart e.1 e'.1) ->
    exists w',
      for_each (extract_member d) (map member_of entries) w = (Ok tt, w')
      /\ ui w' = ui w
      /\ extracted d (files w') (rev entries ++ done).
Proof.
  induction entries as [|[rel c] entries IH]; intros w done Hinv Hall Hnd Hin Hout.
  - exists w. split; [reflexivity|]. split; [reflexivity|assumption].
  - apply Forall_cons in Hall as [[Hne Hp] Hall]. cbn [fst] in Hne, Hp.
    cbn [map fst] in Hnd. apply NoDup_cons in Hnd as [Hni Hnd].
    destruct (extract_file_step d rel c w done Hinv Hne) as (w1 & Hstep & Hu1 & Hinv1).
    { intros rel' c' Hd. apply (Hout (rel, c) (rel', c')); [now left|assumption]. }
    destruct (IH w1 ((rel, c) :: done) Hinv1 Hall Hnd) as (w' & Hrun & Hu & Hinv').
    { intros e e' He He'. apply Hin; now right. }
    { intros e e' He [<-|He'].
      - apply Hin; [now right|now left|]. cbn [fst]. intros E. apply Hni.
        rewrite <- E. apply list_elem_of_In, in_map, He.
      - apply Hout; [now right|assumption]. }
    exists w'. split; [|split; [congruence|]].
    + unfold for_each in *. cbn [map for_fold].
      rewrite <- extract_member_file in Hstep by assumption.
      rewrite (bind_ok _ _ _ _ _ Hstep). exact Hrun.
    + cbn [rev]. now rewrite <- app_assoc.
Qed.

Lemma file_entries_fst (m : gmap path node) (folder : path) (rels : list path)
    (e : path * data) :
  In e (file_entries m folder rels) ->
  In e.1 rels /\ Fs.stat m (folder ++ e.1) = Some (File e.2).
Proof. destruct e as [rel c]. apply in_file_entries. Qed.

Lemma NoDup_file_entries (m : gmap path node) (folder : path) (rels : list path) :
  NoDup rels -> NoDup (map fst (file_entries m folder rels)).
Proof.
  induction 1 as [|rel rels Hni Hnd IH]; [constructor|].
  rewrite file_entries_cons, map_app. unfold file_entries at 1. cbn [flat_map].
  destruct (Fs.stat m (folder ++ rel)) as [[c|]|]; cbn [map app fst]; try assumption.
  constructor; [|assumption]. intros Hin. apply Hni.
  apply list_elem_of_In in Hin. apply in_map_iff in Hin as (e & <- & He).
  apply list_elem_of_In. now apply file_entries_fst in He as [? _].
Qed.

(** C8. Packing a folder into an archive and extracting that archive into
    an empty directory reproduces the folder's regular files: a relative
    path holds a file with given bytes in the extracted tree exactly when
    it does in the original one.  The names of the tree are proper file
    names and nothing lies below a regular file, as in any file system. *)
Theorem zip_round_trip (folder zip_path d : path) (w0 w : world) (z : data) :
  names_proper (files w0) ->
  files_are_leaves (files w0) ->
  Fs.isdir (files w0) folder = true ->
  (create_zip_from_folder folder w0).1 = Ok z ->
  Fs.stat (files w) zip_path = Some (File z) ->
  empty_dir (files w) d ->
  exists w',
    extractall zip_path d w = (Ok tt, w')
    /\ forall rel c,
         Fs.stat (files w') (d ++ rel) = Some (File c)
         <-> Fs.stat (files w0) (folder ++ rel) = Some (File c).
Proof.
  intros Hnames Hleaves Hdir Hzip Hstored (Hd & Hempty & Hreach).
  destruct (create_zip_run folder w0) as (rels & Hrun & Hnd & Hrels).
  rewrite Hrun in Hzip. injection Hzip as <-.
  set (entries := file_entries (files w0) folder rels) in *.
  assert (Hkey : forall rel c, Fs.stat (files w0) (folder ++ rel) = Some (File c) ->
                   rel <> [] /\ files w0 !! (folder ++ rel) = Some (File c)).
  { intros rel c Hc. assert (Hne : rel <> []).
    { intros ->. rewrite app_nil_r in Hc. apply isdir_stat in Hdir. congruence. }
    split; [assumption|]. rewrite stat_nonempty in Hc; [assumption|].
    destruct folder, rel; simpl; congruence. }
  assert (Hinit : extracted d (files w) []).
  { split; [assumption|]. split; [assumption|]. split.
    - intros rel c. split; [|intros []]. intros Hc.
      destruct rel as [|x rel].
      + rewrite app_nil_r in Hc. apply isdir_stat in Hd. congruence.
      + rewrite stat_nonempty in Hc by (destruct d; discriminate).
        rewrite Hempty in Hc by discriminate. discriminate.
    - intros rel Hr. destruct rel as [|x rel]; [now left|].
      apply isdir_stat in Hr.
      rewrite stat_nonempty in Hr by (destruct d; discriminate).
      rewrite Hempty in Hr by discriminate. discriminate. }
  destruct (extract_entries d entries w [] Hinit) as (w' & Hext & _ & Hinv).
  - apply Forall_forall. intros e He%list_elem_of_In.
    apply file_entries_fst in He as [Hin Hc]. apply Hkey in Hc as [Hne Hc].
    split; [assumption|].
    assert (Hp : Forall proper (folder ++ e.1)) by (apply Hnames; eauto).
    now apply Forall_app in Hp as [_ ?].
  - now apply NoDup_file_entries.
  - assert (Hhalf : forall e e', In e entries -> In e' entries -> e.1 <> e'.1 ->
                      ~ e.1 `prefix_of` e'.1).
    { intros e e' He He' Hdiff [q Hq].
      apply file_entries_fst in He as [_ Hc], He' as [_ Hc'].
      apply Hkey in Hc' as [_ Hc'].
      assert (Hf : Fs.isfile (files w0) (folder ++ e.1) = true)
        by (apply isfile_stat; eauto).
      assert (Hq0 : q <> []) by (intros ->; rewrite app_nil_r in Hq; congruence).
      pose proof (Hleaves _ q Hf Hq0) as Hnone.
      rewrite <- app_assoc, <- Hq in Hnone. congruence. }
    intros e e' He He' Hdiff. split; [now apply Hhalf|].
    apply Hhalf; auto.
  - intros e e' _ [].
  - exists w'. split.
    + unfold extractall, Fs.read_file, bind, get_files. cbv beta iota.
      rewrite Hstored. unfold ret. exact Hext.
    + intros rel c. destruct Hinv as (_ & _ & Hfiles & _).
      rewrite Hfiles, app_nil_r, <- in_rev. unfold entries.
      rewrite in_file_entries. split; [tauto|]. intros Hc. split; [|assumption].
      apply Hrels. destruct (Hkey _ _ Hc) as [Hne Hl]. eauto.
Qed.

Lemma names_proper_check_sound (m : gmap path node) :
  names_proper_check m = true -> names_proper m.
Proof.
  unfold names_proper_check, names_proper. intros H k Hk.
  rewrite forallb_forall in H. apply in_keys in Hk. specialize (H k Hk).
  rewrite forallb_forall in H. apply Forall_forall. intros x Hx%list_elem_of_In.
  apply H in Hx. apply andb_true_iff in Hx as [H1 H2].
  split; [now apply negb_true_iff in H1|assumption].
Qed.

Lemma files_are_leaves_check_sound (m : gmap path node) :
  files_are_leaves_check m = true -> files_are_leaves m.
Proof.
  unfold files_are_leaves_check, files_are_leaves. intros H p q Hp Hq.
  destruct (m !! (p ++ q)) as [n|] eqn:E; [|reflexivity]. exfalso.
  rewrite forallb_forall in H.
  assert (Hk : In (p ++ q) (map_to_list m).*1) by (apply in_keys; eauto).
  specialize (H _ Hk). rewrite forallb_forall in H.
  assert (Hi : In p (inits (p ++ q))) by (apply prefix_in_inits; now exists q).
  apply H in Hi. rewrite Hp in Hi. simpl in Hi.
  apply bool_decide_eq_true in Hi. apply Hq.
  apply (app_inv_head p). now rewrite app_nil_r.
Qed.

Lemma empty_dir_check_sound (m : gmap path node) (d : path) :
  empty_dir_check m d = true -> empty_dir m d.
Proof.
  unfold empty_dir_check, empty_dir.
  intros [[H1 H2]%andb_true_iff H3]%andb_true_iff.
  split; [assumption|]. split.
  - intros q Hq. destruct (m !! (d ++ q)) as [n|] eqn:E; [|reflexivity]. exfalso.
    rewrite forallb_forall in H2.
    assert (Hk : In (d ++ q) (map_to_list m).*1) by (apply in_keys; eauto).
    apply H2 in Hk. apply negb_true_iff in Hk.
    assert (Fs.below d (d ++ q) = true) by (apply below_spec; eauto). congruence.
  - intros q Hq. unfold chain_free_check in H3. rewrite forallb_forall in H3.
    apply prefix_in_inits, H3 in Hq. now apply negb_true_iff in Hq.
Qed.

Lemma zip_round_trip_witness :
  packed_archive = Zip [("a.pdf", sample_bytes); ("reports/q1.pdf", other_bytes)]
  /\ exists w',
       extractall ["up.zip"] ["x"] unpack_world = (Ok tt, w')
       /\ Fs.stat (files w') ["x"; "reports"; "q1.pdf"] = Some (File other_bytes)
       /\ Fs.stat (files w') ["x"; "a.pdf"] = Some (File sample_bytes).
Proof.
  split; [vm_compute; reflexivity|].
  destruct (zip_round_trip ["out"] ["up.zip"] ["x"] (World packed_tree [])
              unpack_world packed_archive) as (w' & H1 & H2).
  - apply names_proper_check_sound. vm_compute. reflexivity.
  - apply files_are_leaves_check_sound. vm_compute. reflexivity.
  - vm_compute. reflexivity.
  - vm_compute. reflexivity.
  - vm_compute. reflexivity.
  - apply empty_dir_check_sound. vm_compute. reflexivity.
  - exists w'. split; [exact H1|]. split.
    + apply (H2 ["reports"; "q1.pdf"]). vm_compute. reflexivity.
    + apply (H2 ["a.pdf"]). vm_compute. reflexivity.
Defined.

(** A user's own file named [uploaded.zip] is passed over in the
    individual-files and in the folder-upload pipeline as well, where the
    staging area holds no file of that name otherwise. *)
Example user_supplied_reserved_name :
  let ups := [sample_upload "uploaded.zip"; sample_upload "b.docx"] in
  ui (individual_upload_block sample_office ["tmp"; "t"] ups bare_world).2
  = [Converted "b.docx" "b.pdf"; Complete 1;
     Download "download_individual" (Zip [("b.pdf", sample_bytes)])]
  /\ (process_uploaded_files_with_structure sample_office ["tmp"; "t"] ups true
        bare_world).1
     = Ok ([converted_record ["b.docx"] ["b.pdf"] ".DOCX"], [], ["tmp"; "t"; "output"]).
Proof. vm_compute. split; reflexivity. Qed.

(** Other names that leave the staging root or lose a piece: a name that
    climbs with [..] is kept as written by [pathlib] and resolved by the
    operating system above the staging root; an empty piece is dropped;
    a trailing separator makes the last directory the file. *)
Example improper_names :
  Path.joinpath ["tmp"; "input"] "../x.docx" = ["tmp"; "input"; ".."; "x.docx"]
  /\ Path.joinpath ["tmp"; "input"] "a//b.docx" = ["tmp"; "input"; "a"; "b.docx"]
  /\ segments "a//b.docx" = ["a"; EmptyString; "b.docx"]
  /\ Path.joinpath ["tmp"; "input"] "a/" = ["tmp"; "input"; "a"]
  /\ segments "a/" = ["a"; EmptyString].
Proof. repeat split; reflexivity. Qed.

(** Extensions are compared in lower case, and a name that is all
    extension has none. *)
Example extension_examples :
  is_valid_office_file ["in"; "Q1.DOCX"] = true
  /\ is_valid_office_file ["in"; "deck.PpTx"] = true
  /\ is_pdf ["in"; "SCAN.PDF"] = true
  /\ is_valid_office_file ["in"; ".docx"] = false
  /\ benign ["in"; ".docx"] = true
  /\ benign ["in"; "trace.LOG"] = true
  /\ benign ["in"; "n.csv"] = false
  /\ Path.suffix ["reports"; "q1.docx"] = ".docx"
  /\ Path.stem ["reports"; "q1.docx"] = "q1"
  /\ Path.suffix ["archive.tar.gz"] = ".gz"
  /\ Path.suffix ["notes."] = EmptyString.
Proof. repeat split; reflexivity. Qed.

(** * Further properties of the program *)

(** ** The folder-upload pipeline hands back a directory that is gone *)

Lemma bind_inv_ok {A B} (m : M A) (k : A -> M B) (w w2 : world) (b : B) :
  bind m k w = (Ok b, w2) -> exists a w1, m w = (Ok a, w1) /\ k a w1 = (Ok b, w2).
Proof.
  unfold bind. destruct (m w) as [[a|e] w1]; [eauto|discriminate].
Qed.

Lemma temporary_directory_ok {A} (temp_dir : path) (body : M A)
    (w w' : world) (a : A) :
  TemporaryDirectory temp_dir body w = (Ok a, w') ->
  exists w1 w2,
    Fs.os_mkdir temp_dir w = (Ok tt, w1) /\ body w1 = (Ok a, w2)
    /\ w' = World (filter (fun kv => Fs.inside temp_dir kv.1 = false) (files w2)) (ui w2).
Proof.
  unfold TemporaryDirectory. intros ([] & w1 & Hm & H)%bind_inv_ok.
  unfold try_finally in H. destruct (body w1) as [r w2] eqn:Hb.
  rewrite rmtree_run in H. injection H as -> <-. eauto.
Qed.

Lemma inside_app (d q : path) : Fs.inside d (d ++ q) = true.
Proof. unfold Fs.inside. now rewrite relative_to_app. Qed.

Lemma inside_spec (d p : path) : Fs.inside d p = true <-> d `prefix_of` p.
Proof.
  unfold Fs.inside. split.
  - destruct (Path.relative_to p d) as [rel|] eqn:E; [|discriminate].
    intros _. apply relative_to_Some in E. now exists rel.
  - intros [q ->]. now rewrite relative_to_app.
Qed.

Lemma create_zip_of_nothing (folder : path) (w : world) :
  Fs.isdir (files w) folder = false ->
  create_zip_from_folder folder w = (Ok (Zip []), w).
Proof.
  intros H. unfold create_zip_from_folder, bind, get_files, Fs.rglob.
  cbn [files]. now rewrite H.
Qed.

(** X1. Whatever is uploaded, when [process_uploaded_files_with_structure]
    returns its lists, the output directory it returns with them does not
    exist any more, nothing is left below it, and the archive that the
    page then builds from it is empty. *)
Theorem folder_upload_output_is_gone office tmp ups pres w conv skip out w' :
  process_uploaded_files_with_structure office tmp ups pres w
    = (Ok (conv, skip, out), w') ->
  out = tmp ++ ["output"]
  /\ Fs.isdir (files w') out = false
  /\ (forall p, out `prefix_of` p -> files w' !! p = None)
  /\ create_zip_from_folder out w' = (Ok (Zip []), w').
Proof.
  intros H. unfold process_uploaded_files_with_structure in H.
  pose proof (temporary_directory_gone _ _ _ _ _ H) as [(e & He & _)|Hgone];
    [discriminate|].
  apply temporary_directory_ok in H as (w1 & w2 & _ & Hbody & _).
  apply bind_inv_ok in Hbody as (a1 & wa & _ & Hbody).
  apply bind_inv_ok in Hbody as (a2 & wb & _ & Hbody).
  apply bind_inv_ok in Hbody as (a3 & wc & _ & Hbody).
  apply bind_inv_ok in Hbody as (r & wd & _ & Hbody).
  unfold ret in Hbody. injection Hbody as H1 H2 Hout H4.
  assert (Eout : out = tmp ++ ["output"]) by (rewrite <- Hout; reflexivity).
  assert (Hnone : forall p, out `prefix_of` p -> files w' !! p = None).
  { intros p [q ->]. apply Hgone. rewrite Eout, <- app_assoc. apply inside_app. }
  assert (Hd : Fs.isdir (files w') out = false).
  { unfold Fs.isdir. rewrite stat_nonempty by (rewrite Eout; apply snoc_not_nil).
    now rewrite Hnone. }
  split; [assumption|]. split; [assumption|]. split; [assumption|].
  now apply create_zip_of_nothing.
Qed.

Lemma folder_upload_output_is_gone_witness :
  let run := process_uploaded_files_with_structure sample_office ["tmp"; "t"]
               [sample_upload "reports/q1.docx"; sample_upload "a.pdf"] true
               bare_world in
  length (value_or ([], [], []) run.1).1.1 = 2
  /\ create_zip_from_folder ["tmp"; "t"; "output"] run.2 = (Ok (Zip []), run.2).
Proof.
  intros run. split; [vm_compute; reflexivity|].
  apply (folder_upload_output_is_gone sample_office ["tmp"; "t"]
           [sample_upload "reports/q1.docx"; sample_upload "a.pdf"] true bare_world
           (value_or ([], [], []) run.1).1.1 (value_or ([], [], []) run.1).1.2
           ["tmp"; "t"; "output"] run.2).
  vm_compute. reflexivity.
Defined.

(** ** Either separator *)

Lemma contains_replace_self (a b : ascii) (s : string) :
  a <> b -> Str.contains a (Str.replace a b s) = false.
Proof.
  intros Hab. unfold Str.replace. induction s as [|x s IH]; simpl; [reflexivity|].
  rewrite IH, orb_false_r. destruct (Ascii.eqb x a) eqn:E.
  - apply Ascii.eqb_neq. congruence.
  - assumption.
Qed.

Lemma contains_replace_other (a b : ascii) (s : string) :
  Str.contains b (Str.replace a b s) = Str.contains a s || Str.contains b s.
Proof.
  unfold Str.replace. induction s as [|x s IH]; simpl; [reflexivity|].
  rewrite IH. destruct (Ascii.eqb x a) eqn:E.
  - rewrite Ascii.eqb_refl. simpl. reflexivity.
  - simpl. destruct (Ascii.eqb x b); simpl; [now rewrite orb_true_r|reflexivity].
Qed.

Lemma save_upload_normalized (input_dir : path) (up : UploadedFile) :
  save_upload input_dir (normalized up) = save_upload input_dir up.
Proof.
  unfold save_upload, normalized. cbn [name getvalue].
  assert (Hne : Str.backslash <> Str.slash) by discriminate.
  rewrite (contains_replace_self _ _ (name up) Hne), contains_replace_other.
  rewrite (replace_absent Str.backslash Str.slash
             (Str.replace Str.backslash Str.slash (name up)))
    by now apply contains_replace_self.
  cbn [orb].
  destruct (Str.contains Str.backslash (name up)) eqn:Hb; [reflexivity|].
  cbn [orb]. now rewrite (replace_absent _ _ (name up) Hb).
Qed.

Lemma stage_normalized (input_dir : path) (ups : list UploadedFile) (w : world) :
  for_each (save_upload input_dir) (map normalized ups) w
  = for_each (save_upload input_dir) ups w.
Proof.
  unfold for_each. generalize tt. revert w.
  induction ups as [|up ups IH]; intros w u; [reflexivity|].
  cbn [map for_fold]. rewrite save_upload_normalized. unfold bind.
  destruct (save_upload input_dir up w) as [[a|e] w1]; [apply IH|reflexivity].
Qed.

(** X2. A backslash in an uploaded name is a separator like the slash: the
    folder-upload pipeline does with a batch exactly what it does with the
    same batch under normalized names. *)
Theorem separators_are_interchangeable office tmp ups pres w :
  process_uploaded_files_with_structure office tmp (map normalized ups) pres w
  = process_uploaded_files_with_structure office tmp ups pres w.
Proof.
  unfold process_uploaded_files_with_structure, TemporaryDirectory.
  unfold bind at 1 6. destruct (Fs.os_mkdir tmp w) as [[[]|e] w1]; [|reflexivity].
  unfold try_finally. f_equal.
  unfold bind at 1 5.
  destruct (Fs.os_mkdir (Path.joinpath tmp "input") w1) as [[[]|e] w2];
    [|reflexivity].
  unfold bind at 1 4.
  destruct (Fs.os_mkdir (Path.joinpath tmp "output") w2) as [[[]|e] w3];
    [|reflexivity].
  unfold bind at 1 3. now rewrite stage_normalized.
Qed.

(** ** Invariants of the walk *)

Section Walk.

Variable office : office_app -> path -> gmap path node -> automation.

(** A property of the two lists and the world that every visit keeps holds
    when the walk is over. *)
Lemma walk_invariant (I : list ConversionRecord * list string -> world -> Prop)
    folder out pres (rels : list path) :
  (forall rel acc w acc' w',
     In rel rels -> I acc w ->
     visit office folder out pres (folder ++ rel) acc w = (Ok acc', w') ->
     I acc' w') ->
  forall acc w acc' w',
    I acc w ->
    for_fold (visit office folder out pres) (map (app folder) rels) acc w
      = (Ok acc', w') ->
    I acc' w'.
Proof.
  induction rels as [|rel rels IH]; intros Hstep acc w acc' w' HI Hrun.
  - injection Hrun as <- <-. assumption.
  - cbn [map for_fold] in Hrun.
    apply bind_inv_ok in Hrun as (acc1 & w1 & Hv & Hrun).
    apply (IH (fun rel0 a0 w0 a1 w1' Hin => Hstep rel0 a0 w0 a1 w1' (or_intror Hin))
              acc1 w1 acc' w'); [|assumption].
    apply (Hstep rel acc w acc1 w1); [now left|assumption|assumption].
Qed.

(** A run is the walk of the entries below the folder. *)
Lemma run_is_a_walk folder out pres w res w' :
  process_folder_recursive office folder out pres w = (Ok res, w') ->
  exists rels,
    for_fold (visit office folder out pres) (map (app folder) rels) ([], []) w
      = (Ok res, w')
    /\ Forall (fun rel => rel <> []) rels
    /\ (forall rel, In rel rels -> is_Some (files w !! (folder ++ rel))).
Proof.
  intros Hrun.
  destruct (Fs.isdir (files w) folder) eqn:Hd;
    [|rewrite not_a_folder in Hrun by assumption; discriminate].
  destruct (rglob_rels (files w) folder) as (rels & Hl & _ & Hne & Hin).
  exists rels. split; [|split; [assumption|]].
  - unfold process_folder_recursive in Hrun.
    rewrite (bind_ok _ _ _ _ _ (is_dir_run folder w)), Hd in Hrun.
    cbn [negb] in Hrun. cbv beta iota in Hrun.
    unfold bind, get_files in Hrun. cbn [files] in Hrun. now rewrite Hl in Hrun.
  - intros rel Hr. now apply Hin in Hr.
Qed.

(** The four ways a visit can go, with the state it leaves. *)
Lemma visit_cases folder out pres rel acc w acc' w' :
  rel <> [] ->
  visit office folder out pres (folder ++ rel) acc w = (Ok acc', w') ->
  let f := folder ++ rel in
  let dir := out ++ mirror pres rel in
  (acc' = acc /\ w' = w)
  \/ (acc' = (acc.1, acc.2 ++ [Path.rel_str rel]) /\ w' = w
      /\ Fs.isfile (files w) f = true
      /\ is_valid_office_file f = false /\ is_pdf f = false)
  \/ (is_valid_office_file f = true /\ Fs.isfile (files w) f = true
      /\ exists r1 w1,
           convert_file_to_pdf office f dir w = (r1, w1)
           /\ ((exists pdf_path pdf_rel,
                  r1 = Ok pdf_path /\ Path.relative_to pdf_path out = Some pdf_rel
                  /\ acc' = (acc.1 ++ [converted_record rel pdf_rel
                                         (Str.upper (Path.suffix f))], acc.2)
                  /\ w' = say (Converted (Path.rel_str rel) (Path.name pdf_path)) w1)
               \/ (exists e,
                     acc' = (acc.1, acc.2 ++ [Path.rel_str rel])
                     /\ w' = say (ConvertFailed (Path.rel_str rel) e) w1)))
  \/ (is_pdf f = true /\ Fs.isfile (files w) f = true
      /\ exists r1 w1,
           (Fs.mkdir_parents dir >>
            Fs.copy2 f (Path.joinpath dir (Path.name f))) w = (r1, w1)
           /\ ((exists pdf_rel,
                  r1 = Ok tt
                  /\ Path.relative_to (Path.joinpath dir (Path.name f)) out
                     = Some pdf_rel
                  /\ acc' = (acc.1 ++ [converted_record rel pdf_rel "PDF (copied)"],
                             acc.2)
                  /\ w' = say (CopiedPdf (Path.rel_str rel)) w1)
               \/ (exists e,
                     acc' = (acc.1, acc.2 ++ [Path.rel_str rel])
                     /\ w' = say (CopyFailed (Path.rel_str rel) e) w1))).
Proof.
  intros Hne Hv f dir. subst f dir.
  destruct (Fs.isfile (files w) (folder ++ rel)) eqn:Hf.
  2:{ rewrite visit_not_file in Hv by assumption. injection Hv as <- <-. now left. }
  destruct (reserved (folder ++ rel)) eqn:Hr.
  { rewrite visit_reserved in Hv by assumption. injection Hv as <- <-. now left. }
  destruct (is_valid_office_file (folder ++ rel)) eqn:Ho.
  { right. right. left. split; [reflexivity|]. split; [reflexivity|].
    rewrite visit_office in Hv by assumption.
    destruct (convert_file_to_pdf office (folder ++ rel) (out ++ mirror pres rel) w)
      as [[pdf_path|e] w1].
    - destruct (Path.relative_to pdf_path out) as [pdf_rel|] eqn:Hrt;
        injection Hv as <- <-; eexists _, _; (split; [reflexivity|]).
      + left. eauto 10.
      + right. eauto.
    - injection Hv as <- <-. eexists _, _. split; [reflexivity|]. right. eauto. }
  destruct (is_pdf (folder ++ rel)) eqn:Hp.
  { right. right. right. split; [reflexivity|]. split; [reflexivity|].
    rewrite visit_pdf in Hv by assumption.
    destruct ((Fs.mkdir_parents _ >> Fs.copy2 _ _) w) as [[[]|e] w1].
    - destruct (Path.relative_to _ out) as [pdf_rel|] eqn:Hrt;
        injection Hv as <- <-; eexists _, _; (split; [reflexivity|]).
      + left. eauto 10.
      + right. eauto.
    - injection Hv as <- <-. eexists _, _. split; [reflexivity|]. right. eauto. }
  rewrite visit_other in Hv by assumption. injection Hv as <- <-.
  destruct (benign (folder ++ rel)); [now left|]. right. left. auto.
Qed.

End Walk.

Section WalkFacts.

Variable office : office_app -> path -> gmap path node -> automation.

(** ** Every reported output is there when the walk returns *)

Lemma produced_exists_keeps out m m' r :
  keeps m m' -> produced_exists out m r -> produced_exists out m' r.
Proof.
  intros Hk (pr & Hp & [Hf|(Ht & Hd & n & Hn)]); exists pr; (split; [assumption|]).
  - left. now apply Hk.
  - right. split; [assumption|]. split; [now apply Hk|]. exists n. now apply Hk.
Qed.

Lemma attempt_keeps dir f target w r1 w1 :
  (Fs.mkdir_parents dir >> Fs.copy2 f target) w = (r1, w1) ->
  keeps (files w) (files w1) /\ ui w1 = ui w.
Proof.
  unfold bind. destruct (Fs.mkdir_parents dir w) as [[[]|e] wm] eqn:Hm.
  - intros Hc. apply copy2_keeps in Hc as [Hk Hu].
    split; [eapply keeps_trans; [eapply mkdir_chain_keeps; eauto|assumption]|].
    rewrite Hu. eapply mkdir_chain_ui; eauto.
  - intros [= <- <-]. split; [eapply mkdir_chain_keeps; eauto|].
    eapply mkdir_chain_ui; eauto.
Qed.

Lemma visit_keeps_produced folder out pres rel acc w acc' w' :
  rel <> [] ->
  (forall r, In r acc.1 -> produced_exists out (files w) r) ->
  visit office folder out pres (folder ++ rel) acc w = (Ok acc', w') ->
  forall r, In r acc'.1 -> produced_exists out (files w') r.
Proof.
  intros Hne Hold Hv.
  destruct (visit_cases office folder out pres rel acc w acc' w' Hne Hv)
    as [[-> ->]|[(-> & -> & _)|[(_ & _ & r1 & w1 & Hc & Hres)|(_ & _ & r1 & w1 & Hc & Hres)]]];
    try assumption.
  - apply convert_file_to_pdf_spec in Hc as (Hk & _ & Hp).
    destruct Hres as [(pdf_path & pdf_rel & -> & Hrt & -> & ->)|(e & -> & ->)].
    + intros r [Hr|[<-|[]]]%in_app_iff.
      * apply (produced_exists_keeps _ _ _ _ Hk). now apply Hold.
      * exists pdf_rel. split; [reflexivity|]. left.
        destruct (Hp _ eq_refl) as [_ Hf]. apply relative_to_Some in Hrt.
        now rewrite <- Hrt.
    + intros r Hr. apply (produced_exists_keeps _ _ _ _ Hk). now apply Hold.
  - pose proof (attempt_keeps _ _ _ _ _ _ Hc) as [Hk _].
    destruct Hres as [(pdf_rel & -> & Hrt & -> & ->)|(e & -> & ->)].
    + intros r [Hr|[<-|[]]]%in_app_iff.
      * apply (produced_exists_keeps _ _ _ _ Hk). now apply Hold.
      * exists pdf_rel. split; [reflexivity|].
        apply relative_to_Some in Hrt. rewrite <- Hrt.
        apply bind_inv_ok in Hc as ([] & wm & Hm & Hcp).
        apply copy2_ok in Hcp as (c & _ & Hfiles & _ & _ & _).
        cbn [say files]. rewrite Hfiles. unfold copy_target.
        destruct (Fs.isdir (files wm) _) eqn:Hd.
        -- right. split; [reflexivity|]. split.
           ++ apply isdir_stat.
              rewrite stat_insert_ne; [now apply isdir_stat|].
              intros E. apply (f_equal length) in E. rewrite length_app in E.
              simpl in E. lia.
           ++ eexists. rewrite app_assoc, <- Hrt. apply isfile_stat. exists c.
              apply stat_insert_eq, snoc_not_nil.
        -- left. apply isfile_stat. exists c. apply stat_insert_eq.
           intros E. rewrite E in Hd. discriminate.
    + intros r Hr. apply (produced_exists_keeps _ _ _ _ Hk). now apply Hold.
Qed.

Lemma fold_produces folder out pres rels acc w acc' w' :
  Forall (fun rel => rel <> []) rels ->
  (forall r, In r acc.1 -> produced_exists out (files w) r) ->
  for_fold (visit office folder out pres) (map (app folder) rels) acc w
    = (Ok acc', w') ->
  forall r, In r acc'.1 -> produced_exists out (files w') r.
Proof.
  intros Hne Hstart Hwalk.
  apply (walk_invariant office
           (fun a w0 => forall r, In r a.1 -> produced_exists out (files w0) r)
           folder out pres rels) with (acc := acc) (w := w) (acc' := acc')
    (w' := w'); [|assumption|assumption].
  intros rel a w0 a' w0' Hin HI Hv.
  eapply visit_keeps_produced; eauto.
  rewrite Forall_forall in Hne. now apply Hne, list_elem_of_In.
Qed.

(** X3. When [process_folder_recursive] returns, the produced path of every
    ConversionRecord exists below the output base: as a regular file, or,
    for a copied PDF whose destination was an existing directory, as that
    directory, which received the copy under the name of its source. *)
Theorem records_exist_when_the_walk_returns folder out pres w conv skip w' :
  process_folder_recursive office folder out pres w = (Ok (conv, skip), w') ->
  forall r, In r conv -> produced_exists out (files w') r.
Proof.
  intros Hrun. apply run_is_a_walk in Hrun as (rels & Hwalk & Hne & _).
  apply (fold_produces folder out pres rels ([], []) w (conv, skip) w' Hne);
    [intros r []|assumption].
Qed.

(** ** Without Office *)

Lemma automate_needs_office app doc pdf_path w a w' :
  never_renders office -> automate office app doc pdf_path w <> (Ok a, w').
Proof.
  intros Hn. rewrite automate_eq. specialize (Hn app doc (files w)).
  destruct (office app doc (files w)) as [e|e|c|c e|c e];
    [discriminate|discriminate|contradiction| |];
    now destruct (Fs.write_file pdf_path c w) as [[[]|e0] w1].
Qed.

Lemma convert_needs_office f dir w p w' :
  never_renders office -> convert_file_to_pdf office f dir w <> (Ok p, w').
Proof.
  intros Hn. unfold convert_file_to_pdf. unfold bind at 1.
  destruct (Fs.mkdir_parents dir w) as [[[]|e] w1]; [|discriminate].
  unfold try_except, convert_doc_to_pdf, convert_pptx_to_pdf.
  assert (Hrun : forall app,
    match (let* _ := automate office app f
                       (Path.joinpath dir (Path.stem f +:+ ".pdf")) in
           ret (Path.joinpath dir (Path.stem f +:+ ".pdf"))) w1 with
    | (Ok a, w2) => (Ok a, w2)
    | (Raise e, w2) =>
        raise (ValueError ("Failed to convert " +:+ Path.name f +:+ ": "
                               +:+ exn_str e)) w2
    end <> (Ok p, w')).
  { intros app. unfold bind.
    destruct (automate office app f _ w1) as [[[]|e] w2] eqn:Ha.
    - exfalso. now apply (automate_needs_office _ _ _ _ _ _ Hn Ha).
    - discriminate. }
  destruct (Str.mem _ [".doc"; ".docx"]); [apply Hrun|].
  destruct (Str.mem _ [".ppt"; ".pptx"]); [apply Hrun|].
  unfold bind, raise. discriminate.
Qed.

Lemma office_type_is_short f :
  is_valid_office_file f = true -> Str.upper (Path.suffix f) <> "PDF (copied)".
Proof.
  unfold is_valid_office_file, Str.mem. intros H E.
  assert (Hlen : forall g s, String.length (Str.smap g s) = String.length s).
  { intros g s. induction s as [|a s IH]; simpl; congruence. }
  apply (f_equal String.length) in E. unfold Str.upper in E. rewrite Hlen in E.
  apply existsb_exists in H as (x & Hx & Hx'). apply String.eqb_eq in Hx'.
  apply (f_equal String.length) in Hx'. unfold Str.lower in Hx'.
  rewrite Hlen, E in Hx'. simpl in Hx.
  destruct Hx as [<-|[<-|[<-|[<-|[]]]]]; discriminate.
Qed.

(** X4. With an Office installation that never renders (none installed, or
    every document refused), the run still returns: every record it holds
    is a copied PDF, and every Office document of the tree is listed as
    skipped. *)
Theorem without_office_only_copies folder out pres w conv skip w' :
  never_renders office ->
  process_folder_recursive office folder out pres w = (Ok (conv, skip), w') ->
  (forall r, In r conv -> type r = "PDF (copied)")
  /\ (names_slash_free (files w) ->
      forall rel, rel <> [] -> Fs.isfile (files w) (folder ++ rel) = true ->
        is_valid_office_file (folder ++ rel) = true ->
        In (Path.rel_str rel) skip).
Proof.
  intros Hn Hrun.
  assert (Hconv : forall r, In r conv -> type r = "PDF (copied)").
  { pose proof Hrun as Hrun'.
    apply run_is_a_walk in Hrun' as (rels & Hwalk & Hne & _).
    apply (walk_invariant office
             (fun acc _ => forall r, In r acc.1 -> type r = "PDF (copied)")
             folder out pres rels) with (acc := ([], [])) (w := w)
      (acc' := (conv, skip)) (w' := w'); [|intros r []|assumption].
    intros rel acc w0 acc' w0' Hin HI Hv.
    assert (Hrel : rel <> [])
      by (rewrite Forall_forall in Hne; now apply Hne, list_elem_of_In).
    destruct (visit_cases office folder out pres rel acc w0 acc' w0' Hrel Hv)
      as [[-> ->]|[(-> & -> & _)|[(_ & _ & r1 & w1 & Hc & Hres)
                                  |(_ & _ & r1 & w1 & Hc & Hres)]]];
      try assumption.
    - destruct Hres as [(pdf_path & pdf_rel & -> & _)|(e & -> & ->)]; [|assumption].
      exfalso. now apply (convert_needs_office _ _ _ _ _ Hn Hc).
    - destruct Hres as [(pdf_rel & -> & Hrt & -> & ->)|(e & -> & ->)]; [|assumption].
      intros r [Hr|[<-|[]]]%in_app_iff; [now apply HI|reflexivity]. }
  split; [assumption|].
  intros Hnames rel Hne Hf Ho.
  destruct (walk_accounts office _ _ _ _ _ _ _ Hnames Hrun)
    as (rels & os & -> & -> & _ & _ & Hacc).
  destruct (Hacc rel Hne (isfile_is_Some _ _ _ Hne Hf)) as (o & Hspec & Hfil).
  destruct o as [|s|r]; simpl in Hspec.
  - destruct Hspec as [E|[E|[E _]]]; [congruence| |congruence].
    rewrite office_not_reserved in E by assumption. discriminate.
  - destruct Hspec as [-> _].
    assert (E : skips_of (Path.rel_str rel) (skips os) = [Path.rel_str rel])
      by (rewrite skips_of_skips, Hfil; reflexivity).
    assert (Hin : In (Path.rel_str rel) (skips_of (Path.rel_str rel) (skips os)))
      by (rewrite E; now left).
    unfold skips_of in Hin. now apply filter_In in Hin as [? _].
  - exfalso. destruct Hspec as (_ & _ & [(_ & Hty & _)|(E & _)]); [|congruence].
    apply (office_type_is_short _ Ho). rewrite <- Hty. apply Hconv.
    assert (E : records_of (Path.rel_str rel) (records os) = [r])
      by (rewrite records_of_records, Hfil; reflexivity).
    assert (Hin : In r (records_of (Path.rel_str rel) (records os)))
      by (rewrite E; now left).
    unfold records_of in Hin. now apply filter_In in Hin as [? _].
Qed.

End WalkFacts.

Lemma records_exist_when_the_walk_returns_witness :
  let run := process_folder_recursive sample_office ["in"] ["out"] true sample_world in
  produced_exists ["out"] (files run.2)
    (converted_record ["reports"; "q1.docx"] ["reports"; "q1.pdf"] ".DOCX")
  /\ produced_exists ["out"] (files run.2)
       (converted_record ["a.pdf"] ["a.pdf"] "PDF (copied)").
Proof.
  intros run.
  pose proof (records_exist_when_the_walk_returns sample_office ["in"] ["out"] true
                sample_world (converted_of run.1) (skipped_of run.1) run.2) as H.
  split; apply H; try (vm_compute; reflexivity); vm_compute; tauto.
Defined.

Lemma without_office_only_copies_witness :
  let run := process_folder_recursive no_office ["in"] ["out"] true sample_world in
  never_renders no_office
  /\ In "reports/q1.docx" (skipped_of run.1)
  /\ forall r, In r (converted_of run.1) -> type r = "PDF (copied)".
Proof.
  intros run.
  assert (Hn : never_renders no_office) by (intros app doc m; exact I).
  split; [exact Hn|].
  destruct (without_office_only_copies no_office ["in"] ["out"] true sample_world
              (converted_of run.1) (skipped_of run.1) run.2 Hn) as [H1 H2].
  - vm_compute. reflexivity.
  - split; [|exact H1].
    apply (H2 (names_slash_free_check_sound sample_tree
                 (eq_refl : names_slash_free_check sample_tree = true))
              ["reports"; "q1.docx"]).
    + discriminate.
    + vm_compute. reflexivity.
    + vm_compute. reflexivity.
Defined.

Section WalkFrame.

Variable office : office_app -> path -> gmap path node -> automation.

(** ** What a walk leaves alone *)

Lemma mkdir_parents_frame (dir : path) (w w1 : world) (r : result unit) :
  Fs.mkdir_parents dir w = (r, w1) ->
  forall p, is_Some (Fs.stat (files w) p) \/ ~ p `prefix_of` dir ->
    Fs.stat (files w1) p = Fs.stat (files w) p.
Proof.
  unfold Fs.mkdir_parents. intros Hm p Hp.
  destruct (Fs.stat (files w) p) as [[c|]|] eqn:Hs.
  - now apply (mkdir_chain_files _ _ _ _ _ Hm).
  - apply isdir_stat, (mkdir_chain_dirs _ _ _ _ _ Hm), isdir_stat. assumption.
  - destruct Hp as [[? ?]|Hp]; [discriminate|].
    destruct (Fs.stat (files w1) p) as [[c|]|] eqn:Hs1; [| |reflexivity].
    + apply (mkdir_chain_files _ _ _ _ _ Hm) in Hs1. congruence.
    + exfalso. apply isdir_stat in Hs1.
      apply (mkdir_chain_new_dirs _ _ _ _ _ Hm) in Hs1 as [Hd|(q & _ & Hq & ->)].
      * apply isdir_stat in Hd. congruence.
      * now apply Hp.
Qed.

Lemma left_alone_chain (out q : path) (m : gmap path node) (p : path) :
  left_alone out m p -> is_Some (Fs.stat m p) \/ ~ p `prefix_of` (out ++ q).
Proof.
  intros [Hout [Hs|Hp]]; [now left|right]. intros Hpre.
  apply prefix_app_cases in Hpre as [Hpre|(k & -> & _)]; [now apply Hp|].
  apply Hout. now exists k.
Qed.

Lemma automate_frame app doc pdf_path w r w1 :
  automate office app doc pdf_path w = (r, w1) ->
  forall p, p <> pdf_path -> Fs.stat (files w1) p = Fs.stat (files w) p.
Proof.
  intros [(e & _ & ->)|(c & Hw)]%automate_cases p Hp; [reflexivity|].
  apply write_file_ok in Hw as (-> & _). apply stat_insert_ne. congruence.
Qed.

Lemma convert_frame f dir w r w1 :
  convert_file_to_pdf office f dir w = (r, w1) ->
  forall p, is_Some (Fs.stat (files w) p) \/ ~ p `prefix_of` dir ->
    p <> Path.joinpath dir (Path.stem f +:+ ".pdf") ->
    Fs.stat (files w1) p = Fs.stat (files w) p.
Proof.
  unfold convert_file_to_pdf. unfold bind at 1.
  destruct (Fs.mkdir_parents dir w) as [[[]|e] wm] eqn:Hm.
  2:{ intros [= <- <-] p Hp _. eapply mkdir_parents_frame; eauto. }
  intros Hc p Hp Hne. rewrite <- (mkdir_parents_frame _ _ _ _ Hm p Hp).
  revert Hc. unfold try_except, convert_doc_to_pdf, convert_pptx_to_pdf.
  assert (Hrun : forall app,
    match (let* _ := automate office app f
                       (Path.joinpath dir (Path.stem f +:+ ".pdf")) in
           ret (Path.joinpath dir (Path.stem f +:+ ".pdf"))) wm with
    | (Ok a, w2) => (Ok a, w2)
    | (Raise e, w2) =>
        raise (ValueError ("Failed to convert " +:+ Path.name f +:+ ": "
                               +:+ exn_str e)) w2
    end = (r, w1) -> Fs.stat (files w1) p = Fs.stat (files wm) p).
  { intros app. unfold bind.
    destruct (automate office app f _ wm) as [[[]|e] w2] eqn:Ha;
      unfold ret, raise; intros [= <- <-]; eapply automate_frame; eauto. }
  destruct (Str.mem _ [".doc"; ".docx"]); [apply Hrun|].
  destruct (Str.mem _ [".ppt"; ".pptx"]); [apply Hrun|].
  unfold bind, raise. now intros [= <- <-].
Qed.

Lemma attempt_frame dir f target w r w1 :
  (Fs.mkdir_parents dir >> Fs.copy2 f target) w = (r, w1) ->
  forall p, is_Some (Fs.stat (files w) p) \/ ~ p `prefix_of` dir ->
    ~ target `prefix_of` p ->
    Fs.stat (files w1) p = Fs.stat (files w) p.
Proof.
  unfold bind. destruct (Fs.mkdir_parents dir w) as [[[]|e] wm] eqn:Hm.
  2:{ intros [= <- <-] p Hp _. eapply mkdir_parents_frame; eauto. }
  intros Hc p Hp Hne. rewrite <- (mkdir_parents_frame _ _ _ _ Hm p Hp).
  destruct r as [[]|e].
  - apply copy2_ok in Hc as (c & _ & -> & _). apply stat_insert_ne.
    intros <-. apply Hne. unfold copy_target.
    destruct (Fs.isdir _ _); [now apply prefix_app_r|reflexivity].
  - apply copy2_raise in Hc as ->. reflexivity.
Qed.

Lemma visit_frame folder out pres rel acc w acc' w' :
  rel <> [] -> slash_free (folder ++ rel) ->
  visit office folder out pres (folder ++ rel) acc w = (Ok acc', w') ->
  forall p, left_alone out (files w) p ->
    Fs.stat (files w') p = Fs.stat (files w) p.
Proof.
  intros Hne Hsf Hv p Hp.
  pose proof (left_alone_chain out (mirror pres rel) _ _ Hp) as Hchain.
  destruct Hp as [Hout _].
  destruct (visit_cases office folder out pres rel acc w acc' w' Hne Hv)
    as [[_ ->]|[(_ & -> & _)|[(_ & _ & r1 & w1 & Hc & Hres)
                              |(Hpdf & _ & r1 & w1 & Hc & Hres)]]];
    try reflexivity.
  - assert (Hw : files w' = files w1)
      by (destruct Hres as [(? & ? & _ & _ & _ & ->)|(? & _ & ->)]; reflexivity).
    rewrite Hw. apply (convert_frame _ _ _ _ _ Hc p Hchain).
    intros ->. apply Hout.
    pose proof (produced_office out (mirror pres rel) (folder ++ rel) Hsf) as Hrt.
    apply relative_to_Some in Hrt. unfold pdf_name in Hrt. rewrite Hrt.
    now eexists.
  - assert (Hw : files w' = files w1)
      by (destruct Hres as [(? & _ & _ & _ & ->)|(? & _ & ->)]; reflexivity).
    rewrite Hw. apply (attempt_frame _ _ _ _ _ _ Hc p Hchain).
    intros Hpre. apply Hout. etransitivity; [|exact Hpre].
    pose proof (produced_copy out (mirror pres rel) (folder ++ rel) Hsf
                  (pdf_suffix _ Hpdf)) as Hrt.
    apply relative_to_Some in Hrt. rewrite Hrt. now eexists.
Qed.

Lemma walk_frame folder out pres w res w' :
  (forall rel, is_Some (files w !! (folder ++ rel)) -> slash_free (folder ++ rel)) ->
  process_folder_recursive office folder out pres w = (Ok res, w') ->
  forall p, left_alone out (files w) p ->
    Fs.stat (files w') p = Fs.stat (files w) p.
Proof.
  intros Hnames Hrun.
  apply run_is_a_walk in Hrun as (rels & Hwalk & Hne & Hin).
  apply (walk_invariant office
           (fun _ w0 => forall p, left_alone out (files w) p ->
                          Fs.stat (files w0) p = Fs.stat (files w) p)
           folder out pres rels) with (acc := ([], [])) (w := w) (acc' := res);
    [|reflexivity|assumption].
  intros rel acc w0 acc' w0' Hr HI Hv p Hp.
  rewrite <- (HI p Hp).
  apply (visit_frame folder out pres rel acc w0 acc' w0').
  - rewrite Forall_forall in Hne. now apply Hne, list_elem_of_In.
  - now apply Hnames, Hin.
  - assumption.
  - destruct Hp as [Hout [Hs|Hp']]; (split; [assumption|]); [left|now right].
    rewrite HI; [assumption|]. split; [assumption|now left].
Qed.

(** X5. A walk writes below the output base and nowhere else: an entry that
    is not below the output base, and that exists already or is no ancestor
    of the output base, is after the walk what it was before.  When the
    input folder and the output base lie apart, the whole input tree is
    untouched. *)
Theorem walk_leaves_the_rest_alone folder out pres w res w' :
  names_slash_free (files w) ->
  process_folder_recursive office folder out pres w = (Ok res, w') ->
  (forall p, left_alone out (files w) p ->
     Fs.stat (files w') p = Fs.stat (files w) p)
  /\ (~ out `prefix_of` folder -> ~ folder `prefix_of` out ->
      forall rel,
        Fs.stat (files w') (folder ++ rel) = Fs.stat (files w) (folder ++ rel)).
Proof.
  intros Hnames Hrun.
  assert (Hframe : forall p, left_alone out (files w) p ->
                     Fs.stat (files w') p = Fs.stat (files w) p).
  { apply (walk_frame folder out pres w res w'); [|assumption].
    intros rel Hs. now apply (slash_free_rel (files w) folder rel Hnames). }
  split; [assumption|].
  intros Hof Hfo rel. apply Hframe. split.
  - intros Hpre. apply prefix_app_cases in Hpre as [Hpre|(q & -> & _)];
      [now apply Hof|]. apply Hfo. now exists q.
  - right. intros Hpre. apply Hfo. etransitivity; [|exact Hpre]. now exists rel.
Qed.

(** ** What the page shows *)

Lemma visit_says folder out pres rel acc w acc' w' :
  rel <> [] ->
  visit office folder out pres (folder ++ rel) acc w = (Ok acc', w') ->
  exists evs,
    ui w' = ui w ++ evs
    /\ map original acc'.1 = map original acc.1 ++ omap announced evs
    /\ (exists more, acc'.2 = acc.2 ++ more /\ omap warned evs `sublist_of` more)
    /\ Forall (fun n => level_of n <> error /\ level_of n <> download_button) evs.
Proof.
  intros Hne Hv.
  destruct (visit_cases office folder out pres rel acc w acc' w' Hne Hv)
    as [[-> ->]|[(-> & -> & _)|[(_ & _ & r1 & w1 & Hc & Hres)
                                |(_ & _ & r1 & w1 & Hc & Hres)]]].
  - exists []. rewrite !app_nil_r. repeat split; [|constructor].
    exists []. now rewrite app_nil_r.
  - exists []. rewrite !app_nil_r. repeat split; [|constructor].
    eexists. split; [reflexivity|]. apply sublist_nil_l.
  - apply convert_file_to_pdf_spec in Hc as (_ & Hu & _).
    destruct Hres as [(pdf_path & pdf_rel & _ & _ & -> & ->)|(e & -> & ->)];
      eexists [_]; cbn [say ui fst snd]; rewrite Hu, ?map_app;
      (split; [reflexivity|]); simpl; rewrite ?app_nil_r;
      (split; [reflexivity|]);
      (split; [|repeat constructor; discriminate]).
    + exists []. now rewrite app_nil_r.
    + eexists. split; reflexivity.
  - apply attempt_keeps in Hc as (_ & Hu).
    destruct Hres as [(pdf_rel & _ & _ & -> & ->)|(e & -> & ->)];
      eexists [_]; cbn [say ui fst snd]; rewrite Hu, ?map_app;
      (split; [reflexivity|]); simpl; rewrite ?app_nil_r;
      (split; [reflexivity|]);
      (split; [|repeat constructor; discriminate]).
    + exists []. now rewrite app_nil_r.
    + eexists. split; reflexivity.
Qed.

Lemma fold_says folder out pres rels w conv skip w' :
  Forall (fun rel => rel <> []) rels ->
  for_fold (visit office folder out pres) (map (app folder) rels) ([], []) w
    = (Ok (conv, skip), w') ->
  exists evs,
    ui w' = ui w ++ evs
    /\ omap announced evs = map original conv
    /\ omap warned evs `sublist_of` skip
    /\ Forall (fun n => level_of n <> error /\ level_of n <> download_button) evs.
Proof.
  intros Hne Hwalk.
  apply (walk_invariant office
           (fun acc w0 => exists evs,
              ui w0 = ui w ++ evs
              /\ omap announced evs = map original acc.1
              /\ omap warned evs `sublist_of` acc.2
              /\ Forall (fun n => level_of n <> error
                                  /\ level_of n <> download_button) evs)
           folder out pres rels) with (acc := ([], [])) (w := w)
    (acc' := (conv, skip)) (w' := w'); [| |assumption].
  - intros rel acc w0 acc' w0' Hr (evs & Hu & Ha & Hw & Hl) Hv.
    apply visit_says in Hv as (evs' & Hu' & Ha' & (more & Hm & Hw') & Hl');
      [|rewrite Forall_forall in Hne; now apply Hne, list_elem_of_In].
    exists (evs ++ evs'). rewrite Hu', Hu, app_assoc, !omap_app, Ha', Hm, Ha.
    split; [reflexivity|]. split; [reflexivity|].
    split; [now apply sublist_app|now apply Forall_app].
  - exists []. rewrite app_nil_r. repeat split; constructor.
Qed.

(** X6. What a walk shows on the page matches what it returns: it only adds
    notices, the successes shown name exactly the originals of the records
    returned, in order, every warning shown names an entry of the skip
    list, in order, and no error and no download button is shown. *)
Theorem notices_match_the_lists folder out pres w conv skip w' :
  process_folder_recursive office folder out pres w = (Ok (conv, skip), w') ->
  exists evs,
    ui w' = ui w ++ evs
    /\ omap announced evs = map original conv
    /\ omap warned evs `sublist_of` skip
    /\ Forall (fun n => level_of n <> error /\ level_of n <> download_button) evs.
Proof.
  intros Hrun. apply run_is_a_walk in Hrun as (rels & Hwalk & Hne & _).
  now apply (fold_says folder out pres rels).
Qed.

End WalkFrame.

Lemma walk_leaves_the_rest_alone_witness :
  let run := process_folder_recursive sample_office ["in"] ["out"] true sample_world in
  names_slash_free sample_tree
  /\ Fs.stat (files run.2) ["in"; "a.pdf"] = Some (File sample_bytes)
  /\ Fs.stat (files run.2) ["in"; "reports"; "q1.docx"] = Some (File other_bytes).
Proof.
  intros run.
  assert (Hn : names_slash_free sample_tree)
    by (apply names_slash_free_check_sound; vm_compute; reflexivity).
  split; [exact Hn|].
  destruct (walk_leaves_the_rest_alone sample_office ["in"] ["out"] true sample_world
              (value_or ([], []) run.1) run.2 Hn) as [_ H].
  - vm_compute. reflexivity.
  - split.
    + apply (H ltac:(intros [k Hk]; discriminate) ltac:(intros [k Hk]; discriminate)
               ["a.pdf"]).
    + apply (H ltac:(intros [k Hk]; discriminate) ltac:(intros [k Hk]; discriminate)
               ["reports"; "q1.docx"]).
Defined.

Lemma notices_match_the_lists_witness :
  let run := process_folder_recursive sample_office ["in"] ["out"] true sample_world in
  exists evs,
    ui run.2 = evs
    /\ omap announced evs = map original (converted_of run.1)
    /\ omap warned evs `sublist_of` skipped_of run.1.
Proof.
  intros run.
  destruct (notices_match_the_lists sample_office ["in"] ["out"] true sample_world
              (converted_of run.1) (skipped_of run.1) run.2)
    as (evs & H1 & H2 & H3 & _).
  - vm_compute. reflexivity.
  - exists evs. split; [exact H1|]. split; [exact H2|exact H3].
Defined.

(** ** The archive of a folder *)

Lemma NoDup_map_on {A B} (f : A -> B) (l : list A) :
  (forall x y, In x l -> In y l -> f x = f y -> x = y) ->
  NoDup l -> NoDup (map f l).
Proof.
  intros Hinj Hnd. induction Hnd as [|x l Hni Hnd IH]; [constructor|].
  cbn [map]. constructor.
  - intros Hin. apply list_elem_of_In, in_map_iff in Hin as (y & Hy & Hin).
    apply Hni, list_elem_of_In.
    rewrite (Hinj x y); [assumption|now left|now right|now symmetry].
  - apply IH. intros a b Ha Hb. apply Hinj; now right.
Qed.

(** X7. [create_zip_from_folder] never raises and changes nothing.  The
    archive it returns has a member for exactly the regular files below the
    folder, named by the path relative to the folder and holding the file's
    bytes; directories give no member, and a folder that is no directory
    gives the empty archive.  When no name of the tree contains the
    separator, no two members share a name. *)
Theorem archive_holds_the_regular_files (folder : path) (w : world) :
  exists members,
    create_zip_from_folder folder w = (Ok (Zip members), w)
    /\ (forall s c,
          In (s, c) members <->
          exists rel,
            s = Path.rel_str rel /\ rel <> []
            /\ Fs.isdir (files w) folder = true
            /\ Fs.stat (files w) (folder ++ rel) = Some (File c))
    /\ (names_slash_free (files w) -> NoDup (map fst members)).
Proof.
  destruct (create_zip_run folder w) as (rels & Hrun & Hnd & Hrels).
  eexists. split; [exact Hrun|]. split.
  - intros s c. rewrite in_map_iff. split.
    + intros ([rel c'] & [= <- <-] & Hin).
      apply in_file_entries in Hin as [Hin Hc].
      apply Hrels in Hin as (Hd & Hne & _). exists rel. auto.
    + intros (rel & -> & Hne & Hd & Hc). exists (rel, c).
      split; [reflexivity|]. apply in_file_entries. split; [|assumption].
      apply Hrels. split; [assumption|]. split; [assumption|].
      rewrite stat_nonempty in Hc by (destruct folder, rel; simpl; congruence).
      eauto.
  - intros Hnames. rewrite map_map.
    rewrite (map_ext (fun e => (member_of e).1) (fun e => Path.rel_str e.1))
      by reflexivity.
    rewrite <- (map_map fst Path.rel_str).
    apply NoDup_map_on; [|now apply NoDup_file_entries].
    assert (Hrel : forall rel, In rel (map fst (file_entries (files w) folder rels)) ->
                     rel <> [] /\ slash_free rel).
    { intros rel (e & <- & He)%in_map_iff. apply file_entries_fst in He as [He _].
      apply Hrels in He as (_ & Hne & Hs). split; [assumption|].
      now apply (slash_free_rel (files w) folder). }
    intros x y Hx Hy. destruct (Hrel x Hx), (Hrel y Hy). now apply rel_str_inj.
Qed.

Lemma archive_holds_the_regular_files_witness :
  exists members,
    create_zip_from_folder ["out"] (World packed_tree []) = (Ok (Zip members), World packed_tree [])
    /\ In ("reports/q1.pdf", other_bytes) members
    /\ NoDup (map fst members).
Proof.
  destruct (archive_holds_the_regular_files ["out"] (World packed_tree []))
    as (members & H1 & H2 & H3).
  exists members. split; [exact H1|]. split.
  - apply H2. exists ["reports"; "q1.pdf"]. split; [reflexivity|].
    split; [discriminate|]. split; vm_compute; reflexivity.
  - apply H3, names_slash_free_check_sound. vm_compute. reflexivity.
Defined.

Section WalkAccounts.

Variable office : office_app -> path -> gmap path node -> automation.

(** ** The two lists and the files of the tree *)

Lemma visit_keeps folder out pres rel acc w acc' w' :
  rel <> [] ->
  visit office folder out pres (folder ++ rel) acc w = (Ok acc', w') ->
  keeps (files w) (files w').
Proof.
  intros Hne Hv.
  destruct (visit_cases office folder out pres rel acc w acc' w' Hne Hv)
    as [[_ ->]|[(_ & -> & _)|[(_ & _ & r1 & w1 & Hc & Hres)
                              |(_ & _ & r1 & w1 & Hc & Hres)]]];
    try apply keeps_refl.
  - apply convert_file_to_pdf_spec in Hc as (Hk & _).
    now destruct Hres as [(? & ? & _ & _ & _ & ->)|(? & _ & ->)].
  - apply attempt_keeps in Hc as (Hk & _).
    now destruct Hres as [(? & _ & _ & _ & ->)|(? & _ & ->)].
Qed.

Lemma visit_lists_a_file folder out pres rel acc w acc' w' :
  rel <> [] ->
  visit office folder out pres (folder ++ rel) acc w = (Ok acc', w') ->
  forall s, In s (map original acc'.1 ++ acc'.2) ->
    In s (map original acc.1 ++ acc.2)
    \/ (s = Path.rel_str rel /\ Fs.isfile (files w) (folder ++ rel) = true).
Proof.
  intros Hne Hv s.
  destruct (visit_cases office folder out pres rel acc w acc' w' Hne Hv)
    as [[-> ->]|[(-> & -> & Hf & _)|[(_ & Hf & r1 & w1 & Hc & Hres)
                                     |(_ & Hf & r1 & w1 & Hc & Hres)]]].
  - now left.
  - cbn [fst snd]. rewrite !in_app_iff. intros [H|[H|[<-|[]]]]; auto.
  - destruct Hres as [(? & ? & _ & _ & -> & _)|(? & -> & _)]; cbn [fst snd];
      rewrite ?map_app, !in_app_iff; cbn [map In original converted_record];
      intros H; intuition auto.
  - destruct Hres as [(? & _ & _ & -> & _)|(? & -> & _)]; cbn [fst snd];
      rewrite ?map_app, !in_app_iff; cbn [map In original converted_record];
      intros H; intuition auto.
Qed.

Lemma listed_are_files folder out pres w conv skip w' :
  process_folder_recursive office folder out pres w = (Ok (conv, skip), w') ->
  forall s, In s (map original conv ++ skip) ->
    exists rel, s = Path.rel_str rel /\ rel <> []
      /\ Fs.isfile (files w) (folder ++ rel) = true.
Proof.
  intros Hrun. apply run_is_a_walk in Hrun as (rels & Hwalk & Hne & Hin).
  apply (walk_invariant office
           (fun acc w0 =>
              keeps (files w) (files w0)
              /\ forall s, In s (map original acc.1 ++ acc.2) ->
                   exists rel, s = Path.rel_str rel /\ rel <> []
                     /\ Fs.isfile (files w) (folder ++ rel) = true)
           folder out pres rels) with (acc := ([], [])) (w := w)
    (acc' := (conv, skip)) (w' := w'); [|split; [apply keeps_refl|intros s []]
                                        |assumption].
  intros rel acc w0 acc' w0' Hr [Hk HI] Hv.
  assert (Hrel : rel <> [])
    by (rewrite Forall_forall in Hne; now apply Hne, list_elem_of_In).
  split; [eapply keeps_trans; [exact Hk|eapply visit_keeps; eauto]|].
  intros s Hs.
  apply (visit_lists_a_file _ _ _ _ _ _ _ _ Hrel Hv) in Hs as [Hs|[-> Hf]];
    [now apply HI|].
  exists rel. split; [reflexivity|]. split; [assumption|].
  destruct (Hin rel Hr) as [x Hx].
  assert (Hst : Fs.stat (files w) (folder ++ rel) = Some x)
    by (rewrite stat_nonempty; [assumption|destruct folder, rel; simpl; congruence]).
  destruct x as [c|]; [apply isfile_stat; eauto|].
  exfalso. apply isdir_stat, Hk, isdir_stat in Hst.
  apply isfile_stat in Hf as [c Hc]. congruence.
Qed.

(** X8. The two lists together account for the files of the tree: every
    name in either list is the relative path of a regular file of the input
    folder, and an entry of the folder is named once in all (as a record or
    as a skip, never both, never twice) when it is a regular file other
    than the reserved one that is an Office document, a PDF, or not
    benign, and is named nowhere otherwise. *)
Theorem lists_account_for_the_files folder out pres w conv skip w' :
  names_slash_free (files w) ->
  process_folder_recursive office folder out pres w = (Ok (conv, skip), w') ->
  (forall s, In s (map original conv ++ skip) ->
     exists rel, s = Path.rel_str rel /\ rel <> []
       /\ Fs.isfile (files w) (folder ++ rel) = true)
  /\ forall rel, rel <> [] -> is_Some (files w !! (folder ++ rel)) ->
       length (records_of (Path.rel_str rel) conv)
       + length (skips_of (Path.rel_str rel) skip)
       = if handled (files w) (folder ++ rel) then 1 else 0.
Proof.
  intros Hnames Hrun.
  pose proof (listed_are_files _ _ _ _ _ _ _ Hrun) as Hfiles.
  split; [assumption|]. intros rel Hne Hsome.
  assert (Hfile : In (Path.rel_str rel) (map original conv ++ skip) ->
                  Fs.isfile (files w) (folder ++ rel) = true).
  { intros (rel' & E & Hne' & Hf)%Hfiles.
    assert (rel = rel') as <-; [|assumption].
    apply rel_str_inj; try assumption.
    - now apply (slash_free_rel (files w) folder).
    - apply (slash_free_rel (files w) folder); [assumption|].
      now apply isfile_is_Some. }
  destruct (walk_accounts office _ _ _ _ _ _ _ Hnames Hrun)
    as (rels & os & -> & -> & _ & _ & Hacc).
  destruct (Hacc rel Hne Hsome) as (o & Hspec & Hfil).
  rewrite records_of_records, skips_of_skips, Hfil.
  assert (Hin : o <> Ignored -> In o os).
  { intros Ho.
    assert (H : In o (List.filter (about (Path.rel_str rel)) os))
      by (rewrite Hfil; destruct o; [congruence|now left|now left]).
    now apply filter_In in H as [? _]. }
  unfold handled. destruct o as [|s|r]; simpl in Hspec; cbn [records skips omap length].
  - destruct Hspec as [->|[->|(-> & -> & ->)]]; [reflexivity| |];
      now rewrite ?andb_false_r.
  - destruct Hspec as (-> & -> & Hb). rewrite Hfile.
    + destruct (is_valid_office_file _); [reflexivity|].
      destruct (is_pdf _); [reflexivity|]. now rewrite Hb.
    + apply in_app_iff. right. apply list_elem_of_In, list_elem_of_omap.
      eexists. split; [apply list_elem_of_In, Hin; discriminate|reflexivity].
  - destruct Hspec as (Ho & -> & Hkind). rewrite Hfile.
    + destruct Hkind as [(-> & _)|(_ & -> & _)]; [reflexivity|].
      now rewrite orb_true_r.
    + apply in_app_iff. left. rewrite <- Ho. apply in_map.
      apply list_elem_of_In, list_elem_of_omap.
      eexists. split; [apply list_elem_of_In, Hin; discriminate|reflexivity].
Qed.

End WalkAccounts.

Lemma lists_account_for_the_files_witness :
  let run := process_folder_recursive sample_office ["in"] ["out"] true sample_world in
  length (records_of "a.pdf" (converted_of run.1))
  + length (skips_of "a.pdf" (skipped_of run.1)) = 1
  /\ length (records_of "reports" (converted_of run.1))
     + length (skips_of "reports" (skipped_of run.1)) = 0.
Proof.
  intros run.
  destruct (lists_account_for_the_files sample_office ["in"] ["out"] true sample_world
              (converted_of run.1) (skipped_of run.1) run.2) as [_ H].
  - apply names_slash_free_check_sound. vm_compute. reflexivity.
  - vm_compute. reflexivity.
  - split.
    + apply (H ["a.pdf"]); [discriminate|]. vm_compute. eauto.
    + apply (H ["reports"]); [discriminate|]. vm_compute. eauto.
Defined.

(** ** Letter case *)

Lemma length_smap (g : ascii -> ascii) (s : string) :
  String.length (Str.smap g s) = String.length s.
Proof. induction s as [|a s IH]; simpl; congruence. Qed.

Lemma smap_smap (g h : ascii -> ascii) (s : string) :
  Str.smap g (Str.smap h s) = Str.smap (fun c => g (h c)) s.
Proof. induction s as [|a s IH]; simpl; congruence. Qed.

Lemma smap_ext (g h : ascii -> ascii) (s : string) :
  (forall c, g c = h c) -> Str.smap g s = Str.smap h s.
Proof. intros E. induction s as [|a s IH]; simpl; congruence. Qed.

Lemma sdrop_smap (g : ascii -> ascii) (i : nat) (s : string) :
  Str.sdrop i (Str.smap g s) = Str.smap g (Str.sdrop i s).
Proof.
  revert s; induction i as [|i IH]; intros [|a s]; simpl; try reflexivity.
  apply IH.
Qed.

Lemma rfind_smap (g : ascii -> ascii) (c : ascii) (s : string) :
  (forall a, Ascii.eqb (g a) c = Ascii.eqb a c) ->
  Str.rfind c (Str.smap g s) = Str.rfind c s.
Proof.
  intros E. induction s as [|a s IH]; simpl; [reflexivity|].
  now rewrite IH, E.
Qed.

Lemma startswith_smap (g : ascii -> ascii) (c : ascii) (s : string) :
  (forall a, Ascii.eqb (g a) c = Ascii.eqb a c) ->
  Str.startswith c (Str.smap g s) = Str.startswith c s.
Proof. intros E. destruct s; simpl; [reflexivity|apply E]. Qed.

Lemma suffix_of_smap (g : ascii -> ascii) (n : string) :
  (forall a, Ascii.eqb (g a) Str.dot = Ascii.eqb a Str.dot) ->
  Path.suffix_of (Str.smap g n) = Str.smap g (Path.suffix_of n).
Proof.
  intros E. unfold Path.suffix_of, Path.has_suffix_at.
  rewrite rfind_smap, length_smap by assumption.
  destruct (Str.rfind Str.dot n) as [i|]; [|reflexivity].
  destruct (_ && _); [apply sdrop_smap|reflexivity].
Qed.

Lemma upper_keeps_dot (a : ascii) :
  Ascii.eqb (Str.upper_ascii a) Str.dot = Ascii.eqb a Str.dot.
Proof. destruct a as [[] [] [] [] [] [] [] []]; reflexivity. Qed.

Lemma lower_keeps_dot (a : ascii) :
  Ascii.eqb (Str.lower_ascii a) Str.dot = Ascii.eqb a Str.dot.
Proof. destruct a as [[] [] [] [] [] [] [] []]; reflexivity. Qed.

Lemma lower_upper_ascii (a : ascii) :
  Str.lower_ascii (Str.upper_ascii a) = Str.lower_ascii a.
Proof. destruct a as [[] [] [] [] [] [] [] []]; reflexivity. Qed.

Lemma lower_lower_ascii (a : ascii) :
  Str.lower_ascii (Str.lower_ascii a) = Str.lower_ascii a.
Proof. destruct a as [[] [] [] [] [] [] [] []]; reflexivity. Qed.

Lemma lower_suffix_upper (dir : path) (n : string) :
  Str.lower (Path.suffix (dir ++ [Str.upper n]))
  = Str.lower (Path.suffix (dir ++ [n])).
Proof.
  unfold Path.suffix. rewrite !name_snoc. unfold Str.upper, Str.lower.
  rewrite suffix_of_smap by apply upper_keeps_dot.
  rewrite smap_smap. apply smap_ext, lower_upper_ascii.
Qed.

Lemma lower_suffix_lower (dir : path) (n : string) :
  Str.lower (Path.suffix (dir ++ [Str.lower n]))
  = Str.lower (Path.suffix (dir ++ [n])).
Proof.
  unfold Path.suffix. rewrite !name_snoc. unfold Str.lower.
  rewrite suffix_of_smap by apply lower_keeps_dot.
  rewrite smap_smap. apply smap_ext, lower_lower_ascii.
Qed.

(** X9. The three tests that sort a file (Office document, PDF, benign)
    do not see letter case: a file name written in capitals, or in small
    letters, is sorted as the name itself. *)
Theorem sorting_ignores_letter_case (dir : path) (n : string) :
  (is_valid_office_file (dir ++ [Str.upper n]) = is_valid_office_file (dir ++ [n])
   /\ is_pdf (dir ++ [Str.upper n]) = is_pdf (dir ++ [n])
   /\ benign (dir ++ [Str.upper n]) = benign (dir ++ [n]))
  /\ (is_valid_office_file (dir ++ [Str.lower n]) = is_valid_office_file (dir ++ [n])
      /\ is_pdf (dir ++ [Str.lower n]) = is_pdf (dir ++ [n])
      /\ benign (dir ++ [Str.lower n]) = benign (dir ++ [n])).
Proof.
  unfold is_valid_office_file, is_pdf, benign.
  rewrite lower_suffix_upper, lower_suffix_lower, !name_snoc.
  unfold Str.upper at 1, Str.lower at 7.
  rewrite (startswith_smap _ _ _ upper_keeps_dot).
  rewrite (startswith_smap _ _ _ lower_keeps_dot).
  repeat split.
Qed.

(** ** The detected folder structure *)

Lemma structure_induction (P : structure -> Prop) :
  (forall l, P (Names l)) ->
  (forall items, Forall (fun kv => P kv.2) items -> P (Folder items)) ->
  forall s, P s.
Proof.
  intros HN HF. fix IH 1. intros [l|items]; [apply HN|]. apply HF.
  induction items as [|[k v] rest IHr]; constructor; [apply IH|apply IHr].
Qed.

Lemma tidy_cons (k : string) (v : structure) (rest : list (string * structure)) :
  tidy (Folder ((k, v) :: rest))
  = (if String.eqb k "_files"
     then match v with Names _ => true | Folder _ => false end
     else tidy v)
    && tidy (Folder rest).
Proof. reflexivity. Qed.

Lemma count_cons (k : string) (v : structure) (rest : list (string * structure)) :
  count_files (Folder ((k, v) :: rest)) = count_files v + count_files (Folder rest).
Proof. reflexivity. Qed.

Lemma display_cons (k : string) (v : structure) (rest : list (string * structure))
    (prefix : string) :
  display_folder_structure (Folder ((k, v) :: rest)) prefix
  = let here :=
      if String.eqb k "_files" then
        (map (FileLine prefix)
             (match v with Names l => l | Folder d => map fst d end), None)
      else
        let sub := display_folder_structure v (prefix +:+ "  ") in
        (FolderLine prefix k :: sub.1, sub.2) in
    match here.2 with
    | Some e => (here.1, Some e)
    | None =>
        let r := display_folder_structure (Folder rest) prefix in
        (here.1 ++ r.1, r.2)
    end.
Proof. reflexivity. Qed.

(** What a key of a tidy dictionary holds. *)
Lemma tidy_get (k : string) (d : list (string * structure)) (c : structure) :
  tidy (Folder d) = true -> dict_get k d = Some c ->
  if String.eqb k "_files" then exists l, c = Names l else tidy c = true.
Proof.
  induction d as [|[k' v] d IH]; [discriminate|].
  rewrite tidy_cons. intros [Hv Hd]%andb_true_iff. cbn [dict_get].
  destruct (String.eqb k' k) eqn:E; [|now apply IH].
  apply String.eqb_eq in E as ->. intros [= <-].
  destruct (String.eqb k "_files"); [|assumption].
  destruct v as [l|]; [eauto|discriminate].
Qed.

Lemma tidy_set (k : string) (v : structure) (d : list (string * structure)) :
  tidy (Folder d) = true ->
  (if String.eqb k "_files" then exists l, v = Names l else tidy v = true) ->
  tidy (Folder (dict_set k v d)) = true.
Proof.
  intros Hd Hv.
  assert (Hkv : (if String.eqb k "_files"
                 then match v with Names _ => true | Folder _ => false end
                 else tidy v) = true).
  { destruct (String.eqb k "_files"); [|assumption]. now destruct Hv as [l ->]. }
  clear Hv. induction d as [|[k' v'] d IH]; cbn [dict_set].
  - rewrite tidy_cons, Hkv. reflexivity.
  - rewrite tidy_cons in Hd. apply andb_true_iff in Hd as [Hv' Hd].
    destruct (String.eqb k' k); rewrite tidy_cons.
    + now rewrite Hkv.
    + now rewrite Hv', IH.
Qed.

Lemma count_set (k : string) (v : structure) (d : list (string * structure)) :
  count_files (Folder (dict_set k v d))
  + count_files (match dict_get k d with Some c => c | None => Folder [] end)
  = count_files (Folder d) + count_files v.
Proof.
  induction d as [|[k' v'] d IH]; cbn [dict_set dict_get].
  - rewrite count_cons. simpl. lia.
  - destruct (String.eqb k' k); rewrite !count_cons; lia.
Qed.

Lemma get_set_same (k : string) (v : structure) (d : list (string * structure)) :
  dict_get k (dict_set k v d) = Some v.
Proof.
  induction d as [|[k' v'] d IH]; cbn [dict_set dict_get].
  - now rewrite String.eqb_refl.
  - destruct (String.eqb k' k) eqn:E; cbn [dict_get].
    + now rewrite String.eqb_refl.
    + now rewrite E.
Qed.

Lemma get_set_other (k k' : string) (v : structure) (d : list (string * structure)) :
  k <> k' -> dict_get k' (dict_set k v d) = dict_get k' d.
Proof.
  intros Hne. induction d as [|[k0 v0] d IH]; cbn [dict_set dict_get].
  - apply String.eqb_neq in Hne. now rewrite Hne.
  - destruct (String.eqb k0 k) eqn:E; cbn [dict_get].
    + apply String.eqb_eq in E as ->. apply String.eqb_neq in Hne.
      now rewrite Hne.
    + now rewrite IH.
Qed.

Lemma tidy_is_folder (s : structure) :
  tidy s = true -> exists d, s = Folder d.
Proof. destruct s as [l|d]; [discriminate|eauto]. Qed.

(** Adding a file below folders none of which is named [_files] keeps the
    structure tidy and makes it hold one file more; the loose files of the
    top level stay, and a file without folder is one of them. *)
Lemma add_below_tidy (dirs : list string) (file_name : string) (s : structure) :
  tidy s = true -> ~ In "_files" dirs ->
  exists s',
    add_below dirs file_name s = inr s'
    /\ tidy s' = true
    /\ count_files s' = S (count_files s)
    /\ (dirs = []
        \/ (exists d l, s = Folder d /\ dict_get "_files" d = Some (Names l)) ->
        exists d' l', s' = Folder d' /\ dict_get "_files" d' = Some (Names l')).
Proof.
  revert s. induction dirs as [|part dirs IH]; intros s Hs Hno.
  - destruct (tidy_is_folder s Hs) as [d ->]. cbn [add_below append_file].
    destruct (dict_get "_files" d) as [c|] eqn:Hg.
    + destruct (tidy_get _ _ _ Hs Hg) as [l ->].
      eexists. split; [reflexivity|]. split; [|split].
      * apply tidy_set; [assumption|]. simpl. eauto.
      * pose proof (count_set "_files" (Names (l ++ [file_name])) d) as Hc.
        rewrite Hg in Hc. cbn [count_files] in Hc. rewrite length_app in Hc.
        simpl in Hc. simpl. lia.
      * intros _. eexists _, _. split; [reflexivity|]. apply get_set_same.
    + eexists. split; [reflexivity|]. split; [|split].
      * apply tidy_set; [assumption|]. simpl. eauto.
      * pose proof (count_set "_files" (Names [file_name]) d) as Hc.
        rewrite Hg in Hc. simpl in Hc. simpl. lia.
      * intros _. eexists _, _. split; [reflexivity|]. apply get_set_same.
  - destruct (tidy_is_folder s Hs) as [d ->]. cbn [add_below].
    assert (Hpart : part <> "_files") by (intros ->; apply Hno; now left).
    set (child := match dict_get part d with Some c => c | None => Folder [] end).
    assert (Hchild : tidy child = true).
    { subst child. destruct (dict_get part d) as [c|] eqn:Hg; [|reflexivity].
      pose proof (tidy_get _ _ _ Hs Hg) as Hc.
      apply String.eqb_neq in Hpart. now rewrite Hpart in Hc. }
    destruct (IH child Hchild) as (child' & -> & Ht & Hc & _);
      [intros Hin; apply Hno; now right|].
    eexists. split; [reflexivity|]. split; [|split].
    + apply tidy_set; [assumption|]. apply String.eqb_neq in Hpart.
      now rewrite Hpart.
    + pose proof (count_set part child' d) as Hcs. fold child in Hcs. lia.
    + intros [?|(d0 & l & [= <-] & Hg)]; [discriminate|].
      eexists _, _. split; [reflexivity|].
      rewrite get_set_other by assumption. exact Hg.
Qed.

Lemma note_file_eq (s : structure) (up : UploadedFile) :
  note_file s up = add_below (folders_of up) (file_of up) s.
Proof.
  unfold note_file, folders_of, file_of, segments.
  destruct (Str.contains Str.backslash (name up) || Str.contains Str.slash (name up))
    eqn:E; [reflexivity|].
  apply orb_false_iff in E as [Hb Hs].
  rewrite replace_absent by assumption. now rewrite split_free.
Qed.

Lemma note_files_app (ups more : list UploadedFile) (s : structure) :
  note_files (ups ++ more) s
  = match note_files ups s with
    | inr s' => note_files more s'
    | inl e => inl e
    end.
Proof.
  revert s. induction ups as [|up ups IH]; intros s; [reflexivity|].
  cbn [app note_files]. destruct (note_file s up); [reflexivity|apply IH].
Qed.

Lemma note_files_tidy (ups : list UploadedFile) (s : structure) :
  tidy s = true ->
  (forall up, In up ups -> ~ In "_files" (folders_of up)) ->
  exists s',
    note_files ups s = inr s'
    /\ tidy s' = true
    /\ count_files s' = length ups + count_files s
    /\ ((exists up, In up ups /\ folders_of up = [])
        \/ (exists d l, s = Folder d /\ dict_get "_files" d = Some (Names l)) ->
        exists d' l', s' = Folder d' /\ dict_get "_files" d' = Some (Names l')).
Proof.
  revert s. induction ups as [|up ups IH]; intros s Hs Hno.
  - exists s. split; [reflexivity|]. split; [assumption|]. split; [reflexivity|].
    intros [(up & [] & _)|H]. exact H.
  - cbn [note_files]. rewrite note_file_eq.
    destruct (add_below_tidy (folders_of up) (file_of up) s Hs)
      as (s1 & -> & Ht1 & Hc1 & Hroot1); [apply Hno; now left|].
    destruct (IH s1 Ht1) as (s' & -> & Ht & Hc & Hroot);
      [intros u Hu; apply Hno; now right|].
    exists s'. split; [reflexivity|]. split; [assumption|].
    split; [simpl; lia|].
    intros [(u & [<-|Hu] & Hf)|H]; apply Hroot.
    + right. apply Hroot1. now left.
    + left. eauto.
    + right. apply Hroot1. now right.
Qed.

Lemma file_lines_of_names (prefix : string) (l : list string) :
  List.filter is_file_line (map (FileLine prefix) l) = map (FileLine prefix) l.
Proof. induction l as [|x l IH]; simpl; congruence. Qed.

Lemma display_tidy (s : structure) :
  tidy s = true ->
  forall prefix, exists lines,
    display_folder_structure s prefix = (lines, None)
    /\ length (List.filter is_file_line lines) = count_files s.
Proof.
  induction s as [l|items IH] using structure_induction; [discriminate|].
  induction IH as [|[k v] rest Hv _ IHrest]; intros Ht prefix.
  - exists []. split; reflexivity.
  - rewrite tidy_cons in Ht. apply andb_true_iff in Ht as [Hkv Hrest].
    destruct (IHrest Hrest prefix) as (lr & Hr & Hcr).
    rewrite display_cons, count_cons, Hr.
    destruct (String.eqb k "_files").
    + destruct v as [l|]; [|discriminate]. cbn [fst snd].
      eexists. split; [reflexivity|].
      rewrite List.filter_app, length_app, file_lines_of_names, length_map, Hcr.
      reflexivity.
    + destruct (Hv Hkv (prefix +:+ "  ")) as (lv & Hlv & Hcv). cbn [snd] in *.
      rewrite Hlv. cbn [fst snd].
      eexists. split; [reflexivity|].
      cbn [app List.filter is_file_line].
      rewrite List.filter_app, length_app, Hcv, Hcr. reflexivity.
Qed.

(** X10. When no uploaded name puts its file in a folder named [_files],
    [create_folder_structure_info] raises nothing and writes one file line
    for every uploaded file. *)
Theorem structure_shows_every_upload (uploaded_files : list UploadedFile) :
  (forall up, In up uploaded_files -> ~ In "_files" (folders_of up)) ->
  exists lines,
    create_folder_structure_info uploaded_files = (lines, None)
    /\ length (List.filter is_file_line lines) = length uploaded_files.
Proof.
  intros Hno. destruct uploaded_files as [|up ups]; [exists []; split; reflexivity|].
  destruct (note_files_tidy (up :: ups) (Folder []) eq_refl Hno)
    as (s' & Hs & Ht & Hc & _).
  unfold create_folder_structure_info. rewrite Hs.
  destruct (display_tidy s' Ht EmptyString) as (lines & Hd & Hl).
  destruct (tidy_is_folder s' Ht) as [[|kv d] ->].
  - simpl in Hc. cbn [length] in Hc. lia.
  - rewrite Hd. exists (Heading :: lines). split; [reflexivity|].
    cbn [List.filter is_file_line]. rewrite Hl, Hc. simpl. lia.
Qed.

Lemma structure_shows_every_upload_witness :
  exists lines,
    create_folder_structure_info
      [sample_upload "a/b/c/notes.pptx"; sample_upload "top.docx";
       sample_upload "a/x.docx"] = (lines, None)
    /\ length (List.filter is_file_line lines) = 3.
Proof.
  apply (structure_shows_every_upload
           [sample_upload "a/b/c/notes.pptx"; sample_upload "top.docx";
            sample_upload "a/x.docx"]).
  intros up [<-|[<-|[<-|[]]]]; vm_compute; intuition discriminate.
Defined.

Lemma add_below_names (dirs : list string) (file_name : string) (l : list string) :
  add_below dirs file_name (Names l) = inl TypeError.
Proof.
  destruct dirs as [|part dirs]; simpl; now destruct (Str.mem _ l).
Qed.

(** X11. A folder named [_files] at the top, uploaded after a file without
    folder, makes [create_folder_structure_info] raise [TypeError] before
    it has written anything: the list of the loose files is taken for the
    folder.  The uploads before it are as in X10. *)
Theorem folder_named_files_after_a_loose_file
    (uploaded_files more : list UploadedFile) (bad : UploadedFile)
    (rest : list string) :
  (forall up, In up uploaded_files -> ~ In "_files" (folders_of up)) ->
  (exists up, In up uploaded_files /\ folders_of up = []) ->
  folders_of bad = "_files" :: rest ->
  create_folder_structure_info (uploaded_files ++ bad :: more)
  = ([], Some TypeError).
Proof.
  intros Hno Hloose Hbad.
  destruct (note_files_tidy uploaded_files (Folder []) eq_refl Hno)
    as (s' & Hs & _ & _ & Hroot).
  destruct (Hroot (or_introl Hloose)) as (d & l & -> & Hg).
  assert (Hrun : note_files (uploaded_files ++ bad :: more) (Folder [])
                 = inl TypeError).
  { rewrite note_files_app, Hs. cbn [note_files].
    rewrite note_file_eq, Hbad. cbn [add_below]. rewrite Hg.
    now rewrite add_below_names. }
  unfold create_folder_structure_info. rewrite Hrun.
  destruct (uploaded_files ++ bad :: more) eqn:E; [|reflexivity].
  symmetry in E. now apply app_cons_not_nil in E.
Qed.

Lemma folder_named_files_after_a_loose_file_witness :
  create_folder_structure_info
    ([sample_upload "top.docx"] ++ sample_upload "_files/x.docx" :: [])
  = ([], Some TypeError).
Proof.
  apply (folder_named_files_after_a_loose_file
           [sample_upload "top.docx"] [] (sample_upload "_files/x.docx") []).
  - intros up [<-|[]]. vm_compute. intuition.
  - exists (sample_upload "top.docx"). split; [now left|reflexivity].
  - reflexivity.
Defined.

Lemma add_below_fresh (dirs : list string) (file_name : string) :
  exists d, add_below dirs file_name (Folder []) = inr (Folder d).
Proof.
  induction dirs as [|part dirs [d IH]]; cbn [add_below append_file dict_get].
  - eauto.
  - rewrite IH. eauto.
Qed.

(** X12. The other way round, a folder named [_files] at the top that is
    uploaded first is entered as a folder, and the first file without
    folder after it makes [create_folder_structure_info] raise
    [AttributeError] before it has written anything. *)
Theorem folder_named_files_before_a_loose_file
    (bad loose : UploadedFile) (more : list UploadedFile) (rest : list string) :
  folders_of bad = "_files" :: rest ->
  folders_of loose = [] ->
  create_folder_structure_info (bad :: loose :: more) = ([], Some AttributeError).
Proof.
  intros Hbad Hloose. unfold create_folder_structure_info. cbn [note_files].
  rewrite note_file_eq, Hbad. cbn [add_below dict_get].
  destruct (add_below_fresh rest (file_of bad)) as [d ->].
  cbv beta iota. rewrite note_file_eq, Hloose. reflexivity.
Qed.

Lemma folder_named_files_before_a_loose_file_witness :
  create_folder_structure_info
    [sample_upload "_files/x.docx"; sample_upload "top.docx"]
  = ([], Some AttributeError).
Proof.
  apply (folder_named_files_before_a_loose_file
           (sample_upload "_files/x.docx") (sample_upload "top.docx") [] []);
    reflexivity.
Defined.

Section Download.

Variable office : office_app -> path -> gmap path node -> automation.

(** ** What is reported is in the download *)

Lemma mkdir_parents_ok_base (out q : path) (w wm : world) :
  Fs.mkdir_parents (out ++ q) w = (Ok tt, wm) -> Fs.isdir (files wm) out = true.
Proof.
  intros Hm. destruct out as [|x out]; [reflexivity|].
  apply (mkdir_chain_ok _ _ _ _ Hm (x :: out)); [discriminate|now exists q].
Qed.

Lemma convert_ok_base f out q w p w1 :
  convert_file_to_pdf office f (out ++ q) w = (Ok p, w1) ->
  Fs.isdir (files w1) out = true.
Proof.
  unfold convert_file_to_pdf. unfold bind at 1.
  destruct (Fs.mkdir_parents (out ++ q) w) as [[[]|e] wm] eqn:Hm; [|discriminate].
  apply mkdir_parents_ok_base in Hm.
  unfold try_except, convert_doc_to_pdf, convert_pptx_to_pdf.
  assert (Hrun : forall app,
    match (let* _ := automate office app f
                       (Path.joinpath (out ++ q) (Path.stem f +:+ ".pdf")) in
           ret (Path.joinpath (out ++ q) (Path.stem f +:+ ".pdf"))) wm with
    | (Ok a, w2) => (Ok a, w2)
    | (Raise e, w2) =>
        raise (ValueError ("Failed to convert " +:+ Path.name f +:+ ": "
                               +:+ exn_str e)) w2
    end = (Ok p, w1) -> Fs.isdir (files w1) out = true).
  { intros app. unfold bind.
    destruct (automate office app f _ wm) as [[[]|e] w2] eqn:Ha;
      unfold ret, raise; intros [= <- <-].
    apply automate_spec in Ha as (Hk & _). now apply Hk. }
  destruct (Str.mem _ [".doc"; ".docx"]); [apply Hrun|].
  destruct (Str.mem _ [".ppt"; ".pptx"]); [apply Hrun|].
  unfold bind, raise. discriminate.
Qed.

Lemma attempt_ok_base out q f target w w1 :
  (Fs.mkdir_parents (out ++ q) >> Fs.copy2 f target) w = (Ok tt, w1) ->
  Fs.isdir (files w1) out = true.
Proof.
  intros ([] & wm & Hm & Hc)%bind_inv_ok.
  apply mkdir_parents_ok_base in Hm. apply copy2_keeps in Hc as [Hk _].
  now apply Hk.
Qed.

Lemma visit_makes_the_base folder out pres rel acc w acc' w' :
  rel <> [] ->
  (acc.1 <> [] -> Fs.isdir (files w) out = true) ->
  visit office folder out pres (folder ++ rel) acc w = (Ok acc', w') ->
  acc'.1 <> [] -> Fs.isdir (files w') out = true.
Proof.
  intros Hne Hold Hv.
  destruct (visit_cases office folder out pres rel acc w acc' w' Hne Hv)
    as [[-> ->]|[(-> & -> & _)|[(_ & _ & r1 & w1 & Hc & Hres)
                                |(_ & _ & r1 & w1 & Hc & Hres)]]];
    try assumption.
  - destruct Hres as [(pdf_path & pdf_rel & -> & _ & -> & ->)|(e & -> & ->)].
    + intros _. cbn [say files]. eapply convert_ok_base; eauto.
    + apply convert_file_to_pdf_spec in Hc as (Hk & _).
      intros H. cbn [say files]. now apply Hk, Hold.
  - destruct Hres as [(pdf_rel & -> & _ & -> & ->)|(e & -> & ->)].
    + intros _. cbn [say files]. eapply attempt_ok_base; eauto.
    + apply attempt_keeps in Hc as (Hk & _).
      intros H. cbn [say files]. now apply Hk, Hold.
Qed.

Lemma walk_makes_the_base folder out pres w conv skip w' :
  process_folder_recursive office folder out pres w = (Ok (conv, skip), w') ->
  conv <> [] -> Fs.isdir (files w') out = true.
Proof.
  intros Hrun. apply run_is_a_walk in Hrun as (rels & Hwalk & Hne & _).
  apply (walk_invariant office
           (fun acc w0 => acc.1 <> [] -> Fs.isdir (files w0) out = true)
           folder out pres rels) with (acc := ([], [])) (w := w)
    (acc' := (conv, skip)) (w' := w'); [|intros []; reflexivity|assumption].
  intros rel acc w0 acc' w0' Hin HI Hv.
  eapply visit_makes_the_base; eauto.
  rewrite Forall_forall in Hne. now apply Hne, list_elem_of_In.
Qed.

Lemma file_is_packed (out rel : path) (c : data) (w : world) (members : archive)
    (rels : list path) :
  members = map member_of (file_entries (files w) out rels) ->
  (forall rel, In rel rels <->
     Fs.isdir (files w) out = true /\ rel <> []
     /\ is_Some (files w !! (out ++ rel))) ->
  Fs.isdir (files w) out = true ->
  Fs.stat (files w) (out ++ rel) = Some (File c) ->
  In (Path.rel_str rel, c) members.
Proof.
  intros -> Hrels Hd Hc. apply in_map_iff. exists (rel, c).
  split; [reflexivity|]. apply in_file_entries. split; [|assumption].
  assert (Hne : rel <> []).
  { intros ->. rewrite app_nil_r in Hc. apply isdir_stat in Hd. congruence. }
  apply Hrels. split; [assumption|]. split; [assumption|].
  rewrite stat_nonempty in Hc by (destruct out, rel; simpl; congruence). eauto.
Qed.

Lemma pack_the_produced (out : path) (conv : list ConversionRecord) (w' : world) :
  (forall r, In r conv -> produced_exists out (files w') r) ->
  (conv <> [] -> Fs.isdir (files w') out = true) ->
  exists members,
    create_zip_from_folder out w' = (Ok (Zip members), w')
    /\ forall r, In r conv -> packed members r.
Proof.
  intros Hprod Hbase.
  destruct (create_zip_run out w') as (rels & Hzip & _ & Hrels).
  eexists. split; [exact Hzip|]. intros r Hr.
  assert (Hd : Fs.isdir (files w') out = true).
  { apply Hbase. intros ->. destruct Hr. }
  destruct (Hprod r Hr) as (pr & Hp & [Hf|(Ht & _ & n & Hn)]).
  - left. apply isfile_stat in Hf as [c Hc]. exists c. rewrite Hp.
    eapply file_is_packed; eauto.
  - right. split; [assumption|]. apply isfile_stat in Hn as [c Hc].
    exists pr, n, c. split; [assumption|]. eapply file_is_packed; eauto.
Qed.

(** X13. Everything that [process_folder_recursive] reports as produced is
    in the archive that [create_zip_from_folder] then makes of the output
    base: for every record a member bears the record's produced path as
    its name (for a copied PDF whose destination was a directory, the
    member lies directly below that path). *)
Theorem records_are_in_the_archive folder out pres w conv skip w' :
  process_folder_recursive office folder out pres w = (Ok (conv, skip), w') ->
  exists members,
    create_zip_from_folder out w' = (Ok (Zip members), w')
    /\ forall r, In r conv -> packed members r.
Proof.
  intros Hrun. apply pack_the_produced.
  - pose proof Hrun as Hrun'.
    apply run_is_a_walk in Hrun' as (rels & Hwalk & Hne & _).
    apply (fold_produces office folder out pres rels ([], []) w (conv, skip) w' Hne);
      [intros r []|assumption].
  - now apply (walk_makes_the_base folder out pres w conv skip w').
Qed.

(** X14. When [handle_uploaded_zip] returns a record, the last thing it
    put on the page is the download button, and the archive behind the
    button holds every record returned. *)
Theorem zip_download_holds_the_records temp_dir uploaded_zip pres w conv skip w' :
  handle_uploaded_zip office temp_dir uploaded_zip pres w = (Ok (conv, skip), w') ->
  conv <> [] ->
  exists members,
    last (ui w') = Some (Download "download_zip" (Zip members))
    /\ forall r, In r conv -> packed members r.
Proof.
  unfold handle_uploaded_zip. intros Hrun Hne.
  destruct (is_zipfile (getvalue uploaded_zip)).
  2:{ cbn [negb] in Hrun. unfold bind, emit, ret in Hrun. injection Hrun as <- _ _.
      congruence. }
  cbn [negb] in Hrun.
  apply temporary_directory_ok in Hrun as (w1 & w2 & _ & Hbody & ->).
  cbn [ui].
  apply bind_inv_ok in Hbody as ([] & wa & _ & Hbody).
  apply bind_inv_ok in Hbody as ([] & wb & _ & Hbody).
  apply bind_inv_ok in Hbody as ([] & wc & _ & Hbody).
  apply bind_inv_ok in Hbody as ([] & wd & _ & Hbody).
  apply bind_inv_ok in Hbody as ([conv0 skip0] & we & Hwalk & Hbody).
  apply bind_inv_ok in Hbody as ([] & wf & Hzip & Hret).
  injection Hret as -> -> ->. cbn [fst] in Hzip.
  destruct (pack_the_produced (Path.joinpath temp_dir "converted") conv we)
    as (members & Hpack & Hall).
  { pose proof Hwalk as Hwalk'.
    apply run_is_a_walk in Hwalk' as (rels & Hfold & Hrels & _).
    apply (fun H => fold_produces office _ _ _ rels ([], []) wd (conv, skip) we
                      Hrels H Hfold).
    intros r []. }
  { now apply (walk_makes_the_base _ _ _ _ _ _ _ Hwalk). }
  exists members. split; [|assumption].
  destruct conv as [|r conv]; [congruence|].
  rewrite (bind_ok _ _ _ _ _ Hpack) in Hzip. unfold emit in Hzip.
  injection Hzip as <-. cbn [ui]. apply last_snoc.
Qed.

End Download.

Lemma records_are_in_the_archive_witness :
  let run := process_folder_recursive sample_office ["in"] ["out"] true sample_world in
  exists members,
    create_zip_from_folder ["out"] run.2 = (Ok (Zip members), run.2)
    /\ packed members
         (converted_record ["reports"; "q1.docx"] ["reports"; "q1.pdf"] ".DOCX").
Proof.
  intros run.
  destruct (records_are_in_the_archive sample_office ["in"] ["out"] true sample_world
              (converted_of run.1) (skipped_of run.1) run.2)
    as (members & H1 & H2).
  - vm_compute. reflexivity.
  - exists members. split; [exact H1|]. apply H2. vm_compute. tauto.
Defined.

Lemma zip_download_holds_the_records_witness :
  let up := {| name := "docs.zip"; getvalue := packed_archive |} in
  let run := handle_uploaded_zip sample_office ["tmp"; "t"] up true bare_world in
  length (converted_of run.1) = 2
  /\ exists members,
       last (ui run.2) = Some (Download "download_zip" (Zip members))
       /\ forall r, In r (converted_of run.1) -> packed members r.
Proof.
  intros up run. split; [vm_compute; reflexivity|].
  apply (zip_download_holds_the_records sample_office ["tmp"; "t"] up true bare_world
           (converted_of run.1) (skipped_of run.1) run.2).
  - vm_compute. reflexivity.
  - vm_compute. discriminate.
Defined.

Section Individual.

Variable office : office_app -> path -> gmap path node -> automation.

(** ** The block for individual files *)

Lemma create_zip_any_page (folder : path) (w : world) (u : list notice) (z : data) :
  create_zip_from_folder folder w = (Ok z, w) ->
  create_zip_from_folder folder (World (files w) u) = (Ok z, World (files w) u).
Proof.
  destruct (rglob_rels (files w) folder) as (rels & Hl & _).
  unfold create_zip_from_folder, bind at 1 3, get_files. cbn [files].
  rewrite Hl. unfold bind. rewrite !pack_run. cbn [files]. unfold ret.
  now intros [= <-].
Qed.

(** X15. When the block for individual files has run through, it has
    staged the uploads and walked the staging directory, and what it shows
    after the walk's own notices is decided by the records of that walk:
    nothing when there is none; otherwise the count of these records and
    then the download button, the last event of the block, whose archive
    is the one of the output directory as the walk left it and holds every
    one of these records. *)
Theorem individual_upload_completes temp_dir uploaded_files w w' :
  uploaded_files <> [] ->
  individual_upload_block office temp_dir uploaded_files w = (Ok tt, w') ->
  let input_dir := Path.joinpath temp_dir "input" in
  let output_dir := Path.joinpath temp_dir "output" in
  exists ws conv skip ww,
    stage_individual temp_dir uploaded_files w = (Ok tt, ws)
    /\ process_folder_recursive office input_dir output_dir false ws
       = (Ok (conv, skip), ww)
    /\ match conv with
       | [] => ui w' = ui ww
       | _ =>
           exists members,
             create_zip_from_folder output_dir ww = (Ok (Zip members), ww)
             /\ ui w' = ui ww ++ [Complete (length conv);
                                  Download "download_individual" (Zip members)]
             /\ forall r, In r conv -> packed members r
       end.
Proof.
  unfold individual_upload_block. intros Hne Hrun.
  destruct uploaded_files as [|up ups]; [congruence|].
  apply temporary_directory_ok in Hrun as (w1 & w2 & Hmk & Hbody & ->). cbn [ui].
  cbv zeta in Hbody. cbv zeta.
  apply bind_inv_ok in Hbody as ([] & wa & Ha & Hbody).
  apply bind_inv_ok in Hbody as ([] & wb & Hb & Hbody).
  apply bind_inv_ok in Hbody as ([] & wc & Hc & Hbody).
  apply bind_inv_ok in Hbody as ([conv skip] & wd & Hwalk & Hbody).
  exists wc, conv, skip, wd. split; [|split; [exact Hwalk|]].
  { unfold stage_individual.
    rewrite (bind_ok _ _ _ _ _ Hmk), (bind_ok _ _ _ _ _ Ha), (bind_ok _ _ _ _ _ Hb).
    exact Hc. }
  destruct (pack_the_produced (Path.joinpath temp_dir "output") conv wd)
    as (members & Hpack & Hall).
  { pose proof Hwalk as Hwalk'.
    apply run_is_a_walk in Hwalk' as (rels & Hfold & Hrels & _).
    apply (fun H => fold_produces office _ _ _ rels ([], []) wc (conv, skip) wd
                      Hrels H Hfold).
    intros r []. }
  { now apply (walk_makes_the_base office _ _ _ _ _ _ _ Hwalk). }
  cbn [fst] in Hbody.
  destruct conv as [|r conv].
  - now injection Hbody as <-.
  - exists members. split; [exact Hpack|]. split; [|assumption].
    unfold bind at 1, emit at 1 in Hbody.
    rewrite (bind_ok _ _ _ _ _ (create_zip_any_page _ _ _ _ Hpack)) in Hbody.
    unfold emit in Hbody.
    injection Hbody as <-. cbn [ui]. rewrite <- !app_assoc. reflexivity.
Qed.

End Individual.

Lemma individual_upload_completes_witness :
  let ups := [{| name := "q1.docx"; getvalue := other_bytes |};
              {| name := "q2.pptx"; getvalue := other_bytes |}] in
  let run := individual_upload_block sample_office ["tmp"; "t"] ups bare_world in
  length (ui run.2) = 4
  /\ exists ws conv skip ww,
       stage_individual ["tmp"; "t"] ups bare_world = (Ok tt, ws)
       /\ process_folder_recursive sample_office ["tmp"; "t"; "input"]
            ["tmp"; "t"; "output"] false ws = (Ok (conv, skip), ww)
       /\ match conv with
          | [] => ui run.2 = ui ww
          | _ =>
              exists members,
                create_zip_from_folder ["tmp"; "t"; "output"] ww
                = (Ok (Zip members), ww)
                /\ ui run.2 = ui ww ++ [Complete (length conv);
                                        Download "download_individual"
                                                 (Zip members)]
                /\ forall r, In r conv -> packed members r
          end.
Proof.
  intros ups run. split; [vm_compute; reflexivity|].
  apply (individual_upload_completes sample_office ["tmp"; "t"] ups bare_world run.2).
  - discriminate.
  - vm_compute. reflexivity.
Defined.

Section NoTrace.

Variable temp : path.

(** ** A temporary directory leaves no trace *)

Lemma same_outside_refl (m : gmap path node) : same_outside temp m m.
Proof. now intros p _. Qed.

Lemma same_outside_trans (m1 m2 m3 : gmap path node) :
  same_outside temp m1 m2 -> same_outside temp m2 m3 -> same_outside temp m1 m3.
Proof. intros H1 H2 p Hp. now rewrite H2, H1. Qed.

Lemma above_is_outside (q : path) :
  q `prefix_of` temp -> q <> temp -> ~ temp `prefix_of` q.
Proof. intros H1 Hne H2. apply Hne. now apply (anti_symm prefix). Qed.

Lemma reachable_same_outside (m m' : gmap path node) :
  reachable m temp -> same_outside temp m m' -> reachable m' temp.
Proof.
  intros Hr Hs q Hq Hne. rewrite Hs; [now apply Hr|now apply above_is_outside].
Qed.

Lemma outside_chain (m : gmap path node) (x p : path) :
  reachable m temp -> ~ temp `prefix_of` p ->
  is_Some (Fs.stat m p) \/ ~ p `prefix_of` (temp ++ x).
Proof.
  intros Hr Hp. destruct (decide (p `prefix_of` temp)) as [Hpre|Hpre].
  - left. apply Hr; [assumption|]. intros ->. now apply Hp.
  - right. intros H. apply prefix_app_cases in H as [H|(q & -> & _)];
      [now apply Hpre|]. apply Hp. now exists q.
Qed.

Lemma slash_free_prefix (q p : path) :
  q `prefix_of` p -> slash_free p -> slash_free q.
Proof. intros [k ->] H. now apply Forall_app in H as [? _]. Qed.

Lemma confined_harmless {A} (c : M A) : confined temp c -> harmless temp c.
Proof. intros H w r w' Hr Hs Hc. now apply (H w r w'). Qed.

Lemma confined_ret {A} (a : A) : confined temp (ret a).
Proof.
  intros w r w' _ Hs [= _ <-]. split; [apply same_outside_refl|assumption].
Qed.

Lemma confined_raise {A} (e : exn) : confined temp (@raise A e).
Proof.
  intros w r w' _ Hs [= _ <-]. split; [apply same_outside_refl|assumption].
Qed.

Lemma confined_get_files : confined temp get_files.
Proof.
  intros w r w' _ Hs [= _ <-]. split; [apply same_outside_refl|assumption].
Qed.

Lemma confined_emit (n : notice) : confined temp (emit n).
Proof.
  intros w r w' _ Hs [= _ <-]. split; [apply same_outside_refl|assumption].
Qed.

Lemma confined_bind {A B} (m : M A) (k : A -> M B) :
  confined temp m -> (forall a, confined temp (k a)) -> confined temp (bind m k).
Proof.
  intros Hm Hk w r w' Hr Hs. unfold bind.
  destruct (m w) as [[a|e] w1] eqn:E.
  - intros Hka. destruct (Hm _ _ _ Hr Hs E) as [H1 H2].
    destruct (Hk a w1 r w' (reachable_same_outside _ _ Hr H1) H2 Hka) as [H3 H4].
    split; [eapply same_outside_trans; eauto|assumption].
  - intros [= <- <-]. eapply Hm; eauto.
Qed.

Lemma harmless_bind {A B} (m : M A) (k : A -> M B) :
  confined temp m -> (forall a, harmless temp (k a)) -> harmless temp (bind m k).
Proof.
  intros Hm Hk w r w' Hr Hs. unfold bind.
  destruct (m w) as [[a|e] w1] eqn:E.
  - intros Hka. destruct (Hm _ _ _ Hr Hs E) as [H1 H2].
    eapply same_outside_trans; [exact H1|].
    apply (Hk a w1 r w' (reachable_same_outside _ _ Hr H1) H2 Hka).
  - intros [= <- <-]. eapply Hm; eauto.
Qed.

Lemma confined_for_fold {A S} (body : A -> S -> M S) (l : list A) :
  (forall x acc, confined temp (body x acc)) ->
  forall acc, confined temp (for_fold body l acc).
Proof.
  intros Hbody. induction l as [|x l IH]; intros acc; cbn [for_fold].
  - apply confined_ret.
  - apply confined_bind; [apply Hbody|apply IH].
Qed.

Lemma confined_insert (x : path) (n : node) (w w' : world) :
  slash_free (temp ++ x) ->
  slash_free_below (files w) temp ->
  files w' = <[temp ++ x := n]> (files w) ->
  same_outside temp (files w) (files w') /\ slash_free_below (files w') temp.
Proof.
  intros Hx Hs ->. split.
  - intros p Hp. apply stat_insert_ne. intros <-. apply Hp. now exists x.
  - intros k Hk Hin. destruct (decide (temp ++ x = k)) as [<-|Hne]; [assumption|].
    rewrite lookup_insert_ne in Hin by assumption. now apply Hs.
Qed.

Lemma confined_os_mkdir (x : path) :
  slash_free (temp ++ x) -> confined temp (Fs.os_mkdir (temp ++ x)).
Proof.
  intros Hx w r w' _ Hs. unfold Fs.os_mkdir, bind, get_files, put_files, raise.
  assert (Hsame : same_outside temp (files w) (files w)
                  /\ slash_free_below (files w) temp)
    by (split; [apply same_outside_refl|assumption]).
  destruct (Fs.stat (files w) (temp ++ x)); [now intros [= _ <-]|].
  destruct (Fs.stat (files w) (Path.parent (temp ++ x))) as [[c|]|];
    try (now intros [= _ <-]).
  intros [= _ <-]. now apply (confined_insert x Dir).
Qed.

Lemma confined_write_file (x : path) (c : data) :
  slash_free (temp ++ x) -> confined temp (Fs.write_file (temp ++ x) c).
Proof.
  intros Hx w r w' _ Hs Hw. destruct r as [[]|e].
  - apply write_file_ok in Hw as (Hf & _). now apply (confined_insert x (File c)).
  - apply write_file_raise in Hw as ->.
    split; [apply same_outside_refl|assumption].
Qed.

Lemma confined_mkdir_parents (x : path) :
  slash_free (temp ++ x) -> confined temp (Fs.mkdir_parents (temp ++ x)).
Proof.
  intros Hx w r w' Hr Hs Hm. split.
  - intros p Hp. apply (mkdir_parents_frame _ _ _ _ Hm).
    now apply outside_chain.
  - intros k Hk [n Hn].
    destruct k as [|y k]; [constructor|].
    assert (Hst : Fs.stat (files w') (y :: k) = Some n) by exact Hn.
    destruct n as [c|].
    + apply (mkdir_chain_files _ _ _ _ _ Hm) in Hst. apply Hs; [assumption|].
      now exists (File c).
    + apply isdir_stat in Hst.
      apply (mkdir_chain_new_dirs _ _ _ _ _ Hm) in Hst as [Hd|(q & _ & Hq & ->)].
      * apply isdir_stat in Hd. apply Hs; [assumption|]. now exists Dir.
      * now apply (slash_free_prefix q (temp ++ x)).
Qed.

Lemma confined_is_dir (p : path) : confined temp (Fs.is_dir p).
Proof.
  unfold Fs.is_dir. apply confined_bind; [apply confined_get_files|].
  intros m. apply confined_ret.
Qed.

Lemma confined_read_file (p : path) : confined temp (Fs.read_file p).
Proof.
  unfold Fs.read_file. apply confined_bind; [apply confined_get_files|].
  intros m. destruct (Fs.stat m p) as [[c|]|];
    [apply confined_ret|apply confined_raise|apply confined_raise].
Qed.

Lemma split_pieces_free (c : ascii) (s : string) :
  Forall (fun x => Str.contains c x = false) (Str.split c s).
Proof.
  induction s as [|a s IH]; simpl; [repeat constructor|].
  destruct (Ascii.eqb a c) eqn:E; [constructor; [reflexivity|assumption]|].
  destruct (Str.split c s) as [|x xs]; [repeat constructor; simpl; now rewrite E|].
  apply Forall_cons in IH as [Hx Hxs]. constructor; [|assumption].
  simpl. now rewrite E, Hx.
Qed.

Lemma slash_free_removelast (p : path) : slash_free p -> slash_free (removelast p).
Proof.
  intros H. destruct p as [|x p]; [assumption|].
  rewrite (app_removelast_last EmptyString (l := x :: p)) in H by discriminate.
  now apply Forall_app in H as [? _].
Qed.

Lemma confined_extract_member (d : string) (member : string * data) :
  slash_free temp -> Str.contains Str.slash d = false ->
  confined temp (extract_member (temp ++ [d]) member).
Proof.
  intros Ht Hd. unfold extract_member. cbv zeta.
  set (arcname := List.filter valid_part (Str.split Str.slash member.1)).
  assert (Harc : slash_free arcname).
  { unfold slash_free. apply Forall_forall. intros x Hx%list_elem_of_In.
    apply filter_In in Hx as [Hx _].
    pose proof (split_pieces_free Str.slash member.1) as H.
    rewrite Forall_forall in H. now apply H, list_elem_of_In. }
  assert (Htarget : (temp ++ [d]) ++ arcname = temp ++ ([d] ++ arcname))
    by now rewrite <- app_assoc.
  assert (Hsf : slash_free (temp ++ ([d] ++ arcname))).
  { apply Forall_app. split; [assumption|]. apply Forall_app. split; [|assumption].
    now repeat constructor. }
  assert (Hup : exists y, Path.parent ((temp ++ [d]) ++ arcname) = temp ++ y
                          /\ slash_free (temp ++ y)).
  { unfold Path.parent. rewrite Htarget. exists (removelast ([d] ++ arcname)).
    split; [apply removelast_app; discriminate|].
    apply Forall_app. split; [assumption|].
    apply slash_free_removelast. now apply Forall_app in Hsf as [_ ?]. }
  destruct Hup as (y & Hy & Hysf).
  assert (Hbody : confined temp
    (let* m := get_files in
     (if bool_decide (is_Some (Fs.stat m (Path.parent ((temp ++ [d]) ++ arcname))))
      then ret tt
      else Fs.mkdir_parents (Path.parent ((temp ++ [d]) ++ arcname))) >>
     if ends_with_slash member.1
     then (let* d0 := Fs.is_dir ((temp ++ [d]) ++ arcname) in
           if d0 then ret tt else Fs.os_mkdir ((temp ++ [d]) ++ arcname))
     else Fs.write_file ((temp ++ [d]) ++ arcname) member.2)).
  { rewrite Hy, Htarget.
    apply confined_bind; [apply confined_get_files|]. intros m.
    apply confined_bind.
    - destruct (bool_decide _); [apply confined_ret|now apply confined_mkdir_parents].
    - intros _. destruct (ends_with_slash member.1).
      + apply confined_bind; [apply confined_is_dir|].
        intros [|]; [apply confined_ret|now apply confined_os_mkdir].
      + now apply confined_write_file. }
  clearbody arcname. clear Harc Htarget Hsf Hy.
  destruct arcname as [|a arcname]; destruct (ends_with_slash member.1);
    try exact Hbody.
  apply confined_raise.
Qed.

Lemma confined_extractall (d z : string) :
  slash_free temp -> Str.contains Str.slash d = false ->
  confined temp (extractall (temp ++ [z]) (temp ++ [d])).
Proof.
  intros Ht Hd. unfold extractall.
  apply confined_bind; [apply confined_read_file|].
  intros [b|members]; [apply confined_raise|].
  unfold for_each. apply confined_for_fold.
  intros member _. now apply confined_extract_member.
Qed.

End NoTrace.

Section ZipNoTrace.

Variable office : office_app -> path -> gmap path node -> automation.

Lemma harmless_walk (temp : path) (a b : string) (pres : bool) :
  harmless temp (process_folder_recursive office (temp ++ [a]) (temp ++ [b]) pres).
Proof.
  intros w r w' Hr Hs Hrun.
  destruct (Fs.isdir (files w) (temp ++ [a])) eqn:Hd.
  2:{ rewrite not_a_folder in Hrun by assumption. injection Hrun as _ <-.
      apply same_outside_refl. }
  destruct (process_folder_recursive_run office (temp ++ [a]) (temp ++ [b]) pres w Hd)
    as (rels & os & w0 & Hrun' & _).
  rewrite Hrun' in Hrun. injection Hrun as <- <-.
  intros p Hp. apply (walk_frame office _ _ _ _ _ _ (fun rel Hin =>
    Hs (((temp ++ [a]) ++ rel)) (prefix_app_r _ _ _ (prefix_app_r _ _ _ (reflexivity temp))) Hin)
    Hrun').
  split.
  - intros Hpre. apply Hp. etransitivity; [|exact Hpre]. now exists [b].
  - now apply outside_chain.
Qed.

Lemma after_walk_files (out : path) (key : string)
    (r0 : list ConversionRecord * list string) (w w' : world)
    (r : result (list ConversionRecord * list string)) :
  ((match r0.1 with
    | [] => ret tt
    | _ => let* result_zip_data := create_zip_from_folder out in
           emit (Download key result_zip_data)
    end) >> ret r0) w = (r, w') ->
  files w' = files w.
Proof.
  destruct r0.1 as [|x l].
  - unfold bind, ret. now intros [= _ <-].
  - destruct (create_zip_run out w) as (rels & Hzip & _).
    unfold bind. rewrite Hzip. unfold emit, ret. now intros [= _ <-].
Qed.

Lemma os_mkdir_raise (p : path) (w w' : world) (e : exn) :
  Fs.os_mkdir p w = (Raise e, w') -> w' = w.
Proof.
  unfold Fs.os_mkdir, bind, get_files, put_files, raise.
  destruct (Fs.stat (files w) p) as [n|]; [now intros [= _ <-]|].
  destruct (Fs.stat (files w) (Path.parent p)) as [[c|]|];
    now intros [= <-] || now intros [= _ <-].
Qed.

Lemma fresh_slash_free_below (m : gmap path node) (temp : path) :
  fresh m temp -> slash_free_below m temp.
Proof.
  intros Hf k Hk [n Hn]. apply Hf in Hk.
  destruct k as [|x k]; [constructor|]. cbn [Fs.stat] in Hk.
  exfalso. pose proof (eq_trans (eq_sym Hn) Hk) as E. discriminate E.
Qed.

Lemma removed_with_the_directory (temp : path) (m0 m : gmap path node) :
  fresh m0 temp -> same_outside temp m0 m ->
  forall p,
    Fs.stat (filter (fun kv => Fs.inside temp kv.1 = false) m) p = Fs.stat m0 p.
Proof.
  intros Hf Hs [|x p]; [reflexivity|]. cbn [Fs.stat].
  destruct (decide (temp `prefix_of` (x :: p))) as [Hp|Hp].
  - pose proof (Hf _ Hp) as Hnone. cbn [Fs.stat] in Hnone. rewrite Hnone.
    apply map_lookup_filter_None. right. intros n _. cbn [fst].
    apply inside_spec in Hp. congruence.
  - pose proof (Hs _ Hp) as Hsame. cbn [Fs.stat] in Hsame. rewrite <- Hsame.
    assert (Hout : Fs.inside temp (x :: p) = false).
    { destruct (Fs.inside temp (x :: p)) eqn:E; [|reflexivity].
      apply inside_spec in E. contradiction. }
    destruct (m !! (x :: p)) as [n|] eqn:E.
    + transitivity (Some n); [now apply map_lookup_filter_Some|symmetry; exact E].
    + transitivity (@None node); [|symmetry; exact E].
      apply map_lookup_filter_None. now left.
Qed.

(** X16. [handle_uploaded_zip] leaves no trace: whatever the uploaded
    archive holds, whether the conversion succeeds or an exception ends
    it, when the function is over every path of the file system is what it
    was before.  The temporary directory is a fresh name below existing
    directories. *)
Theorem zip_upload_leaves_no_trace temp_dir uploaded_zip pres w r w' :
  slash_free temp_dir ->
  fresh (files w) temp_dir ->
  reachable (files w) temp_dir ->
  handle_uploaded_zip office temp_dir uploaded_zip pres w = (r, w') ->
  forall p, Fs.stat (files w') p = Fs.stat (files w) p.
Proof.
  intros Ht Hfresh Hreach. unfold handle_uploaded_zip.
  destruct (is_zipfile (getvalue uploaded_zip)); cbn [negb].
  2:{ unfold bind, emit, ret. now intros [= _ <-]. }
  unfold TemporaryDirectory. unfold bind at 1.
  destruct (Fs.os_mkdir temp_dir w) as [[[]|e] w1] eqn:Hm.
  2:{ intros [= _ <-]. now apply os_mkdir_raise in Hm as ->. }
  assert (H1 : same_outside temp_dir (files w) (files w1)
               /\ slash_free_below (files w1) temp_dir).
  { apply (confined_os_mkdir temp_dir [] (eq_ind_r slash_free Ht (app_nil_r _))
             w (Ok tt) w1 Hreach (fresh_slash_free_below _ _ Hfresh)).
    now rewrite app_nil_r. }
  destruct H1 as [Hs1 Hb1].
  unfold try_finally.
  rewrite !joinpath_single by (first [reflexivity|discriminate]).
  match goal with |- context [match ?body w1 with _ => _ end] =>
    destruct (body w1) as [r1 w2] eqn:Hbody end.
  rewrite rmtree_run. intros [= _ <-]. cbn [files].
  apply removed_with_the_directory; [assumption|].
  eapply same_outside_trans; [exact Hs1|].
  revert Hbody.
  apply (harmless_bind temp_dir); [| |now apply (reachable_same_outside temp_dir (files w))
                                   |assumption].
  { apply confined_os_mkdir.
    apply Forall_app. split; [assumption|now repeat constructor]. }
  intros _. apply harmless_bind.
  { apply confined_write_file.
    apply Forall_app. split; [assumption|now repeat constructor]. }
  intros _. apply harmless_bind; [now apply confined_extractall|].
  intros _. apply harmless_bind; [apply confined_emit|].
  intros _ w3 r3 w4 Hr3 Hs3. unfold bind at 1.
  destruct (process_folder_recursive office _ _ pres w3) as [[r0|e] w5] eqn:Hwalk.
  - intros Hrest. apply after_walk_files in Hrest. rewrite Hrest.
    eapply harmless_walk; eauto.
  - intros [= _ <-]. eapply harmless_walk; eauto.
Qed.

End ZipNoTrace.

Lemma fresh_check_sound (m : gmap path node) (d : path) :
  fresh_check m d = true -> fresh m d.
Proof.
  unfold fresh_check. intros [Hd Hk]%andb_true_iff p Hp.
  apply negb_true_iff, bool_decide_eq_false in Hd.
  destruct p as [|x p]; [apply prefix_nil_inv in Hp; contradiction|].
  cbn [Fs.stat]. destruct (m !! (x :: p)) as [n|] eqn:E; [exfalso|exact E].
  rewrite forallb_forall in Hk.
  assert (Hin : In (x :: p) (map_to_list m).*1) by (apply in_keys; eauto).
  apply Hk, negb_true_iff in Hin. apply inside_spec in Hp. congruence.
Qed.

Lemma reachable_check_sound (m : gmap path node) (d : path) :
  reachable_check m d = true -> reachable m d.
Proof.
  unfold reachable_check. rewrite forallb_forall. intros H q Hq Hne.
  apply prefix_in_inits, H in Hq. apply orb_true_iff in Hq as [Hq|Hq].
  - apply bool_decide_eq_true in Hq. contradiction.
  - destruct (Fs.stat m q); [eauto|discriminate].
Qed.

Lemma zip_upload_leaves_no_trace_witness :
  let up := {| name := "docs.zip";
               getvalue := Zip [("../evil.docx", other_bytes);
                                ("/abs/a.pdf", sample_bytes);
                                ("plain.pptx", other_bytes)] |} in
  let run := handle_uploaded_zip sample_office ["tmp"; "t"] up true bare_world in
  length (converted_of run.1) = 3
  /\ forall p, Fs.stat (files run.2) p = Fs.stat (files bare_world) p.
Proof.
  intros up run. split; [vm_compute; reflexivity|].
  apply (zip_upload_leaves_no_trace sample_office ["tmp"; "t"] up true bare_world
           run.1 run.2).
  - repeat constructor.
  - apply fresh_check_sound. vm_compute. reflexivity.
  - apply reachable_check_sound. vm_compute. reflexivity.
  - reflexivity.
Defined.

Section ConvertFailure.

Variable office : office_app -> path -> gmap path node -> automation.

(** ** How a conversion fails *)

Lemma office_kinds (s : string) :
  Str.mem s [".doc"; ".docx"; ".ppt"; ".pptx"]
  = Str.mem s [".doc"; ".docx"] || Str.mem s [".ppt"; ".pptx"].
Proof. unfold Str.mem. simpl. now rewrite !orb_false_r, orb_assoc. Qed.

Lemma automate_raises app doc pdf_path w e w' :
  automate office app doc pdf_path w = (Raise e, w') ->
  failure_of doc pdf_path (office app doc (files w)) w w' e.
Proof.
  rewrite automate_eq. unfold failure_of.
  destruct (office app doc (files w)) as [msg|msg|c|c msg|c msg].
  - now intros [= <- <-].
  - now intros [= <- <-].
  - destruct (Fs.write_file pdf_path c w) as [[[]|e0] w1] eqn:Hw; [discriminate|].
    intros [= <- <-]. eauto.
  - destruct (Fs.write_file pdf_path c w) as [[[]|e0] w1] eqn:Hw;
      intros [= <- <-]; [left|right]; eauto.
  - destruct (Fs.write_file pdf_path c w) as [r w1] eqn:Hw.
    intros [= <- <-]. eauto.
Qed.

(** X17. A failure of [convert_file_to_pdf] is the failure to create the
    output directory, passed on as it is, or a [ValueError] that names the
    file and wraps the cause.  The cause is the unsupported extension, or
    what Word (for [.doc], [.docx]) or PowerPoint (for [.ppt], [.pptx])
    raised: no application, a refused document, a PDF that could not be
    written, or a failure to close the document or to quit the application
    after the PDF was written.  In the second case nothing but the output
    directory has been created, and possibly the PDF written. *)
Theorem convert_failure_is_wrapped f dir w e w' :
  convert_file_to_pdf office f dir w = (Raise e, w') ->
  let pdf_path := Path.joinpath dir (Path.stem f +:+ ".pdf") in
  Fs.mkdir_parents dir w = (Raise e, w')
  \/ exists wm cause,
       Fs.mkdir_parents dir w = (Ok tt, wm)
       /\ e = ValueError ("Failed to convert " +:+ Path.name f +:+ ": "
                              +:+ exn_str cause)
       /\ (if is_valid_office_file f then
             let app := if Str.mem (Str.lower (Path.suffix f)) [".doc"; ".docx"]
                        then Word else PowerPoint in
             failure_of f pdf_path (office app f (files wm)) wm w' cause
           else
             cause = ValueError ("Unsupported file type: " +:+ Path.suffix f)
             /\ w' = wm)
       /\ (w' = wm \/ exists c, Fs.write_file pdf_path c wm = (Ok tt, w')).
Proof.
  unfold convert_file_to_pdf, is_valid_office_file. rewrite office_kinds.
  unfold bind at 1.
  destruct (Fs.mkdir_parents dir w) as [[[]|e1] wm] eqn:Hm;
    [|intros [= <- <-]; now left].
  intros Hrun. right. exists wm. revert Hrun.
  set (pdf_path := Path.joinpath dir (Path.stem f +:+ ".pdf")).
  unfold try_except, convert_doc_to_pdf, convert_pptx_to_pdf.
  assert (Hrun : forall app,
    match (let* _ := automate office app f pdf_path in ret pdf_path) wm with
    | (Ok a, w2) => (Ok a, w2)
    | (Raise e, w2) =>
        raise (ValueError ("Failed to convert " +:+ Path.name f +:+ ": "
                               +:+ exn_str e)) w2
    end = (Raise e, w') ->
    exists cause,
      (Ok tt, wm) = (Ok tt, wm)
      /\ e = ValueError ("Failed to convert " +:+ Path.name f +:+ ": "
                             +:+ exn_str cause)
      /\ failure_of f pdf_path (office app f (files wm)) wm w' cause
      /\ (w' = wm \/ exists c, Fs.write_file pdf_path c wm = (Ok tt, w'))).
  { intros app. unfold bind.
    destruct (automate office app f pdf_path wm) as [[[]|e0] w2] eqn:Ha;
      unfold ret, raise; [discriminate|].
    intros [= <- <-]. exists e0. split; [reflexivity|]. split; [reflexivity|].
    split; [now apply automate_raises|].
    apply automate_cases in Ha as [(e1 & _ & ->)|(c & Hw)]; [now left|eauto]. }
  destruct (Str.mem _ [".doc"; ".docx"]); [apply Hrun|].
  destruct (Str.mem _ [".ppt"; ".pptx"]); [apply Hrun|].
  unfold bind, raise. intros [= <- <-]. cbn [orb].
  exists (ValueError ("Unsupported file type: " +:+ Path.suffix f)).
  repeat split. now left.
Qed.

End ConvertFailure.

Lemma convert_failure_is_wrapped_witness :
  let run := convert_file_to_pdf closing_office ["in"; "reports"; "q1.docx"] ["out"]
               sample_world in
  run.1 = Raise (ValueError ("Failed to convert q1.docx: Could not convert "
                               +:+ "/in/reports/q1.docx: "
                               +:+ "The RPC server is unavailable."))
  /\ Fs.stat (files run.2) ["out"; "q1.pdf"] = Some (File other_bytes)
  /\ (Fs.mkdir_parents ["out"] sample_world = (Raise (raised run.1), run.2)
      \/ exists wm cause,
           Fs.mkdir_parents ["out"] sample_world = (Ok tt, wm)
           /\ raised run.1
              = ValueError ("Failed to convert " +:+ "q1.docx" +:+ ": "
                                +:+ exn_str cause)
           /\ (run.2 = wm
               \/ exists c,
                    Fs.write_file ["out"; "q1.pdf"] c wm = (Ok tt, run.2))).
Proof.
  intros run. split; [vm_compute; reflexivity|].
  split; [vm_compute; reflexivity|].
  destruct (convert_failure_is_wrapped closing_office ["in"; "reports"; "q1.docx"]
              ["out"] sample_world (raised run.1) run.2)
    as [H|(wm & cause & H1 & H2 & _ & H3)].
  - vm_compute. reflexivity.
  - now left.
  - right. exists wm, cause. split; [exact H1|]. split; [exact H2|exact H3].
Defined.

Section CopiedPdf.

Variable office : office_app -> path -> gmap path node -> automation.

(** ** The copy of a PDF, over a whole run *)

Lemma parent_name (p : path) : p <> [] -> Path.parent p ++ [Path.name p] = p.
Proof.
  intros H. destruct (exists_last H) as (l & x & ->).
  now rewrite parent_snoc, name_snoc.
Qed.

Lemma output_rel_preserved (folder rel : path) :
  rel <> [] ->
  is_valid_office_file (folder ++ rel) = false ->
  output_rel folder true rel = rel.
Proof.
  intros Hne Ho. unfold output_rel, mirror. rewrite Ho, name_app by assumption.
  now apply parent_name.
Qed.

Lemma output_path_office folder out pres rel :
  slash_free (folder ++ rel) ->
  is_valid_office_file (folder ++ rel) = true ->
  Path.joinpath (out ++ mirror pres rel) (Path.stem (folder ++ rel) +:+ ".pdf")
  = out ++ output_rel folder pres rel.
Proof.
  intros Hsf Ho. unfold output_rel. rewrite Ho.
  pose proof (produced_office out (mirror pres rel) (folder ++ rel) Hsf) as H.
  apply relative_to_Some in H. exact H.
Qed.

Lemma output_path_pdf folder out pres rel :
  slash_free (folder ++ rel) ->
  is_pdf (folder ++ rel) = true ->
  Path.joinpath (out ++ mirror pres rel) (Path.name (folder ++ rel))
  = out ++ output_rel folder pres rel.
Proof.
  intros Hsf Hp. unfold output_rel. rewrite (pdf_not_office _ Hp).
  pose proof (produced_copy out (mirror pres rel) (folder ++ rel) Hsf
                (pdf_suffix _ Hp)) as H.
  apply relative_to_Some in H. exact H.
Qed.

(** A conversion is the creation of the output directory, followed or not
    by the writing of the PDF. *)
Lemma convert_shape f dir w r w1 :
  convert_file_to_pdf office f dir w = (r, w1) ->
  exists rm wm,
    Fs.mkdir_parents dir w = (rm, wm)
    /\ (w1 = wm
        \/ exists c0,
             Fs.write_file (Path.joinpath dir (Path.stem f +:+ ".pdf")) c0 wm
             = (Ok tt, w1)).
Proof.
  unfold convert_file_to_pdf. unfold bind at 1.
  destruct (Fs.mkdir_parents dir w) as [[[]|e] wm] eqn:Hm.
  2:{ intros [= <- <-]. eexists _, _. split; [reflexivity|now left]. }
  intros Hc. eexists _, _. split; [reflexivity|]. revert Hc.
  unfold try_except, convert_doc_to_pdf, convert_pptx_to_pdf.
  set (pdf_path := Path.joinpath dir (Path.stem f +:+ ".pdf")).
  assert (Hrun : forall app,
    match (let* _ := automate office app f pdf_path in ret pdf_path) wm with
    | (Ok a, w2) => (Ok a, w2)
    | (Raise e, w2) =>
        raise (ValueError ("Failed to convert " +:+ Path.name f +:+ ": "
                               +:+ exn_str e)) w2
    end = (r, w1) ->
    w1 = wm \/ exists c0, Fs.write_file pdf_path c0 wm = (Ok tt, w1)).
  { intros app. unfold bind.
    destruct (automate office app f pdf_path wm) as [r2 w2] eqn:Ha.
    apply automate_cases in Ha as [(e & -> & ->)|(c0 & Hw)].
    - unfold raise. intros [= _ <-]. now left.
    - destruct r2 as [[]|e]; unfold ret, raise; intros [= _ <-]; eauto. }
  destruct (Str.mem _ [".doc"; ".docx"]); [apply Hrun|].
  destruct (Str.mem _ [".ppt"; ".pptx"]); [apply Hrun|].
  unfold bind, raise. intros [= _ <-]. now left.
Qed.

(** The attempt to copy a PDF is the creation of the output directory,
    followed, when it succeeds, by the writing of the source's bytes. *)
Lemma attempt_shape dir f target w r w1 :
  (Fs.mkdir_parents dir >> Fs.copy2 f target) w = (r, w1) ->
  exists rm wm,
    Fs.mkdir_parents dir w = (rm, wm)
    /\ ((exists e, r = Raise e /\ w1 = wm)
        \/ (r = Ok tt
            /\ exists c0,
                 Fs.stat (files wm) f = Some (File c0)
                 /\ files w1
                    = <[copy_target (files wm) f target := File c0]> (files wm))).
Proof.
  unfold bind. destruct (Fs.mkdir_parents dir w) as [[[]|e] wm] eqn:Hm.
  2:{ intros [= <- <-]. eexists _, _. split; [reflexivity|]. left. eauto. }
  intros Hc. eexists _, _. split; [reflexivity|]. destruct r as [[]|e].
  - right. split; [reflexivity|].
    apply copy2_ok in Hc as (c0 & Hs & Hf & _). eauto.
  - left. apply copy2_raise in Hc as ->. eauto.
Qed.

Lemma mkdir_parents_dirs (dir : path) (w wm : world) (rm : result unit) (t : path) :
  Fs.mkdir_parents dir w = (rm, wm) ->
  Fs.isdir (files w) t = false -> ~ t `prefix_of` dir ->
  Fs.isdir (files wm) t = false.
Proof.
  intros Hm Hd Hpre. destruct (Fs.isdir (files wm) t) eqn:E; [|reflexivity].
  apply (mkdir_chain_new_dirs _ _ _ _ _ Hm) in E as [E|(q & _ & Hq & ->)];
    [congruence|]. now destruct Hpre.
Qed.

Lemma mkdir_parents_file (dir : path) (w wm : world) (rm : result unit)
    (t : path) (c : data) :
  Fs.mkdir_parents dir w = (rm, wm) ->
  Fs.stat (files w) t = Some (File c) -> Fs.stat (files wm) t = Some (File c).
Proof. intros Hm. now apply (mkdir_chain_files _ _ _ _ _ Hm). Qed.

Lemma isdir_insert_file (m : gmap path node) (p t : path) (c : data) :
  p <> [] -> Fs.isdir m t = false -> Fs.isdir (<[p := File c]> m) t = false.
Proof.
  intros Hp Hd. destruct (decide (p = t)) as [<-|Hne].
  - unfold Fs.isdir. now rewrite stat_insert_eq.
  - unfold Fs.isdir in *. now rewrite stat_insert_ne.
Qed.

Lemma below_is_not_root (folder rel : path) : rel <> [] -> folder ++ rel <> [].
Proof. destruct folder, rel; simpl; congruence. Qed.

Lemma copy2_total (src dst : path) (c : data) (w : world) :
  Fs.stat (files w) src = Some (File c) ->
  Fs.isdir (files w) dst = false ->
  Fs.isdir (files w) (Path.parent dst) = true ->
  src <> dst ->
  Fs.copy2 src dst w = (Ok tt, World (<[dst := File c]> (files w)) (ui w)).
Proof.
  intros Hs Hd Hp Hne. rewrite copy2_eq. unfold copy_target. rewrite Hd, Hs.
  rewrite (bool_decide_eq_false_2 _ Hne). simpl.
  now apply write_file_total.
Qed.

Lemma mkdir_parents_clear (dir : path) (w wm : world) (rm : result unit) (q : path) :
  Fs.mkdir_parents dir w = (rm, wm) ->
  Fs.isfile (files w) q = false -> Fs.isfile (files wm) q = false.
Proof.
  intros Hm Hq. destruct (Fs.isfile (files wm) q) eqn:E; [|reflexivity].
  apply isfile_stat in E as [c0 E]. apply (mkdir_chain_files _ _ _ _ _ Hm) in E.
  assert (F : Fs.isfile (files w) q = true) by (apply isfile_stat; eauto).
  congruence.
Qed.

Lemma mkdir_parents_made (dir : path) (w wm : world) :
  Fs.mkdir_parents dir w = (Ok tt, wm) -> Fs.isdir (files wm) dir = true.
Proof.
  intros Hm. destruct dir as [|x dir]; [reflexivity|].
  apply (mkdir_chain_ok _ _ _ _ Hm (x :: dir)); [discriminate|reflexivity].
Qed.

Lemma isfile_insert_other (m : gmap path node) (p q : path) (c : data) :
  p <> q -> Fs.isfile m q = false -> Fs.isfile (<[p := File c]> m) q = false.
Proof. intros Hne Hq. unfold Fs.isfile in *. now rewrite stat_insert_ne. Qed.

Lemma not_a_prefix_of_its_prefix (p t d : path) :
  ~ p `prefix_of` t -> d `prefix_of` t ->
  forall q, q `prefix_of` d -> p <> q.
Proof.
  intros Hp Hd q Hq ->. apply Hp. now transitivity d.
Qed.

Variables (folder out : path) (pres : bool) (w : world) (rel : path) (c : data).

Hypothesis Hnames : names_slash_free (files w).
Hypothesis Hleaves : files_are_leaves (files w).
Hypothesis Hfolder : Fs.isdir (files w) folder = true.
Hypothesis Hapart : apart folder out.
Hypothesis Hrel : rel <> [].
Hypothesis Hc : Fs.stat (files w) (folder ++ rel) = Some (File c).
Hypothesis Hpdf : is_pdf (folder ++ rel) = true.
Hypothesis Hsole : sole_claimant (files w) folder pres rel.
Hypothesis Hclear :
  forall q, q `prefix_of` (out ++ mirror pres rel) -> Fs.isfile (files w) q = false.
Hypothesis Hnodir : Fs.isdir (files w) (out ++ output_rel folder pres rel) = false.

Lemma input_is_left_alone (rel' : path) :
  is_Some (Fs.stat (files w) (folder ++ rel')) ->
  left_alone out (files w) (folder ++ rel').
Proof.
  intros Hs. destruct Hapart as [Hfo Hof]. split; [|now left].
  intros Hpre. apply prefix_app_cases in Hpre as [Hpre|(q & -> & _)];
    [now apply Hof|]. apply Hfo. now exists q.
Qed.

Lemma entry_stat (rel' : path) :
  rel' <> [] -> is_Some (files w !! (folder ++ rel')) ->
  is_Some (Fs.stat (files w) (folder ++ rel')).
Proof.
  intros Hne Hs. rewrite stat_nonempty; [assumption|].
  now apply below_is_not_root.
Qed.

Lemma source_is_an_entry : is_Some (files w !! (folder ++ rel)).
Proof.
  pose proof Hc as H. rewrite stat_nonempty in H by now apply below_is_not_root.
  eauto.
Qed.

Lemma nothing_below (rel' q : path) :
  Fs.isfile (files w) (folder ++ rel') = true -> q <> [] ->
  ~ is_Some (files w !! (folder ++ rel' ++ q)).
Proof.
  intros Hf Hq [n Hn]. pose proof (Hleaves _ q Hf Hq) as Hnone.
  rewrite <- app_assoc in Hnone.
  pose proof (eq_trans (eq_sym Hn) Hnone) as E. discriminate E.
Qed.

Lemma source_is_a_file : Fs.isfile (files w) (folder ++ rel) = true.
Proof. apply isfile_stat. eauto. Qed.

(** The output location of the PDF lies directly below its output
    directory, and is not the PDF itself. *)
Lemma output_below_its_directory :
  out ++ output_rel folder pres rel = (out ++ mirror pres rel) ++ [Path.name rel].
Proof.
  unfold output_rel. rewrite (pdf_not_office _ Hpdf), name_app by assumption.
  now rewrite app_assoc.
Qed.

Lemma output_is_not_the_source : folder ++ rel <> out ++ output_rel folder pres rel.
Proof.
  intros E. destruct Hapart as [Hfo Hof].
  assert (Hpre : folder `prefix_of` (out ++ output_rel folder pres rel))
    by (rewrite <- E; now exists rel).
  apply prefix_app_cases in Hpre as [Hpre|(q & -> & _)]; [now apply Hfo|].
  apply Hof. now exists q.
Qed.

(** The output location of the PDF is on the directory chain of no
    output. *)
Lemma output_off_the_chains (rel' : path) :
  rel' <> [] -> is_Some (files w !! (folder ++ rel')) ->
  ~ (out ++ output_rel folder pres rel) `prefix_of` (out ++ mirror pres rel').
Proof.
  intros Hne Hs Hpre. apply prefix_app_inv in Hpre.
  destruct pres.
  - rewrite output_rel_preserved in Hpre
      by (auto using pdf_not_office).
    unfold mirror in Hpre. destruct Hpre as [k Hk].
    apply (nothing_below rel (k ++ [Path.name rel'])).
    + apply source_is_a_file.
    + apply not_eq_sym, app_cons_not_nil.
    + rewrite (app_assoc rel k), <- Hk, parent_name by assumption. assumption.
  - unfold mirror in Hpre. apply prefix_nil_inv in Hpre.
    unfold output_rel, mirror in Hpre. discriminate.
Qed.

(** The output of another input is written elsewhere, and not on the way
    to the output location of the PDF. *)
Lemma other_outputs_elsewhere (rel' : path) :
  rel' <> [] -> rel' <> rel ->
  Fs.isfile (files w) (folder ++ rel') = true ->
  is_valid_office_file (folder ++ rel') || is_pdf (folder ++ rel') = true ->
  ~ (out ++ output_rel folder pres rel')
      `prefix_of` (out ++ output_rel folder pres rel)
  /\ forall n,
       is_pdf (folder ++ rel') = true ->
       ~ ((out ++ output_rel folder pres rel') ++ [n])
           `prefix_of` (out ++ output_rel folder pres rel).
Proof.
  intros Hne Hdiff Hf Hkind. split.
  - intros E%prefix_app_inv. now apply (Hsole rel').
  - intros n Hp E. rewrite <- app_assoc in E. apply prefix_app_inv in E.
    destruct pres.
    + rewrite !output_rel_preserved in E by (auto using pdf_not_office).
      destruct E as [k Hk].
      apply (nothing_below rel' ([n] ++ k) Hf); [discriminate|].
      rewrite (app_assoc rel' [n] k), <- Hk. apply source_is_an_entry.
    + unfold output_rel, mirror in E. destruct E as [k Hk]. discriminate.
Qed.

Lemma named_elsewhere (rel' : path) (acc : list ConversionRecord * list string)
    (rec : ConversionRecord) :
  rel' <> [] -> rel' <> rel -> is_Some (files w !! (folder ++ rel')) ->
  original rec = Path.rel_str rel' ->
  (exists r, In r (acc.1 ++ [rec]) /\ original r = Path.rel_str rel) ->
  exists r, In r acc.1 /\ original r = Path.rel_str rel.
Proof.
  intros Hne Hdiff Hs Ho (r & [Hr|[<-|[]]]%in_app_iff & Hor); [eauto|].
  exfalso. apply Hdiff. rewrite Ho in Hor.
  apply rel_str_inj; try assumption.
  - now apply (slash_free_rel (files w) folder).
  - apply (slash_free_rel (files w) folder); [assumption|].
    apply source_is_an_entry.
Qed.

Lemma skipped_elsewhere (rel' : path) (skipped : list string) :
  rel' <> [] -> rel' <> rel -> is_Some (files w !! (folder ++ rel')) ->
  ~ In (Path.rel_str rel) skipped ->
  ~ In (Path.rel_str rel) (skipped ++ [Path.rel_str rel']).
Proof.
  intros Hne Hdiff Hs Hold [Hin|[E|[]]]%in_app_iff; [now apply Hold|].
  apply Hdiff. apply rel_str_inj; try assumption.
  - now apply (slash_free_rel (files w) folder).
  - apply (slash_free_rel (files w) folder); [assumption|].
    apply source_is_an_entry.
Qed.

(** The visit of the PDF itself: the output directory can be made, the
    copy goes through and is recorded. *)
Lemma visit_copies acc w0 acc' w0' :
  copy_kept out (files w) (out ++ mirror pres rel)
    (out ++ output_rel folder pres rel) (Path.rel_str rel) c acc w0 ->
  visit office folder out pres (folder ++ rel) acc w0 = (Ok acc', w0') ->
  copy_kept out (files w) (out ++ mirror pres rel)
    (out ++ output_rel folder pres rel) (Path.rel_str rel) c acc' w0'.
Proof.
  intros (I1 & I2 & I3 & I4 & I5) Hv.
  assert (Hsf : slash_free (folder ++ rel))
    by now apply (slash_free_rel (files w) folder rel Hnames), source_is_an_entry.
  assert (Hsame : Fs.stat (files w0) (folder ++ rel) = Some (File c)).
  { rewrite <- Hc. apply I1, (input_is_left_alone rel). rewrite Hc. eauto. }
  assert (I1' : forall p, left_alone out (files w) p ->
                  Fs.stat (files w0') p = Fs.stat (files w) p).
  { intros p Hp. rewrite <- (I1 p Hp).
    apply (visit_frame office folder out pres rel acc w0 acc' w0' Hrel Hsf Hv).
    destruct Hp as [Hout [Hp|Hp]]; (split; [assumption|]); [left|now right].
    rewrite I1; [assumption|]. split; [assumption|now left]. }
  destruct (mkdir_chain_total (out ++ mirror pres rel) [] w0) as [wm Hm];
    [intros q _ Hq; now apply I2|].
  fold (Fs.mkdir_parents (out ++ mirror pres rel)) in Hm.
  assert (Hcopy : Fs.copy2 (folder ++ rel) (out ++ output_rel folder pres rel) wm
                  = (Ok tt, World (<[out ++ output_rel folder pres rel := File c]>
                                     (files wm)) (ui wm))).
  { apply copy2_total.
    - now apply (mkdir_parents_file _ _ _ _ _ _ Hm).
    - apply (mkdir_parents_dirs _ _ _ _ _ Hm I3).
      rewrite output_below_its_directory. intros Hpre%prefix_length.
      rewrite length_app in Hpre. simpl in Hpre. lia.
    - rewrite output_below_its_directory, parent_snoc.
      now apply (mkdir_parents_made _ _ _ Hm).
    - apply output_is_not_the_source. }
  rewrite visit_pdf in Hv;
    [|now apply isfile_stat; eauto|now apply pdf_not_reserved
     |now apply pdf_not_office|assumption|assumption].
  rewrite output_path_pdf in Hv by assumption.
  rewrite (bind_ok _ _ _ _ _ Hm), Hcopy, relative_to_app in Hv.
  injection Hv as <- <-. cbn [say files fst snd] in *.
  split; [assumption|]. split; [|split; [|split; [assumption|]]].
  - intros q Hq. apply isfile_insert_other.
    + rewrite output_below_its_directory. intros <-.
      apply prefix_length in Hq. rewrite length_app in Hq. simpl in Hq. lia.
    + apply (mkdir_parents_clear _ _ _ _ _ Hm). now apply I2.
  - apply isdir_insert_file.
    + rewrite output_below_its_directory. apply snoc_not_nil.
    + apply (mkdir_parents_dirs _ _ _ _ _ Hm I3).
      rewrite output_below_its_directory. intros Hpre%prefix_length.
      rewrite length_app in Hpre. simpl in Hpre. lia.
  - intros _. apply stat_insert_eq.
    rewrite output_below_its_directory. apply snoc_not_nil.
Qed.

(** The visit of any other entry leaves all this as it is. *)
Lemma visit_spares_the_copy rel' acc w0 acc' w0' :
  rel' <> [] -> rel' <> rel -> is_Some (files w !! (folder ++ rel')) ->
  copy_kept out (files w) (out ++ mirror pres rel)
    (out ++ output_rel folder pres rel) (Path.rel_str rel) c acc w0 ->
  visit office folder out pres (folder ++ rel') acc w0 = (Ok acc', w0') ->
  copy_kept out (files w) (out ++ mirror pres rel)
    (out ++ output_rel folder pres rel) (Path.rel_str rel) c acc' w0'.
Proof.
  intros Hne Hdiff Hs (I1 & I2 & I3 & I4 & I5) Hv.
  set (T := out ++ output_rel folder pres rel) in I3, I5 |- *.
  set (D := out ++ mirror pres rel) in I2 |- *.
  assert (HDT : D `prefix_of` T)
    by (exists [Path.name rel]; apply output_below_its_directory).
  assert (Hsf : slash_free (folder ++ rel'))
    by now apply (slash_free_rel (files w) folder rel' Hnames).
  assert (Hsame : Fs.stat (files w0) (folder ++ rel')
                  = Fs.stat (files w) (folder ++ rel'))
    by (apply I1, (input_is_left_alone rel'); now apply entry_stat).
  assert (I1' : forall p, left_alone out (files w) p ->
                  Fs.stat (files w0') p = Fs.stat (files w) p).
  { intros p Hp. rewrite <- (I1 p Hp).
    apply (visit_frame office folder out pres rel' acc w0 acc' w0' Hne Hsf Hv).
    destruct Hp as [Hout [Hp|Hp]]; (split; [assumption|]); [left|now right].
    rewrite I1; [assumption|]. split; [assumption|now left]. }
  assert (Hchain : ~ T `prefix_of` (out ++ mirror pres rel'))
    by now apply output_off_the_chains.
  destruct (visit_cases office folder out pres rel' acc w0 acc' w0' Hne Hv)
    as [[-> ->]|[(-> & -> & _)|[(Ho & Hf & r1 & w1 & Hcv & Hres)
                                |(Hp & Hf & r1 & w1 & Hcv & Hres)]]].
  - repeat (split; [assumption|]). assumption.
  - repeat (split; [assumption|]). split; [|assumption].
    now apply skipped_elsewhere.
  - assert (Hf0 : Fs.isfile (files w) (folder ++ rel') = true).
    { unfold Fs.isfile in *. now rewrite <- Hsame. }
    destruct (other_outputs_elsewhere rel' Hne Hdiff Hf0) as [Hother _];
      [now rewrite Ho|]. fold T in Hother.
    apply convert_shape in Hcv as (rm & wm & Hm & Hw).
    rewrite output_path_office in Hw by assumption.
    assert (Hfiles : files w0' = files w1)
      by (destruct Hres as [(? & ? & _ & _ & _ & ->)|(? & _ & ->)]; reflexivity).
    assert (Hacc : (exists r, In r acc'.1 /\ original r = Path.rel_str rel) ->
                   exists r, In r acc.1 /\ original r = Path.rel_str rel).
    { destruct Hres as [(? & pdf_rel & _ & _ & -> & _)|(? & -> & _)];
        [|trivial]. cbn [fst]. now apply (named_elsewhere rel'). }
    assert (Hskip : ~ In (Path.rel_str rel) acc'.2).
    { destruct Hres as [(? & pdf_rel & _ & _ & -> & _)|(? & -> & _)];
        [assumption|]. cbn [snd]. now apply skipped_elsewhere. }
    split; [assumption|]. rewrite Hfiles.
    pose proof (mkdir_parents_dirs _ _ _ _ T Hm I3 Hchain) as Hd.
    destruct Hw as [->|(c0 & Hw)].
    + split; [intros q Hq; apply (mkdir_parents_clear _ _ _ _ _ Hm); now apply I2|].
      split; [assumption|]. split; [assumption|]. intros Hr%Hacc%I5.
      now apply (mkdir_parents_file _ _ _ _ _ _ Hm).
    + apply write_file_ok in Hw as (-> & _ & Hnil & _).
      split.
      { intros q Hq. apply isfile_insert_other.
        - now apply (not_a_prefix_of_its_prefix _ T D).
        - apply (mkdir_parents_clear _ _ _ _ _ Hm). now apply I2. }
      split; [now apply isdir_insert_file|]. split; [assumption|].
      intros Hr%Hacc%I5.
      rewrite stat_insert_ne by (intros E; apply Hother; now rewrite E).
      now apply (mkdir_parents_file _ _ _ _ _ _ Hm).
  - apply attempt_shape in Hcv as (rm & wm & Hm & Hw).
    rewrite output_path_pdf in Hw by assumption.
    assert (Hfiles : files w0' = files w1)
      by (destruct Hres as [(? & _ & _ & _ & ->)|(? & _ & ->)]; reflexivity).
    assert (Hacc : (exists r, In r acc'.1 /\ original r = Path.rel_str rel) ->
                   exists r, In r acc.1 /\ original r = Path.rel_str rel).
    { destruct Hres as [(pdf_rel & _ & _ & -> & _)|(? & -> & _)];
        [|trivial]. cbn [fst]. now apply (named_elsewhere rel'). }
    assert (Hskip : ~ In (Path.rel_str rel) acc'.2).
    { destruct Hres as [(pdf_rel & _ & _ & -> & _)|(? & -> & _)];
        [assumption|]. cbn [snd]. now apply skipped_elsewhere. }
    split; [assumption|]. rewrite Hfiles.
    pose proof (mkdir_parents_dirs _ _ _ _ T Hm I3 Hchain) as Hd.
    assert (Hf0 : Fs.isfile (files w) (folder ++ rel') = true).
    { unfold Fs.isfile in *. now rewrite <- Hsame. }
    destruct Hw as [(e & -> & ->)|(-> & c0 & Hsrc & Hins)].
    + split; [intros q Hq; apply (mkdir_parents_clear _ _ _ _ _ Hm); now apply I2|].
      split; [assumption|]. split; [assumption|]. intros Hr%Hacc%I5.
      now apply (mkdir_parents_file _ _ _ _ _ _ Hm).
    + destruct (other_outputs_elsewhere rel' Hne Hdiff Hf0) as [Hother Hin];
        [now rewrite Hp, orb_true_r|]. fold T in Hother, Hin.
      assert (Htarget : ~ copy_target (files wm) (folder ++ rel')
                            (out ++ output_rel folder pres rel') `prefix_of` T).
      { unfold copy_target.
        destruct (Fs.isdir (files wm) (out ++ output_rel folder pres rel'));
          [now apply Hin|assumption]. }
      assert (Hnil : copy_target (files wm) (folder ++ rel')
                       (out ++ output_rel folder pres rel') <> [])
        by (intros E; apply Htarget; rewrite E; apply prefix_nil).
      rewrite Hins. split.
      { intros q Hq. apply isfile_insert_other.
        - now apply (not_a_prefix_of_its_prefix _ T D).
        - apply (mkdir_parents_clear _ _ _ _ _ Hm). now apply I2. }
      split; [now apply isdir_insert_file|]. split; [assumption|].
      intros Hr%Hacc%I5.
      rewrite stat_insert_ne by (intros E; apply Htarget; now rewrite E).
      now apply (mkdir_parents_file _ _ _ _ _ _ Hm).
Qed.


End CopiedPdf.

Lemma sole_claimant_check_sound (m : gmap path node) (folder : path) (pres : bool)
    (rel : path) :
  sole_claimant_check m folder pres rel = true -> sole_claimant m folder pres rel.
Proof.
  unfold sole_claimant_check, sole_claimant. rewrite forallb_forall.
  intros H rel' Hne Hdiff Hf Hkind E.
  assert (Hin : In (folder ++ rel') (map_to_list m).*1).
  { apply in_keys. now apply isfile_is_Some. }
  apply H in Hin. rewrite relative_to_app, Hf, Hkind in Hin.
  rewrite (bool_decide_eq_false_2 _ Hne), (bool_decide_eq_false_2 _ Hdiff) in Hin.
  rewrite (bool_decide_eq_true_2 _ E) in Hin. discriminate.
Qed.



(** The state of the output base matters as well: with a regular file in
    the place of the output base the PDF is skipped, and with a directory
    at the output location the copy goes into that directory. *)
Lemma copy_needs_room :
  let blocked := process_folder_recursive sample_office ["in"] ["out"] true
                   blocked_world in
  let occupied := process_folder_recursive sample_office ["in"] ["out"] true
                    occupied_world in
  blocked.1 = Ok ([], ["a.pdf"])
  /\ Fs.stat (files blocked.2) ["out"] = Some (File other_bytes)
  /\ occupied.1 = Ok ([converted_record ["a.pdf"] ["a.pdf"] "PDF (copied)"], [])
  /\ Fs.stat (files occupied.2) ["out"; "a.pdf"] = Some Dir
  /\ Fs.stat (files occupied.2) ["out"; "a.pdf"; "a.pdf"] = Some (File sample_bytes).
Proof.
  vm_compute. repeat split.
Qed.
